(** * download_gitlab_artifacts.py: a shallow embedding and its properties

    The script fetches job artifacts from a GitLab server, unpacks them,
    renders every JSON and XML file to a PDF and bundles the PDFs of each
    pipeline configuration into one zip archive.

    Python values are embedded as follows.
    - [str] is a list of Unicode code points ([pystr], a [list Z]); string
      literals of the source are written [py "..."].
    - [int] is [Z].
    - A call that may raise returns a [result]; [except Exception] is a
      match on it.
    - The [while True] loop of [get_job_id] runs on fuel: [None] means the
      loop has not finished within the fuel given.
    - The world the script acts on (server, working directory, output tree,
      standard output) is an explicit state. *)

From Stdlib Require Import String Ascii ZArith List Bool Lia.
Import ListNotations.
Open Scope Z_scope.

(** ** Python strings *)

Definition pystr := list Z.

Definition ord (c : ascii) : Z := Z.of_N (N_of_ascii c).

Definition py (s : string) : pystr := map ord (list_ascii_of_string s).

Fixpoint str_eqb (a b : pystr) : bool :=
  match a, b with
  | [], [] => true
  | x :: a', y :: b' => (x =? y) && str_eqb a' b'
  | _, _ => false
  end.

(** [s.startswith(p)] and [s.endswith(p)]. *)
Fixpoint startswith (s p : pystr) {struct p} : bool :=
  match p, s with
  | [], _ => true
  | y :: p', x :: s' => (x =? y) && startswith s' p'
  | _ :: _, [] => false
  end.

Definition endswith (s p : pystr) : bool := startswith (rev s) (rev p).

(** ** Decimal digits: [str(n)] and [int(s)] *)

Definition is_digit (c : Z) : bool := (48 <=? c) && (c <=? 57).

Definition digit_val (c : Z) : Z := c - 48.

(** Value of a run of digits read after the prefix value [acc]. *)
Definition digits_val (ds : pystr) (acc : Z) : Z :=
  fold_left (fun a c => 10 * a + digit_val c) ds acc.

Fixpoint nat_digits (fuel : nat) (n : Z) (acc : pystr) : pystr :=
  match fuel with
  | O => acc
  | S fuel' =>
      let acc' := (48 + n mod 10) :: acc in
      if n <? 10 then acc' else nat_digits fuel' (n / 10) acc'
  end.

(** Decimal digits of [n >= 0]; the fuel is the bit length of [n]. *)
Definition str_of_nat (n : Z) : pystr :=
  nat_digits (S (Z.to_nat (Z.log2 n))) n [].

(** [str(n)], which is also what an f-string does with an [int]. *)
Definition str_of_int (n : Z) : pystr :=
  if n <? 0 then 45 :: str_of_nat (- n) else str_of_nat n.

(** Python's white space among the code points below 256. *)
Definition is_space (c : Z) : bool :=
  ((9 <=? c) && (c <=? 13)) || ((28 <=? c) && (c <=? 32))
  || (c =? 133) || (c =? 160).

Fixpoint lstrip (s : pystr) : pystr :=
  match s with
  | c :: s' => if is_space c then lstrip s' else s
  | [] => []
  end.

Definition strip (s : pystr) : pystr := rev (lstrip (rev (lstrip s))).

(** The digits of an [int] literal: single underscores may separate digits. *)
Fixpoint int_digits (s : pystr) (acc : Z) (after_digit : bool) : option Z :=
  match s with
  | [] => if after_digit then Some acc else None
  | c :: s' =>
      if is_digit c then int_digits s' (10 * acc + digit_val c) true
      else if (c =? 95) && after_digit then int_digits s' acc false
      else None
  end.

(** [int(s)] for a [str] argument; [None] stands for [ValueError]. *)
Definition py_int (s : pystr) : option Z :=
  match strip s with
  | 45 :: ds => option_map Z.opp (int_digits ds 0 false)
  | 43 :: ds => int_digits ds 0 false
  | ds => int_digits ds 0 false
  end.

(** ** Exceptions and results *)

Inductive exn : Type :=
| ConnectionError
| HTTPError (status : Z)
| ValueError (msg : pystr)
| JSONDecodeError
| ParseError
| BadZipFile
| FileNotFoundError
| FileExistsError
| IsADirectoryError
| NotADirectoryError.

Inductive result (A : Type) : Type :=
| Return (a : A)
| Raise (e : exn).
Arguments Return {A} a.
Arguments Raise {A} e.

Definition bind {A B} (r : result A) (k : A -> result B) : result B :=
  match r with
  | Return a => k a
  | Raise e => Raise e
  end.

Notation "'do' x <- r ; k" := (bind r (fun x => k))
  (at level 10, x name, r at level 100, k at level 200).

(** ** The GitLab server, as seen through [requests.get] *)

Record job : Type := mk_job { job_name_of : pystr; job_id_of : Z }.

(** What [requests.get] hands back: a network fault, or a response with
    its status, its [X-Next-Page] header and its decoded body. *)
Record response (A : Type) : Type := mk_response {
  status_code : Z;
  x_next_page : option pystr;
  body : A
}.
Arguments mk_response {A}.
Arguments status_code {A}.
Arguments x_next_page {A}.
Arguments body {A}.

Inductive reply (A : Type) : Type :=
| Fault
| Answer (r : response A).
Arguments Fault {A}.
Arguments Answer {A} r.

(** [response.raise_for_status()]. *)
Definition raise_for_status {A} (r : response A) : result unit :=
  if (400 <=? status_code r) && (status_code r <? 600)
  then Raise (HTTPError (status_code r))
  else Return tt.

Definition not_found_msg (job_name : pystr) : pystr :=
  py "Job '" ++ job_name ++ py "' not found".

(** The message of [int(s)] for a text that is no number; the text stands
    as it is where Python prints its [repr]. *)
Definition invalid_literal_msg (s : pystr) : pystr :=
  py "invalid literal for int() with base 10: " ++ s.

(** The [for job in jobs] loop of [get_job_id]. *)
Fixpoint find_job (job_name : pystr) (jobs : list job) : option Z :=
  match jobs with
  | [] => None
  | j :: jobs' =>
      if str_eqb (job_name_of j) job_name then Some (job_id_of j)
      else find_job job_name jobs'
  end.

(** [if not next_page]: the header is absent or empty. *)
Definition falsy (h : option pystr) : bool :=
  match h with
  | None | Some [] => true
  | Some (_ :: _) => false
  end.

Definition header_text (h : option pystr) : pystr :=
  match h with Some s => s | None => [] end.

(** [PipelineArtifactFetcher.get_job_id], from the page [page] on.  The
    result comes with the pages requested, in order. *)
Fixpoint get_job_id_from (fuel : nat) (jobs_page : Z -> reply (list job))
    (job_name : pystr) (page : Z) : option (result Z * list Z) :=
  match fuel with
  | O => None
  | S fuel' =>
      match jobs_page page with
      | Fault => Some (Raise ConnectionError, [page])
      | Answer r =>
          match raise_for_status r with
          | Raise e => Some (Raise e, [page])
          | Return _ =>
              match find_job job_name (body r) with
              | Some id => Some (Return id, [page])
              | None =>
                  if falsy (x_next_page r)
                  then Some (Raise (ValueError (not_found_msg job_name)), [page])
                  else
                    match py_int (header_text (x_next_page r)) with
                    | None =>
                        Some (Raise (ValueError
                                (invalid_literal_msg (header_text (x_next_page r)))),
                              [page])
                    | Some next =>
                        match get_job_id_from fuel' jobs_page job_name next with
                        | None => None
                        | Some (res, pages) => Some (res, page :: pages)
                        end
                    end
              end
          end
      end
  end.

Definition get_job_id (fuel : nat) (jobs_page : Z -> reply (list job))
    (job_name : pystr) : option (result Z * list Z) :=
  get_job_id_from fuel jobs_page job_name 1.

(** A server that serves the job listing [pages] the way GitLab does: page
    [p] (counted from 1) answers 200 with the jobs of that page, and the
    [X-Next-Page] header names page [p + 1], or is empty on the last page. *)
Definition listing_server (pages : list (list job)) (page : Z)
  : reply (list job) :=
  Answer {| status_code := 200;
            x_next_page :=
              Some (if page <? Z.of_nat (length pages)
                    then str_of_int (page + 1) else []);
            body := nth (Z.to_nat (page - 1)) pages [] |}.

(** The pages [first, first + 1, ..., first + n - 1]. *)
Fixpoint page_range (first : Z) (n : nat) : list Z :=
  match n with
  | O => []
  | S n' => first :: page_range (first + 1) n'
  end.


(** ** [json]: the values of [json.load], [json.dumps(indent=2)] and [json.loads]

    A [float] is carried as the text [json.dumps] writes for it (its [repr],
    or [NaN], [Infinity], [-Infinity]); a [dict] is the list of its items
    in insertion order. *)

#[warnings="-register-all"]
Inductive json : Type :=
| JNull
| JBool (b : bool)
| JInt (n : Z)
| JFloat (text : pystr)
| JStr (s : pystr)
| JList (items : list json)
| JDict (items : list (pystr * json)).

(** [sep.join(parts)]. *)
Fixpoint join (sep : pystr) (parts : list pystr) : pystr :=
  match parts with
  | [] => []
  | x :: rest =>
      match rest with
      | [] => x
      | _ :: _ => x ++ sep ++ join sep rest
      end
  end.

(** [s.split(sep)] for a one-character separator. *)
Fixpoint split (sep : Z) (s : pystr) : list pystr :=
  match s with
  | [] => [[]]
  | c :: s' =>
      if c =? sep then [] :: split sep s'
      else match split sep s' with
           | part :: parts => (c :: part) :: parts
           | [] => [[c]]
           end
  end.

(** *** The encoder ([ensure_ascii=True], [indent=2]) *)

Definition hex_digit (n : Z) : Z := if n <? 10 then 48 + n else 87 + n.

(** ['{0:04x}'.format(n)] for [0 <= n < 0x10000]. *)
Definition hex4 (n : Z) : pystr :=
  [hex_digit (n / 4096 mod 16); hex_digit (n / 256 mod 16);
   hex_digit (n / 16 mod 16); hex_digit (n mod 16)].

(** The replacement of one code point in [py_encode_basestring_ascii]. *)
Definition escape_char (c : Z) : pystr :=
  if c =? 92 then [92; 92]
  else if c =? 34 then [92; 34]
  else if (32 <=? c) && (c <=? 126) then [c]
  else if c =? 8 then [92; 98]
  else if c =? 12 then [92; 102]
  else if c =? 10 then [92; 110]
  else if c =? 13 then [92; 114]
  else if c =? 9 then [92; 116]
  else if c <? 65536 then 92 :: 117 :: hex4 c
  else
    let n := c - 65536 in
    let s1 := Z.lor 55296 (Z.land (Z.shiftr n 10) 1023) in
    let s2 := Z.lor 56320 (Z.land n 1023) in
    (92 :: 117 :: hex4 s1) ++ (92 :: 117 :: hex4 s2).

Definition encode_string (s : pystr) : pystr :=
  34 :: flat_map escape_char s ++ [34].

Definition newline_indent (level : nat) : pystr := 10 :: repeat 32 (2 * level).

(** [_iterencode] at nesting depth [level]. *)
Fixpoint encode (level : nat) (v : json) {struct v} : pystr :=
  match v with
  | JNull => py "null"
  | JBool b => if b then py "true" else py "false"
  | JInt n => str_of_int n
  | JFloat text => text
  | JStr s => encode_string s
  | JList items =>
      match items with
      | [] => py "[]"
      | _ :: _ =>
          py "[" ++ newline_indent (S level)
            ++ join (py "," ++ newline_indent (S level))
                    (map (encode (S level)) items)
            ++ newline_indent level ++ py "]"
      end
  | JDict items =>
      match items with
      | [] => py "{}"
      | _ :: _ =>
          py "{" ++ newline_indent (S level)
            ++ join (py "," ++ newline_indent (S level))
                    (map (fun kv => encode_string (fst kv) ++ py ": "
                                      ++ encode (S level) (snd kv)) items)
            ++ newline_indent level ++ py "}"
      end
  end.

(** [json.dumps(json_data, indent=2)]. *)
Definition dumps (v : json) : pystr := encode 0 v.

(** *** The decoder *)

Definition is_ws (c : Z) : bool :=
  (c =? 32) || (c =? 9) || (c =? 10) || (c =? 13).

Fixpoint skip_ws (s : pystr) : pystr :=
  match s with
  | c :: s' => if is_ws c then skip_ws s' else s
  | [] => []
  end.

Definition hex_val (c : Z) : option Z :=
  if (48 <=? c) && (c <=? 57) then Some (c - 48)
  else if (97 <=? c) && (c <=? 102) then Some (c - 87)
  else if (65 <=? c) && (c <=? 70) then Some (c - 55)
  else None.

Definition hex4_val (a b c d : Z) : option Z :=
  match hex_val a, hex_val b, hex_val c, hex_val d with
  | Some x, Some y, Some z, Some w => Some (((x * 16 + y) * 16 + z) * 16 + w)
  | _, _, _, _ => None
  end.

Definition is_high_surrogate (c : Z) : bool := (55296 <=? c) && (c <=? 56319).
Definition is_low_surrogate (c : Z) : bool := (56320 <=? c) && (c <=? 57343).

Definition join_surrogates (hi lo : Z) : Z :=
  65536 + Z.lor (Z.shiftl (hi - 55296) 10) (lo - 56320).

(** The one-letter escapes of [BACKSLASH]. *)
Definition unescape (e : Z) : option Z :=
  if e =? 34 then Some 34
  else if e =? 92 then Some 92
  else if e =? 47 then Some 47
  else if e =? 98 then Some 8
  else if e =? 102 then Some 12
  else if e =? 110 then Some 10
  else if e =? 114 then Some 13
  else if e =? 116 then Some 9
  else None.

Definition prepend {A B : Type} (x : A) (r : option (list A * B))
  : option (list A * B) :=
  match r with
  | Some (xs, rest) => Some (x :: xs, rest)
  | None => None
  end.

(** [scanstring] in strict mode, from just after the opening quote: the
    string and the text after its closing quote. *)
Fixpoint scanstring (s : pystr) : option (pystr * pystr) :=
  match s with
  | [] => None
  | c :: s1 =>
      if c =? 34 then Some ([], s1)
      else if c =? 92 then
        match s1 with
        | [] => None
        | e :: s2 =>
            if e =? 117 then
              match s2 with
              | h1 :: h2 :: h3 :: h4 :: s3 =>
                  match hex4_val h1 h2 h3 h4 with
                  | None => None
                  | Some uni =>
                      if is_high_surrogate uni then
                        match s3 with
                        | b :: u :: g1 :: g2 :: g3 :: g4 :: s4 =>
                            if (b =? 92) && (u =? 117) then
                              match hex4_val g1 g2 g3 g4 with
                              | None => None
                              | Some uni2 =>
                                  if is_low_surrogate uni2
                                  then prepend (join_surrogates uni uni2)
                                               (scanstring s4)
                                  else prepend uni (scanstring s3)
                              end
                            else prepend uni (scanstring s3)
                        | _ => prepend uni (scanstring s3)
                        end
                      else prepend uni (scanstring s3)
                  end
              | _ => None
              end
            else
              match unescape e with
              | Some c' => prepend c' (scanstring s2)
              | None => None
              end
        end
      else if c <? 32 then None
      else prepend c (scanstring s1)
  end.

Fixpoint span_digits (s : pystr) : pystr * pystr :=
  match s with
  | c :: s' =>
      if is_digit c
      then let (ds, rest) := span_digits s' in (c :: ds, rest)
      else ([], s)
  | [] => ([], [])
  end.

(** *** Floats: [float(text)] and the text [json.dumps] writes for it *)

(** A float of Python: a zero, an infinity, or [m * 2^e] with the mantissa
    [m] below [2^53], and of 53 bits unless [e] is the least exponent. *)
Inductive double : Type :=
| DZero
| DInf
| DFinite (m e : Z).

(** [num / den * 2^(-e)] as a fraction. *)
Definition scaled (num den e : Z) : Z * Z :=
  if 0 <=? e then (num, den * 2 ^ e) else (num * 2 ^ (- e), den).

(** The double nearest to [num / den] (both positive), ties to the even
    mantissa, as [strtod] rounds. *)
Definition round_to_double (num den : Z) : double :=
  let e1 := Z.log2 num - Z.log2 den - 52 in
  let e2 := if (fst (scaled num den e1) / snd (scaled num den e1)) <? 2 ^ 52
            then e1 - 1 else e1 in
  let e := Z.max e2 (-1074) in
  let (n, d) := scaled num den e in
  let q := n / d in
  let r := n mod d in
  let m := if (d <? 2 * r) || ((d =? 2 * r) && Z.odd q) then q + 1 else q in
  let (m', e') := if m =? 2 ^ 53 then (2 ^ 52, e + 1) else (m, e) in
  if m' =? 0 then DZero
  else if 971 <? e' then DInf
  else DFinite m' e'.

(** [digits * 10^exp10] as a double; [ndigits] bounds the number of digits
    of [digits]. *)
Definition decimal_to_double (digits exp10 ndigits : Z) : double :=
  if digits =? 0 then DZero
  else if 310 <? exp10 then DInf
  else if ndigits + exp10 <? -330 then DZero
  else if 0 <=? exp10 then round_to_double (digits * 10 ^ exp10) 1
  else round_to_double digits (10 ^ (- exp10)).

Definition double_eqb (a b : double) : bool :=
  match a, b with
  | DZero, DZero | DInf, DInf => true
  | DFinite m e, DFinite m' e' => (m =? m') && (e =? e')
  | _, _ => false
  end.

(** Whether [xn / xd < 10^k]. *)
Definition below_pow10 (xn xd k : Z) : bool :=
  if 0 <=? k then xn <? 10 ^ k * xd else xn * 10 ^ (- k) <? xd.

(** The decimal point of [xn / xd]: the [n] with
    [10^(n-1) <= xn / xd < 10^n], near the guess [n]. *)
Fixpoint decimal_point (fuel : nat) (xn xd n : Z) : Z :=
  match fuel with
  | O => n
  | S fuel' =>
      if negb (below_pow10 xn xd n) then decimal_point fuel' xn xd (n + 1)
      else if below_pow10 xn xd (n - 1) then decimal_point fuel' xn xd (n - 1)
      else n
  end.

(** The decimal of at most [k] digits that [repr] would take for the double
    [m * 2^e], if there is one: a neighbour [c * 10^(n-k)] of the value
    that reads back as the same double, the nearer of the two when both
    do. *)
Definition short_digits (m e n k : Z) : option Z :=
  let (xn, xd) := scaled m 1 (- e) in
  let s := n - k in
  let lo := if 0 <=? s then xn / (xd * 10 ^ s) else (xn * 10 ^ (- s)) / xd in
  let hi := lo + 1 in
  let reads_back c :=
    (0 <? c) && double_eqb (decimal_to_double c s (k + 1)) (DFinite m e) in
  let nearer_lo :=
    if 0 <=? s then 2 * xn <? (2 * lo + 1) * 10 ^ s * xd
    else 2 * xn * 10 ^ (- s) <? (2 * lo + 1) * xd in
  match reads_back lo, reads_back hi with
  | true, true => Some (if nearer_lo then lo else hi)
  | true, false => Some lo
  | false, true => Some hi
  | false, false => None
  end.

(** The shortest such decimal, trying 1, 2, ... digits, with the exponent
    of its last digit. *)
Fixpoint shortest (fuel : nat) (m e n k : Z) : Z * Z :=
  match fuel with
  | O => (m, 0)
  | S fuel' =>
      match short_digits m e n k with
      | Some c => (c, n - k)
      | None => shortest fuel' m e n (k + 1)
      end
  end.

Fixpoint strip_zeros (r : pystr) (s : Z) : pystr * Z :=
  match r with
  | c :: r' => if (c =? 48) && negb (match r' with [] => true | _ => false end)
               then strip_zeros r' (s + 1) else (r, s)
  | [] => ([], s)
  end.

(** [float_repr_style = 'short']: the digits [ds] with the decimal point
    after [n] of them, in positional notation when [-4 < n <= 16] and with
    an exponent otherwise. *)
Definition format_repr (ds : pystr) (n : Z) : pystr :=
  let len := Z.of_nat (length ds) in
  if (n <=? -4) || (16 <? n) then
    let x := n - 1 in
    let mant := match ds with
                | d :: (_ :: _) as rest => d :: 46 :: rest
                | _ => ds
                end in
    let xs := str_of_nat (Z.abs x) in
    mant ++ [101; if x <? 0 then 45 else 43]
         ++ (match xs with [_] => 48 :: xs | _ => xs end)
  else if n <=? 0 then
    [48; 46] ++ repeat 48 (Z.to_nat (- n)) ++ ds
  else if len <=? n then
    ds ++ repeat 48 (Z.to_nat (n - len)) ++ [46; 48]
  else
    firstn (Z.to_nat n) ds ++ 46 :: skipn (Z.to_nat n) ds.

(** [float.__repr__], as [json.dumps] uses it, with [Infinity] for an
    infinity. *)
Definition double_text (negative : bool) (x : double) : pystr :=
  (if negative then [45] else [])
  ++ match x with
     | DZero => [48; 46; 48]
     | DInf => py "Infinity"
     | DFinite m e =>
         let (xn, xd) := scaled m 1 (- e) in
         let guess := (Z.log2 m + e) * 30103 / 100000 + 1 in
         let n := decimal_point 4 xn xd guess in
         let (c, s) := shortest 17 m e n 1 in
         let (r, s') := strip_zeros (rev (str_of_nat c)) s in
         format_repr (rev r) (Z.of_nat (length r) + s')
     end.

(** The exponent of a float literal: what follows [e] or [E]. *)
Definition exponent_val (ex : pystr) : Z :=
  match ex with
  | _ :: 45 :: ds => - digits_val ds 0
  | _ :: 43 :: ds => digits_val ds 0
  | _ :: ds => digits_val ds 0
  | [] => 0
  end.

(** What [json.dumps] writes for [float(text)], for a literal of the parts
    [sg] (sign), [ip] (integer part), [fr] (fraction with its dot) and [ex]
    (exponent with its letter). *)
Definition float_text (sg ip fr ex : pystr) : pystr :=
  let frac := tl fr in
  let digits := ip ++ frac in
  double_text (match sg with [] => false | _ :: _ => true end)
    (decimal_to_double (digits_val digits 0)
                       (exponent_val ex - Z.of_nat (length frac))
                       (Z.of_nat (length digits))).

(** The three groups of [NUMBER_RE]: the integer part (an optional minus
    sign, then a single zero or a digit run that starts with a nonzero
    digit), the optional fraction (a dot and at least one digit) and the
    optional exponent (e or E, an optional sign, at least one digit). *)
Definition scan_sign (s : pystr) : pystr * pystr :=
  match s with
  | c :: s' => if c =? 45 then ([45], s') else ([], s)
  | [] => ([], [])
  end.

Definition scan_intpart (s : pystr) : option (pystr * pystr) :=
  match s with
  | c :: s' =>
      if c =? 48 then Some ([48], s')
      else if is_digit c then Some (span_digits s)
      else None
  | [] => None
  end.

Definition scan_frac (s : pystr) : pystr * pystr :=
  match s with
  | c :: s' =>
      if c =? 46 then
        match span_digits s' with
        | ([], _) => ([], s)
        | (ds, rest) => (c :: ds, rest)
        end
      else ([], s)
  | [] => ([], [])
  end.

Definition scan_exp (s : pystr) : pystr * pystr :=
  match s with
  | c :: s' =>
      if (c =? 101) || (c =? 69) then
        let (sg, s'') :=
          match s' with
          | d :: t => if (d =? 45) || (d =? 43) then ([d], t) else ([], s')
          | [] => ([], s')
          end in
        match span_digits s'' with
        | ([], _) => ([], s)
        | (ds, rest) => (c :: sg ++ ds, rest)
        end
      else ([], s)
  | [] => ([], [])
  end.

(** A match of [NUMBER_RE] at the start of [s]: an [int] when there is
    neither fraction nor exponent, a [float] otherwise; a [float] is kept as
    the text that [json.dumps] writes for it. *)
Definition scan_number (s : pystr) : option (json * pystr) :=
  let (sg, s1) := scan_sign s in
  match scan_intpart s1 with
  | None => None
  | Some (ip, s2) =>
      let (fr, s3) := scan_frac s2 in
      let (ex, s4) := scan_exp s3 in
      match fr, ex with
      | [], [] =>
          Some (JInt (match sg with
                      | [] => digits_val ip 0
                      | _ :: _ => - digits_val ip 0
                      end), s4)
      | _, _ => Some (JFloat (float_text sg ip fr ex), s4)
      end
  end.

(** [d[k] = v] on a [dict]: a known key keeps its place. *)
Fixpoint dict_set (k : pystr) (v : json) (d : list (pystr * json))
  : list (pystr * json) :=
  match d with
  | [] => [(k, v)]
  | (k', v') :: d' =>
      if str_eqb k' k then (k', v) :: d' else (k', v') :: dict_set k v d'
  end.

(** [dict(pairs)]. *)
Definition dict_of_pairs (pairs : list (pystr * json)) : list (pystr * json) :=
  fold_left (fun d kv => dict_set (fst kv) (snd kv) d) pairs [].

(** [int(text)] refuses a literal of more than 4300 digits. *)
Definition int_limit_msg (ndigits : nat) : pystr :=
  py "Exceeds the limit (4300 digits) for integer string conversion: value has "
  ++ str_of_nat (Z.of_nat ndigits)
  ++ py " digits; use sys.set_int_max_str_digits() to increase the limit".

(** The number of digits of the [int] literal at the start of [s], when
    [NUMBER_RE] matches one there that is too long. *)
Definition int_too_long (s : pystr) : option nat :=
  match scan_intpart (snd (scan_sign s)) with
  | Some (ip, s2) =>
      match fst (scan_frac s2), fst (scan_exp (snd (scan_frac s2))) with
      | [], [] => if (4300 <? length ip)%nat then Some (length ip) else None
      | _, _ => None
      end
  | None => None
  end.

Definition rprepend {A B : Type} (x : A) (r : result (list A * B))
  : result (list A * B) :=
  match r with
  | Return (xs, rest) => Return (x :: xs, rest)
  | Raise e => Raise e
  end.

(** [scan_once], with the loops of [JSONArray] and [JSONObject].
    [array_items] starts at a value; [object_items] starts just after the
    opening quote of a key. *)
Fixpoint scan_once (fuel : nat) (s : pystr) {struct fuel}
  : result (json * pystr) :=
  match fuel with
  | O => Raise JSONDecodeError
  | S fuel' =>
      match s with
      | [] => Raise JSONDecodeError
      | c :: s1 =>
          if c =? 34 then
            match scanstring s1 with
            | Some (str, rest) => Return (JStr str, rest)
            | None => Raise JSONDecodeError
            end
          else if c =? 123 then
            match skip_ws s1 with
            | d :: s2 =>
                if d =? 125 then Return (JDict [], s2)
                else if d =? 34 then
                  match object_items fuel' s2 with
                  | Return (pairs, rest) => Return (JDict (dict_of_pairs pairs), rest)
                  | Raise e => Raise e
                  end
                else Raise JSONDecodeError
            | [] => Raise JSONDecodeError
            end
          else if c =? 91 then
            match skip_ws s1 with
            | d :: s2 =>
                if d =? 93 then Return (JList [], s2)
                else
                  match array_items fuel' (d :: s2) with
                  | Return (values, rest) => Return (JList values, rest)
                  | Raise e => Raise e
                  end
            | [] => Raise JSONDecodeError
            end
          else if startswith s (py "null") then Return (JNull, skipn 4 s)
          else if startswith s (py "true") then Return (JBool true, skipn 4 s)
          else if startswith s (py "false") then Return (JBool false, skipn 5 s)
          else
            match scan_number s with
            | Some r =>
                match int_too_long s with
                | Some n => Raise (ValueError (int_limit_msg n))
                | None => Return r
                end
            | None =>
                if startswith s (py "NaN")
                then Return (JFloat (py "NaN"), skipn 3 s)
                else if startswith s (py "Infinity")
                then Return (JFloat (py "Infinity"), skipn 8 s)
                else if startswith s (py "-Infinity")
                then Return (JFloat (py "-Infinity"), skipn 9 s)
                else Raise JSONDecodeError
            end
      end
  end
with array_items (fuel : nat) (s : pystr) {struct fuel}
  : result (list json * pystr) :=
  match fuel with
  | O => Raise JSONDecodeError
  | S fuel' =>
      match scan_once fuel' s with
      | Raise e => Raise e
      | Return (v, s1) =>
          match skip_ws s1 with
          | c :: s2 =>
              if c =? 93 then Return ([v], s2)
              else if c =? 44 then rprepend v (array_items fuel' (skip_ws s2))
              else Raise JSONDecodeError
          | [] => Raise JSONDecodeError
          end
      end
  end
with object_items (fuel : nat) (s : pystr) {struct fuel}
  : result (list (pystr * json) * pystr) :=
  match fuel with
  | O => Raise JSONDecodeError
  | S fuel' =>
      match scanstring s with
      | None => Raise JSONDecodeError
      | Some (key, s1) =>
          match skip_ws s1 with
          | c :: s2 =>
              if c =? 58 then
                match scan_once fuel' (skip_ws s2) with
                | Raise e => Raise e
                | Return (v, s3) =>
                    match skip_ws s3 with
                    | d :: s4 =>
                        if d =? 125 then Return ([(key, v)], s4)
                        else if d =? 44 then
                          match skip_ws s4 with
                          | q :: s5 =>
                              if q =? 34
                              then rprepend (key, v) (object_items fuel' s5)
                              else Raise JSONDecodeError
                          | [] => Raise JSONDecodeError
                          end
                        else Raise JSONDecodeError
                    | [] => Raise JSONDecodeError
                    end
                end
              else Raise JSONDecodeError
          | [] => Raise JSONDecodeError
          end
      end
  end.

(** [json.loads(s)]: the value, or the exception ([JSONDecodeError], or the
    [ValueError] of an [int] literal that is too long).  Every call of the
    decoder consumes input, so twice the length of [s] is fuel enough.  The
    recursion limit of the interpreter, which stops the decoder with
    [RecursionError] on a text nested about a thousand deep, is left out. *)
Definition json_loads (s : pystr) : result json :=
  if startswith s [65279] then Raise JSONDecodeError
  else
    match scan_once (S (2 * length s)) (skip_ws s) with
    | Return (v, rest) =>
        match skip_ws rest with
        | [] => Return v
        | _ :: _ => Raise JSONDecodeError
        end
    | Raise e => Raise e
    end.

(** *** The values [json.load] can return *)

(** Code points in range, and no high surrogate directly before a low one
    (the decoder joins such a pair into one code point). *)
Fixpoint str_ok (s : pystr) : bool :=
  match s with
  | [] => true
  | c :: s' =>
      (0 <=? c) && (c <=? 1114111)
      && negb (is_high_surrogate c
               && match s' with d :: _ => is_low_surrogate d | [] => false end)
      && str_ok s'
  end.

(** An [int] whose decimal text [int(text)] accepts. *)
Definition int_ok (n : Z) : bool :=
  (length (str_of_nat (Z.abs n)) <=? 4300)%nat.

(** The text of a [float] as [json.dumps] writes it: one of the three
    constants, or a number with a fraction or an exponent that reads back
    as the same text. *)
Definition float_ok (text : pystr) : bool :=
  str_eqb text (py "NaN") || str_eqb text (py "Infinity")
  || str_eqb text (py "-Infinity")
  || match scan_number text with
     | Some (JFloat text', []) => str_eqb text' text
     | _ => false
     end.

Fixpoint distinct (keys : list pystr) : bool :=
  match keys with
  | [] => true
  | k :: keys' => negb (existsb (str_eqb k) keys') && distinct keys'
  end.

Fixpoint json_ok (v : json) {struct v} : bool :=
  match v with
  | JNull | JBool _ => true
  | JInt n => int_ok n
  | JFloat text => float_ok text
  | JStr s => str_ok s
  | JList items => forallb json_ok items
  | JDict items =>
      distinct (map fst items)
      && forallb (fun kv => str_ok (fst kv) && json_ok (snd kv)) items
  end.

(** Key order and nesting depth of a value. *)
Fixpoint key_order (v : json) {struct v} : list pystr :=
  match v with
  | JList items => flat_map key_order items
  | JDict items => flat_map (fun kv => fst kv :: key_order (snd kv)) items
  | _ => []
  end.

Fixpoint depth (v : json) {struct v} : nat :=
  match v with
  | JList items => S (fold_right Nat.max O (map depth items))
  | JDict items => S (fold_right Nat.max O (map (fun kv => depth (snd kv)) items))
  | _ => O
  end.

(** ** [html.escape] *)

Definition html_escape_char (c : Z) : pystr :=
  if c =? 38 then py "&amp;"
  else if c =? 60 then py "&lt;"
  else if c =? 62 then py "&gt;"
  else if c =? 34 then py "&quot;"
  else if c =? 39 then py "&#x27;"
  else [c].

Definition html_escape (s : pystr) : pystr := flat_map html_escape_char s.

(** ** The PDF text of a JSON file *)

Fixpoint leading_spaces (line : pystr) : nat :=
  match line with
  | c :: line' => if c =? 32 then S (leading_spaces line') else O
  | [] => O
  end.

(** The body of the [for line in json_str.split('\n')] loop of
    [json_to_pdf]: the text handed to [Paragraph]. *)
Definition nbsp_line (line : pystr) : pystr :=
  let n := leading_spaces line in
  if (0 <? n)%nat then concat (repeat (py "&nbsp;") n) ++ skipn n line
  else line.

Definition json_paragraphs (v : json) : list pystr :=
  map nbsp_line (split 10 (dumps v)).

(** Reading a paragraph back: every leading [&nbsp;] is a space again. *)
Fixpoint un_nbsp (line : pystr) : pystr :=
  match line with
  | a :: b :: c :: d :: e :: f :: rest =>
      if str_eqb [a; b; c; d; e; f] (py "&nbsp;") then 32 :: un_nbsp rest
      else line
  | _ => line
  end.

(** The paragraphs of a document as one text, parsed as JSON. *)
Definition parse_paragraphs (paragraphs : list pystr) : result json :=
  json_loads (join [10] (map un_nbsp paragraphs)).

(** ** Files and directories *)

#[warnings="-register-all"]
Inductive file_data : Type :=
| Text (text : pystr)
| PdfDoc (title : pystr) (paragraphs : list pystr)
| ZipArchive (members : list (pystr * file_data)).

#[warnings="-register-all"]
Inductive node : Type :=
| File (d : file_data)
| Dir (entries : list (pystr * node)).

(** The entries of a directory, in the order the system lists them. *)
Definition dir : Type := list (pystr * node).

Definition path : Type := list pystr.

Fixpoint get_entry (name : pystr) (es : dir) : option node :=
  match es with
  | [] => None
  | (n, x) :: es' => if str_eqb n name then Some x else get_entry name es'
  end.

(** A new entry goes last; an entry that exists keeps its place. *)
Fixpoint put_entry (name : pystr) (x : node) (es : dir) : dir :=
  match es with
  | [] => [(name, x)]
  | (n, y) :: es' =>
      if str_eqb n name then (n, x) :: es' else (n, y) :: put_entry name x es'
  end.

Definition del_entry (name : pystr) (es : dir) : dir :=
  filter (fun e => negb (str_eqb (fst e) name)) es.

Definition set_entry (name : pystr) (o : option node) (es : dir) : dir :=
  match o with
  | Some x => put_entry name x es
  | None => del_entry name es
  end.

Fixpoint lookup (p : path) (n : node) : option node :=
  match p with
  | [] => Some n
  | name :: p' =>
      match n with
      | Dir es =>
          match get_entry name es with
          | Some x => lookup p' x
          | None => None
          end
      | File _ => None
      end
  end.

(** Change what is at path [p]: [f] maps what is there ([None] when there
    is nothing) to what shall be there.  The parent must be a directory. *)
Fixpoint update (p : path) (f : option node -> result (option node))
    (es : dir) : result dir :=
  match p with
  | [] => Raise IsADirectoryError
  | name :: p' =>
      match p' with
      | [] => do o <- f (get_entry name es); Return (set_entry name o es)
      | _ :: _ =>
          match get_entry name es with
          | Some (Dir sub) =>
              do sub' <- update p' f sub;
              Return (put_entry name (Dir sub') es)
          | Some (File _) => Raise NotADirectoryError
          | None => Raise FileNotFoundError
          end
      end
  end.

(** [open(p, 'wb')] followed by writing [d]. *)
Definition write_at (d : file_data) (o : option node) : result (option node) :=
  match o with
  | Some (Dir _) => Raise IsADirectoryError
  | _ => Return (Some (File d))
  end.

(** [os.mkdir(p)]. *)
Definition mkdir_at (o : option node) : result (option node) :=
  match o with
  | None => Return (Some (Dir []))
  | Some _ => Raise FileExistsError
  end.

(** [shutil.rmtree(p)]. *)
Definition rmtree_at (o : option node) : result (option node) :=
  match o with
  | Some (Dir _) => Return None
  | Some (File _) => Raise NotADirectoryError
  | None => Raise FileNotFoundError
  end.

(** [os.walk(top)], top-down: the files of a directory, then its
    subdirectories in turn.  Each file comes with the directory it is in. *)
Fixpoint walk (root : path) (n : node) {struct n}
  : list (path * pystr * file_data) :=
  match n with
  | File _ => []
  | Dir es =>
      flat_map (fun e => match snd e with
                         | File d => [(root, fst e, d)]
                         | Dir _ => []
                         end) es
      ++ flat_map (fun e => walk (root ++ [fst e]) (snd e)) es
  end.

(** [s.lower()] on the letters A-Z; this decides [endswith('.pdf')] as
    the full Unicode mapping does. *)
Definition lower (s : pystr) : pystr :=
  map (fun c => if (65 <=? c) && (c <=? 90) then c + 32 else c) s.

(** [os.path.splitext(name)[0]]: the name up to its last dot, unless only
    dots come before that dot. *)
Fixpoint after_dot (r : pystr) : option pystr :=
  match r with
  | [] => None
  | c :: r' => if c =? 46 then Some r' else after_dot r'
  end.

Definition splitext_root (name : pystr) : pystr :=
  match after_dot (rev name) with
  | None => name
  | Some r =>
      if forallb (Z.eqb 46) r then name else rev r
  end.

(** ** The world the script runs in *)

Inductive request : Type :=
| ListJobs (project_id pipeline_id page : Z)
| GetArtifacts (project_id job_id : Z).

(** What the script prints. *)
Inductive message : Type :=
| Downloaded (job_name zip_path : pystr)
| XmlParsingError
| XmlFailed (e : exn)
| NoPdfFound
| Zipped (zip_path : path)
| JobFailed (job_name : pystr) (e : exn)
| UsageError.

(** [cwd] holds the regular files the script writes into its working
    directory, by name; [tree] is the content of [--output-dir], and paths
    are relative to it; [requests] are the calls made to the server. *)
Record world : Type := mk_world {
  cwd : pystr -> option file_data;
  tree : dir;
  stdout : list message;
  requests : list request
}.

Record server : Type := mk_server {
  jobs_page : Z -> Z -> Z -> reply (list job);
  artifacts : Z -> Z -> reply file_data
}.

(** The calls into [xml.etree.ElementTree] and [reportlab]: the tree of
    an XML text ([None] for [ParseError]), its serialisation, and whether
    [Paragraph] accepts a markup text. *)
Class Libraries : Type := {
  etree : Type;
  ET_parse : pystr -> option etree;
  ET_tostring : etree -> pystr;
  paragraph_ok : pystr -> bool
}.

(** Statements that act on the world and may raise. *)
Definition M (A : Type) : Type := world -> result A * world.

Definition ret {A} (a : A) : M A := fun w => (Return a, w).

Definition raise {A} (e : exn) : M A := fun w => (Raise e, w).

Definition mbind {A B} (m : M A) (k : A -> M B) : M B :=
  fun w =>
    match m w with
    | (Return a, w') => k a w'
    | (Raise e, w') => (Raise e, w')
    end.

Notation "x <- m ;; k" := (mbind m (fun x => k))
  (at level 61, m at next level, right associativity).
Notation "m ;; k" := (mbind m (fun _ => k))
  (at level 61, right associativity).

Fixpoint for_each {A} (xs : list A) (body : A -> M unit) : M unit :=
  match xs with
  | [] => ret tt
  | x :: xs' => body x ;; for_each xs' body
  end.

Definition print (m : message) : M unit :=
  fun w => (Return tt, mk_world (cwd w) (tree w) (stdout w ++ [m]) (requests w)).

Definition send (r : request) : M unit :=
  fun w => (Return tt, mk_world (cwd w) (tree w) (stdout w) (requests w ++ [r])).

Definition set_cwd_file (name : pystr) (o : option file_data) : M unit :=
  fun w =>
    (Return tt,
     mk_world (fun n => if str_eqb n name then o else cwd w n)
              (tree w) (stdout w) (requests w)).

Definition get_cwd_file (name : pystr) : M (option file_data) :=
  fun w => (Return (cwd w name), w).

Definition tree_lookup (p : path) : M (option node) :=
  fun w => (Return (lookup p (Dir (tree w))), w).

Definition tree_update (p : path) (f : option node -> result (option node))
  : M unit :=
  fun w =>
    match update p f (tree w) with
    | Return es => (Return tt, mk_world (cwd w) es (stdout w) (requests w))
    | Raise e => (Raise e, w)
    end.

Definition path_exists (p : path) : M bool :=
  o <- tree_lookup p ;; ret (match o with Some _ => true | None => false end).

Definition isdir (p : path) : M bool :=
  o <- tree_lookup p ;;
  ret (match o with Some (Dir _) => true | _ => false end).

(** [os.makedirs(p)]: the missing ancestors first, then [p] itself. *)
Fixpoint ancestors (p : path) : list path :=
  match p with
  | [] => []
  | name :: p' =>
      match p' with
      | [] => []
      | _ :: _ => [name] :: map (cons name) (ancestors p')
      end
  end.

Definition makedirs (p : path) : M unit :=
  for_each (ancestors p)
    (fun q => e <- path_exists q ;; if e then ret tt else tree_update q mkdir_at) ;;
  tree_update p mkdir_at.

(** [os.listdir(p)]. *)
Definition listdir (p : path) : M (list pystr) :=
  o <- tree_lookup p ;;
  match o with
  | Some (Dir es) => ret (map fst es)
  | Some (File _) => raise NotADirectoryError
  | None => raise FileNotFoundError
  end.

(** ** [PipelineArtifactFetcher.download_artifact] *)

Definition artifact_filename (job_id : Z) : pystr :=
  py "job_" ++ str_of_int job_id ++ py "_artifacts.zip".

Definition download_artifact (srv : server) (project_id job_id : Z) : M pystr :=
  send (GetArtifacts project_id job_id) ;;
  match artifacts srv project_id job_id with
  | Fault => raise ConnectionError
  | Answer r =>
      match raise_for_status r with
      | Raise e => raise e
      | Return _ =>
          let output_filename := artifact_filename job_id in
          set_cwd_file output_filename (Some (body r)) ;;
          ret output_filename
      end
  end.

(** ** [clean_output_dir] *)

Definition clean_output_dir (output_dir : path) : M unit :=
  e <- path_exists output_dir ;;
  if e then tree_update output_dir rmtree_at else ret tt.

(** ** [unzip_to_dir] *)

(** The path a member is extracted to, below the target directory: the
    parts of its name between slashes, without empty parts and dots. *)
Definition member_path (name : pystr) : path :=
  filter (fun part => negb (str_eqb part [] || str_eqb part [46]
                            || str_eqb part [46; 46]))
         (split 47 name).

(** [ZipFile.extract] of one member; a name that ends in a slash is a
    directory. *)
Definition extract_member (extract_dir : path) (m : pystr * file_data) : M unit :=
  let target := extract_dir ++ member_path (fst m) in
  let upperdirs := removelast target in
  e <- path_exists upperdirs ;;
  (if e then ret tt else makedirs upperdirs) ;;
  if endswith (fst m) [47] then
    d <- isdir target ;;
    if d then ret tt else tree_update target mkdir_at
  else tree_update target (write_at (snd m)).

Definition unzip_to_dir (zip_path : pystr) (extract_dir : path) : M path :=
  e <- path_exists extract_dir ;;
  (if e then ret tt else makedirs extract_dir) ;;
  f <- get_cwd_file zip_path ;;
  match f with
  | None => raise FileNotFoundError
  | Some (ZipArchive members) =>
      for_each members (extract_member extract_dir) ;;
      set_cwd_file zip_path None ;;
      ret extract_dir
  | Some _ => raise BadZipFile
  end.

(** ** [json_to_pdf] and [xml_to_pdf] *)

(** [open(p, 'r')] and reading the text; a PDF or an archive holds no text
    that parses. *)
Definition read_text (p : path) : M (option pystr) :=
  o <- tree_lookup p ;;
  match o with
  | None => raise FileNotFoundError
  | Some (Dir _) => raise IsADirectoryError
  | Some (File (Text t)) => ret (Some t)
  | Some (File _) => ret None
  end.

Definition basename (p : path) : pystr := last p [].

(** [doc.build(elements)]: every [Paragraph] was built before, the file is
    written at the end. *)
Definition build_pdf `{Libraries} (pdf_path : path) (title : pystr)
    (paragraphs : list pystr) : M unit :=
  if forallb paragraph_ok (title :: paragraphs)
  then tree_update pdf_path (write_at (PdfDoc title paragraphs))
  else raise (ValueError (py "paraparser: syntax error")).

Definition json_to_pdf `{Libraries} (json_path pdf_path : path) : M unit :=
  t <- read_text json_path ;;
  match match t with
        | Some text => json_loads text
        | None => Raise JSONDecodeError
        end with
  | Raise e => raise e
  | Return json_data =>
      build_pdf pdf_path (basename json_path) (json_paragraphs json_data)
  end.

Definition xml_paragraphs (xml_str : pystr) : list pystr :=
  map html_escape (split 10 xml_str).

Definition xml_to_pdf_body `{Libraries} (xml_path pdf_path : path) : M unit :=
  t <- read_text xml_path ;;
  match match t with Some text => ET_parse text | None => None end with
  | None => raise ParseError
  | Some root =>
      build_pdf pdf_path (html_escape (basename xml_path))
                (xml_paragraphs (ET_tostring root))
  end.

(** The [try] of [xml_to_pdf] with its two handlers. *)
Definition xml_to_pdf `{Libraries} (xml_path pdf_path : path) : M unit :=
  fun w =>
    match xml_to_pdf_body xml_path pdf_path w with
    | (Return _, w') => (Return tt, w')
    | (Raise ParseError, w') => print XmlParsingError w'
    | (Raise e, w') => print (XmlFailed e) w'
    end.

(** ** [zip_pdfs] *)

Definition is_pdf_name (file : pystr) : bool := endswith (lower file) (py ".pdf").

Definition pdf_files (output_dir : path) (es : dir) : list (path * pystr * file_data) :=
  match lookup output_dir (Dir es) with
  | Some n => filter (fun f => is_pdf_name (snd (fst f))) (walk output_dir n)
  | None => []
  end.

Definition zip_name (pdf_prefix : pystr) : pystr := pdf_prefix ++ py "reports.zip".

(** The archive and its members are named by the prefix followed by a file
    name.  A prefix is taken as a part of these names: one with a slash in
    it would make [os.path.join] and the member names point into another
    directory, which is not followed here: what is proved of the archive
    is about prefixes without a slash. *)
Definition zip_pdfs (output_dir : path) (pdf_prefix : pystr) : M unit :=
  fun w =>
    match pdf_files output_dir (tree w) with
    | [] => print NoPdfFound w
    | found =>
        let zip_path := output_dir ++ [zip_name pdf_prefix] in
        (tree_update zip_path
           (write_at (ZipArchive
              (map (fun f => (pdf_prefix ++ snd (fst f), snd f)) found))) ;;
         print (Zipped zip_path)) w
    end.

(** ** [process_job] *)

Definition render_entry `{Libraries} (extract_dir : path) (filename : pystr)
  : M unit :=
  if endswith filename (py ".json") then
    json_to_pdf (extract_dir ++ [filename])
                (extract_dir ++ [splitext_root filename ++ py ".pdf"])
  else if endswith filename (py ".xml") then
    xml_to_pdf (extract_dir ++ [filename])
               (extract_dir ++ [splitext_root filename ++ py ".pdf"])
  else ret tt.

(** The [for filename in os.listdir(extract_dir)] loop. *)
Definition render_all `{Libraries} (extract_dir : path) : M unit :=
  names <- listdir extract_dir ;;
  for_each names (render_entry extract_dir).

Definition job_dirname (job_id : Z) : pystr := py "job_" ++ str_of_int job_id.

(** The [try] block of [process_job] from [download_artifact] on. *)
Definition fetch_and_render `{Libraries} (srv : server) (job_name : pystr)
    (project_id : Z) (output_dir : path) (job_id : Z) : M unit :=
  zip_path <- download_artifact srv project_id job_id ;;
  print (Downloaded job_name zip_path) ;;
  let extract_dir := output_dir ++ [job_dirname job_id] in
  unzip_to_dir zip_path extract_dir ;;
  render_all extract_dir.

(** The [try] block of [process_job]; [None] when [get_job_id] has not
    finished within [fuel] turns of its loop. *)
Definition process_job_body `{Libraries} (fuel : nat) (srv : server)
    (job_name : pystr) (project_id pipeline_id : Z) (output_dir : path)
    (w : world) : option (result unit * world) :=
  match get_job_id fuel (jobs_page srv project_id pipeline_id) job_name with
  | None => None
  | Some (res, pages) =>
      Some ((for_each pages (fun p => send (ListJobs project_id pipeline_id p)) ;;
             match res with
             | Raise e => raise e
             | Return job_id =>
                 fetch_and_render srv job_name project_id output_dir job_id
             end) w)
  end.

Definition process_job `{Libraries} (fuel : nat) (srv : server)
    (job_name : pystr) (project_id pipeline_id : Z) (output_dir : path)
    (w : world) : option (bool * world) :=
  match process_job_body fuel srv job_name project_id pipeline_id output_dir w with
  | None => None
  | Some (Return _, w') => Some (true, w')
  | Some (Raise e, w') => Some (false, snd (print (JobFailed job_name e) w'))
  end.

(** ** [main] *)

Record config : Type := mk_config {
  project_id : Z;
  pipeline_id : Z;
  pdf_prefix : pystr;
  job_names : list pystr
}.

Definition config_dirname (c : config) : pystr :=
  py "project_" ++ str_of_int (project_id c)
    ++ py "_pipeline_" ++ str_of_int (pipeline_id c).

(** The futures of one configuration, awaited in the order submitted.  The
    pool may run the jobs at the same time: jobs of different ids write to
    different files of the working directory and to different directories
    of the output directory, and the order in which their threads take
    turns is left out.  Here the jobs are run one after the other, in the
    order submitted. *)
Fixpoint run_jobs `{Libraries} (fuel : nat) (srv : server) (c : config)
    (output_dir : path) (names : list pystr) (w : world)
  : option (list bool * world) :=
  match names with
  | [] => Some ([], w)
  | name :: names' =>
      match process_job fuel srv name (project_id c) (pipeline_id c) output_dir w with
      | None => None
      | Some (ok, w') =>
          match run_jobs fuel srv c output_dir names' w' with
          | None => None
          | Some (oks, w'') => Some (ok :: oks, w'')
          end
      end
  end.

(** One turn of the [for config in configs] loop. *)
Definition run_config `{Libraries} (fuel : nat) (srv : server) (c : config)
    (w : world) : option (result unit * world) :=
  let output_dir := [config_dirname c] in
  match clean_output_dir output_dir w with
  | (Raise e, w1) => Some (Raise e, w1)
  | (Return _, w1) =>
      match run_jobs fuel srv c output_dir (job_names c) w1 with
      | None => None
      | Some (_, w2) => Some (zip_pdfs output_dir (pdf_prefix c) w2)
      end
  end.

Fixpoint run_configs `{Libraries} (fuel : nat) (srv : server)
    (configs : list config) (w : world) : option (result unit * world) :=
  match configs with
  | [] => Some (Return tt, w)
  | c :: configs' =>
      match run_config fuel srv c w with
      | None => None
      | Some (Raise e, w') => Some (Raise e, w')
      | Some (Return _, w') => run_configs fuel srv configs' w'
      end
  end.

(** What [main] finds when it starts: the two environment variables and
    the configuration file ([None] when one is missing; the file may hold
    something that is no JSON). *)
Inductive config_file : Type :=
| NoSuchFile
| InvalidJson
| Loaded (configs : list config).

Record invocation : Type := mk_invocation {
  GITLAB_TOKEN : option pystr;
  GITLAB_BASE_URL : option pystr;
  config_path : config_file
}.

(** [main], with the exit status of the process: 1 after [exit(1)] and
    after an exception nobody caught, 0 otherwise. *)
Definition main `{Libraries} (fuel : nat) (srv : server) (inv : invocation)
    (w : world) : option (Z * world) :=
  if falsy (GITLAB_TOKEN inv) then Some (1, snd (print UsageError w))
  else if falsy (GITLAB_BASE_URL inv) then Some (1, snd (print UsageError w))
  else
    match config_path inv with
    | NoSuchFile | InvalidJson => Some (1, snd (print UsageError w))
    | Loaded configs =>
        match run_configs fuel srv configs w with
        | None => None
        | Some (Return _, w') => Some (0, w')
        | Some (Raise _, w') => Some (1, w')
        end
    end.

(** ** Reading the results *)

(** A file [name] with content [d] lies in the directory reached from [n]
    along [p]. *)
Inductive has_file : node -> path -> pystr -> file_data -> Prop :=
| has_file_here es name d :
    In (name, File d) es -> has_file (Dir es) [] name d
| has_file_below es sub x p name d :
    In (sub, x) es -> has_file x p name d ->
    has_file (Dir es) (sub :: p) name d.

(** [ZipFile.read(name)]: of several members of one name, the one written
    last. *)
Fixpoint archive_read (name : pystr) (members : list (pystr * file_data))
  : option file_data :=
  match members with
  | [] => None
  | (n, d) :: members' =>
      match archive_read name members' with
      | Some d' => Some d'
      | None => if str_eqb n name then Some d else None
      end
  end.

(** A well-behaved job listing: every page from 1 on is answered with
    success, and a cursor that is present names a later page, none beyond
    [last]. *)
Definition finite_listing (jobs : Z -> reply (list job)) (last : Z) : Prop :=
  forall p, 1 <= p ->
    exists r, jobs p = Answer r /\ raise_for_status r = Return tt /\
      (falsy (x_next_page r) = true \/
       exists q, py_int (header_text (x_next_page r)) = Some q /\ p < q <= last).

(** ** Concrete libraries and worlds, for examples *)

(** XML texts are those that start with an angle bracket, and [Paragraph]
    refuses a text that holds one. *)
Definition toy_libraries : Libraries :=
  {| etree := pystr;
     ET_parse := fun t => if startswith t [60] then Some t else None;
     ET_tostring := fun t => t;
     paragraph_ok := fun t => negb (existsb (Z.eqb 60) t) |}.

Definition empty_world : world := mk_world (fun _ => None) [] [] [].

(** An output directory where two jobs each hold a document [a.pdf]. *)
Definition two_documents : dir :=
  [(py "job_1", Dir [(py "a.pdf", File (PdfDoc (py "first") []))]);
   (py "job_2", Dir [(py "a.pdf", File (PdfDoc (py "second") []))])].

Definition two_documents_world : world :=
  mk_world (fun _ => None) [(py "out", Dir two_documents)] [] [].

(** ** Notions used in the statements and proofs below *)

(** What may follow a number without being read as part of it. *)
Definition number_end (rest : pystr) : Prop :=
  match rest with
  | [] => True
  | c :: _ =>
      is_digit c = false /\ c <> 46 /\ c <> 101 /\ c <> 69 /\ c <> 45 /\ c <> 43
  end.

(** The characters of a number. *)
Definition number_char (c : Z) : bool :=
  is_digit c || (c =? 45) || (c =? 43) || (c =? 46) || (c =? 101) || (c =? 69).

(** The text after a [\uXXXX] escape does not go on with the escape of a
    low surrogate. *)
Definition no_low_escape (s : pystr) : Prop :=
  forall g1 g2 g3 g4 s4,
    s = 92 :: 117 :: g1 :: g2 :: g3 :: g4 :: s4 ->
    exists uni2, hex4_val g1 g2 g3 g4 = Some uni2 /\ is_low_surrogate uni2 = false.

(** The escape of a code point, case by case. *)
Inductive escape_shape (c : Z) : pystr -> Prop :=
| shape_plain : 32 <= c -> c <> 34 -> c <> 92 -> escape_shape c [c]
| shape_letter e : unescape e = Some c -> e <> 117 -> escape_shape c [92; e]
| shape_unicode :
    0 <= c < 65536 ->
    escape_shape c [92; 117; hex_digit (c / 4096 mod 16); hex_digit (c / 256 mod 16);
                    hex_digit (c / 16 mod 16); hex_digit (c mod 16)]
| shape_pair hi lo :
    65536 <= c <= 1114111 ->
    hi = 55296 + (c - 65536) / 1024 -> lo = 56320 + (c - 65536) mod 1024 ->
    escape_shape c [92; 117; hex_digit (hi / 4096 mod 16); hex_digit (hi / 256 mod 16);
                    hex_digit (hi / 16 mod 16); hex_digit (hi mod 16);
                    92; 117; hex_digit (lo / 4096 mod 16); hex_digit (lo / 256 mod 16);
                    hex_digit (lo / 16 mod 16); hex_digit (lo mod 16)].

(** The first character of an encoded value. *)
Definition value_head (c : Z) : bool :=
  is_digit c || (c =? 34) || (c =? 45) || (c =? 78) || (c =? 73) || (c =? 91)
  || (c =? 123) || (c =? 110) || (c =? 116) || (c =? 102).

Definition starts_with_value (s : pystr) : Prop :=
  exists c tl, s = c :: tl /\ value_head c = true.

(** One item of an encoded [dict]. *)
Definition encode_item (level : nat) (kv : pystr * json) : pystr :=
  encode_string (fst kv) ++ py ": " ++ encode level (snd kv).

(** What the decoder is shown to do on the encoding of a value. *)
Definition reads_back (v : json) : Prop :=
  forall level fuel rest,
    (length (encode level v) <= fuel)%nat -> number_end rest ->
    scan_once fuel (encode level v ++ rest) = Return (v, rest).

(** A line whose first character after its leading spaces is no
    ampersand: this is where [nbsp_line] can be undone. *)
Definition line_ok (line : pystr) : Prop :=
  match skipn (leading_spaces line) line with
  | 38 :: _ => False
  | _ => True
  end.

(** No line of [s] has an ampersand right after its leading spaces;
    [at_start] tells whether [s] starts within the leading spaces of a line. *)
Fixpoint indent_ok (at_start : bool) (s : pystr) : bool :=
  match s with
  | [] => true
  | c :: s' =>
      if c =? 10 then indent_ok true s'
      else if at_start then
        if c =? 32 then indent_ok true s'
        else negb (c =? 38) && indent_ok false s'
      else indent_ok false s'
  end.

(** The encoding of a value leaves one in the middle of a line. *)
Definition ends_in_line (v : json) : Prop :=
  forall level at_start tail,
    indent_ok at_start (encode level v ++ tail) = indent_ok false tail.

(** *** One configuration's directory within the output tree *)

(** The entry of the directory [d], when it exists. *)
Definition entd (d : pystr) (o : option dir) : dir :=
  match o with
  | Some sub => [(d, Dir sub)]
  | None => []
  end.

Definition no_entry (d : pystr) (t : dir) : Prop :=
  Forall (fun e => fst e <> d) t.

Definition is_job_dirname (name : pystr) : Prop :=
  exists id, name = job_dirname id.

(** The directory holds nothing but job directories. *)
Definition jobs_only (o : option dir) : Prop :=
  match o with
  | Some sub => Forall (fun e => is_job_dirname (fst e)) sub
  | None => True
  end.

(** [update] below the entry [d], seen from that entry. *)
Definition at_entry (q : path) (f : option node -> result (option node))
    (o : option node) : result (option node) :=
  match q with
  | [] => f o
  | _ :: _ =>
      match o with
      | Some (Dir sub) => do sub' <- update q f sub; Return (Some (Dir sub'))
      | Some (File _) => Raise NotADirectoryError
      | None => Raise FileNotFoundError
      end
  end.

(** Two worlds that hold the same directory [d], as their last entry,
    next to the entries [t1] and [t2], and that agree on the working
    directory files [names]. *)
Definition related (G : option dir -> Prop) (d : pystr) (t1 t2 : dir)
    (names : list pystr) (w1 w2 : world) : Prop :=
  exists o,
    G o /\ tree w1 = t1 ++ entd d o /\ tree w2 = t2 ++ entd d o /\
    forall n, In n names -> cwd w1 n = cwd w2 n.

(** A statement that depends on the world only through the directory [d]
    and the files [names], and changes nothing else of the tree. *)
Definition local (d : pystr) (t1 t2 : dir) (names : list pystr) {A}
    (m : M A) : Prop :=
  forall w1 w2,
    related jobs_only d t1 t2 names w1 w2 ->
    fst (m w1) = fst (m w2) /\
    related jobs_only d t1 t2 names (snd (m w1)) (snd (m w2)).

(** The paths the job of directory [j] writes to: [d] itself (only to
    create it) and what lies below [d/j]. *)
Definition job_path (d : pystr) (p : path) : Prop :=
  exists j q, p = d :: j :: q /\ is_job_dirname j.

(** The updates a job makes: creating or removing [d], and any change
    below a job directory of [d]. *)
Definition allowed (q : path) (f : option node -> result (option node)) : Prop :=
  (q = [] /\ (f = mkdir_at \/ f = rmtree_at)) \/
  (exists j q', q = j :: q' /\ is_job_dirname j).

(** *** The loop of [main], seen from the output tree *)

Definition is_file_entry (d : pystr) (t : dir) : bool :=
  match get_entry d t with
  | Some (File _) => true
  | _ => false
  end.

(** What the turns of the loop do to the tree: each one replaces a
    directory by a new content, put last; the loop stops with an exception
    at a name that a regular file holds. *)
Fixpoint assign_all (steps : list (pystr * option dir)) (t : dir) : bool * dir :=
  match steps with
  | [] => (false, t)
  | (d, o) :: rest =>
      if is_file_entry d t then (true, t)
      else assign_all rest (del_entry d t ++ entd d o)
  end.

Definition remove_all (ds : list pystr) (t : dir) : dir :=
  filter (fun e => negb (existsb (str_eqb (fst e)) ds)) t.

Definition is_raise {A} (r : result A) : bool :=
  match r with
  | Raise _ => true
  | Return _ => false
  end.

(** The content a configuration gives its directory, read off a run in
    the empty world. *)
Definition config_step `{Libraries} (fuel : nat) (srv : server) (c : config)
  : pystr * option dir :=
  (config_dirname c,
   match run_config fuel srv c empty_world with
   | Some (_, w0) =>
       match get_entry (config_dirname c) (tree w0) with
       | Some (Dir sub) => Some sub
       | _ => None
       end
   | None => None
   end).

(** The entries a run leaves when it starts from nothing. *)
Definition produced (steps : list (pystr * option dir)) : dir :=
  snd (assign_all steps []).

Definition no_files (ds : list pystr) (t : dir) : Prop :=
  forall d, In d ds -> is_file_entry d t = false.

(** The subdirectories of a directory, in order. *)
Definition subdirs (es : dir) : dir :=
  filter (fun e => match snd e with Dir _ => true | File _ => false end) es.

(** The job [name] fails while its id is looked up or while its archive is
    requested. *)
Definition fails_before_unzip (fuel : nat) (srv : server) (c : config)
    (name : pystr) : Prop :=
  match get_job_id fuel (jobs_page srv (project_id c) (pipeline_id c)) name with
  | Some (Raise _, _) => True
  | Some (Return id, _) =>
      match artifacts srv (project_id c) id with
      | Fault => True
      | Answer r => is_raise (raise_for_status r) = true
      end
  | None => False
  end.

(** What a directory keeps while files are written into it: its
    subdirectories, under their names. *)
Definition keeps_dirs (es es' : dir) : Prop :=
  subdirs es' = subdirs es /\
  forall name sub, get_entry name es = Some (Dir sub) ->
                   get_entry name es' = Some (Dir sub).

Definition dir_kept (p : path) (es : dir) (w : world) : Prop :=
  exists es', lookup p (Dir (tree w)) = Some (Dir es') /\ keeps_dirs es es'.

(** The [try] block of [process_job] from [download_artifact] up to the loop
    over the extracted entries. *)
Definition fetch_and_unzip (srv : server) (job_name : pystr) (project_id : Z)
    (output_dir : path) (job_id : Z) : M path :=
  zip_path <- download_artifact srv project_id job_id ;;
  print (Downloaded job_name zip_path) ;;
  unzip_to_dir zip_path (output_dir ++ [job_dirname job_id]).

(** The job [job_name], started in [w], has the id [job_id] and reaches the
    loop over the extracted entries in the world [wu]. *)
Definition unpacked (fuel : nat) (srv : server) (job_name : pystr)
    (project_id pipeline_id : Z) (output_dir : path) (w : world)
    (job_id : Z) (wu : world) : Prop :=
  exists pages extract_dir,
    get_job_id fuel (jobs_page srv project_id pipeline_id) job_name
      = Some (Return job_id, pages) /\
    (for_each pages (fun p => send (ListJobs project_id pipeline_id p)) ;;
     fetch_and_unzip srv job_name project_id output_dir job_id) w
      = (Return extract_dir, wu).

(** ** A pipeline for examples *)

(** Four jobs on one page of the listing.  The archive of [lint] holds a
    document and a text that is no JSON, the archive of [test] a JSON
    report, the archive of [docs] a directory of the name [api.xml], and
    the archive of [api] a directory of the name [schema.json]. *)
Definition lint_archive : file_data :=
  ZipArchive [(py "summary.pdf", PdfDoc (py "old") []);
              (py "bad.json", Text (py "{"))].

Definition test_archive : file_data :=
  ZipArchive [(py "report.json", Text (py "[1]"))].

Definition docs_archive : file_data :=
  ZipArchive [(py "api.xml/", Text []);
              (py "api.xml/index.json", Text (py "[1]"))].

Definition api_archive : file_data :=
  ZipArchive [(py "schema.json/", Text []);
              (py "schema.json/v1.json", Text (py "[1]"));
              (py "notes.txt", Text (py "n"))].

Definition example_jobs : list (list job) :=
  [[mk_job (py "lint") 7; mk_job (py "test") 8; mk_job (py "docs") 9;
    mk_job (py "api") 10]].

Definition example_server : server :=
  mk_server
    (fun _ _ => listing_server example_jobs)
    (fun _ id =>
       if id =? 7 then Answer (mk_response 200 None lint_archive)
       else if id =? 8 then Answer (mk_response 200 None test_archive)
       else if id =? 9 then Answer (mk_response 200 None docs_archive)
       else if id =? 10 then Answer (mk_response 200 None api_archive)
       else Fault).

Definition example_config : config :=
  mk_config 1 2 (py "p_") [py "lint"; py "test"].

Definition example_invocation : invocation :=
  mk_invocation (Some (py "token")) (Some (py "https://gitlab.example/api/v4"))
                (Loaded [example_config]).

(** The world in which the job [api] reaches its loop, and what it has
    unpacked. *)
Definition api_unpacked_world : world :=
  snd ((for_each [1] (fun p => send (ListJobs 1 2 p)) ;;
        fetch_and_unzip example_server (py "api") 1 [py "out"] 10) empty_world).

Definition api_unpacked_dir : dir :=
  [(py "schema.json", Dir [(py "v1.json", File (Text (py "[1]")))]);
   (py "notes.txt", File (Text (py "n")))].

(** ** Induction through the lists of a value, and a tactic *)

Section node_induction.
Variable P : node -> Prop.
Hypothesis P_file : forall d, P (File d).
Hypothesis P_dir : forall es, Forall (fun e => P (snd e)) es -> P (Dir es).

Fixpoint node_nested_ind (n : node) : P n :=
  match n with
  | File d => P_file d
  | Dir es =>
      P_dir es
        ((fix each (l : dir) : Forall (fun e => P (snd e)) l :=
            match l with
            | [] => Forall_nil _
            | e :: l' => Forall_cons e (node_nested_ind (snd e)) (each l')
            end) es)
  end.
End node_induction.

Section json_induction.
Variable P : json -> Prop.
Hypothesis P_null : P JNull.
Hypothesis P_bool : forall b, P (JBool b).
Hypothesis P_int : forall n, P (JInt n).
Hypothesis P_float : forall t, P (JFloat t).
Hypothesis P_str : forall s, P (JStr s).
Hypothesis P_list : forall items, Forall P items -> P (JList items).
Hypothesis P_dict :
  forall items, Forall (fun kv => P (snd kv)) items -> P (JDict items).

Fixpoint json_nested_ind (v : json) : P v :=
  match v with
  | JNull => P_null
  | JBool b => P_bool b
  | JInt n => P_int n
  | JFloat t => P_float t
  | JStr s => P_str s
  | JList items =>
      P_list items
        ((fix each (l : list json) : Forall P l :=
            match l with
            | [] => Forall_nil _
            | x :: l' => Forall_cons x (json_nested_ind x) (each l')
            end) items)
  | JDict items =>
      P_dict items
        ((fix each (l : list (pystr * json)) : Forall (fun kv => P (snd kv)) l :=
            match l with
            | [] => Forall_nil _
            | kv :: l' => Forall_cons kv (json_nested_ind (snd kv)) (each l')
            end) items)
  end.
End json_induction.

(** Replace every string literal of the source by its code points. *)
Ltac py_norm :=
  repeat match goal with
         | |- context [py ?s] =>
             let v := eval vm_compute in (py s) in change (py s) with v
         end.

Ltac py_norm_in H :=
  repeat match type of H with
         | context [py ?s] =>
             let v := eval vm_compute in (py s) in change (py s) with v in H
         end.

(** A server whose every page is empty and names page 1 as the next. *)
Definition looping_server (page : Z) : reply (list job) :=
  Answer (mk_response 200 (Some (py "1")) []).

(** The printable characters of ASCII. *)
Definition is_printable (c : Z) : bool := (32 <=? c) && (c <=? 126).

(** A statement that leaves the files of the working directory alone. *)
Definition cwd_kept {A} (m : M A) : Prop := forall w, cwd (snd (m w)) = cwd w.

(** The entries of a directory whose names do not end in [.pdf] are the
    same in [es'] as in [es]. *)
Definition same_sources (es es' : dir) : Prop :=
  forall name, endswith name (py ".pdf") = false ->
               get_entry name es' = get_entry name es.

Definition sources_kept (p : path) (es : dir) (w : world) : Prop :=
  exists es', lookup p (Dir (tree w)) = Some (Dir es') /\ same_sources es es'.

(** The paths [p] and [q] part ways: after a common start, they go on with
    different names. *)
Definition diverges (p q : path) : Prop :=
  exists r a b p' q', p = r ++ a :: p' /\ q = r ++ b :: q' /\ a <> b.

(** A statement that leaves alone whatever lies off the path [p]. *)
Definition outside_kept (p : path) {A} (m : M A) : Prop :=
  forall w q, diverges p q ->
    lookup q (Dir (tree (snd (m w)))) = lookup q (Dir (tree w)).

(** The world after the job [test] of the example has run. *)
Definition test_job_world : world :=
  match @process_job toy_libraries 1 example_server (py "test") 1 2 [py "out"]
                     two_documents_world with
  | Some (_, w) => w
  | None => two_documents_world
  end.

(** ** Three JSON files in a job directory *)

(** A text between double quotes. *)
Definition quoted (s : pystr) : pystr := 34 :: s ++ [34].

(** [{"name": "a & b", "runs": [3, 0.000015, null]}] and its value. *)
Definition report_text : pystr :=
  py "{" ++ quoted (py "name") ++ py ": " ++ quoted (py "a & b") ++ py ", "
  ++ quoted (py "runs") ++ py ": [3, 0.000015, null]}".

Definition report_value : json :=
  JDict [(py "name", JStr (py "a & b"));
         (py "runs", JList [JInt 3; JFloat (py "1.5e-05"); JNull])].

(** [["<b>"]]: a string that opens a tag of [Paragraph]'s markup and does
    not close it. *)
Definition markup_text : pystr := py "[" ++ quoted (py "<b>") ++ py "]".

(** A string of three characters outside ASCII, one of them beyond the
    Basic Multilingual Plane. *)
Definition unicode_text : pystr := py "[" ++ quoted [233; 8364; 128512] ++ py ", 0.5]".

Definition json_files : dir :=
  [(py "report.json", File (Text report_text));
   (py "tags.json", File (Text markup_text));
   (py "names.json", File (Text unicode_text))].

Definition json_files_world : world :=
  mk_world (fun _ => None) [(py "job_7", Dir json_files)] [] [].

(** A job directory with a JSON file and an XML file of one stem. *)
Definition same_stem_dir : dir :=
  [(py "a.json", File (Text (py "[1]")));
   (py "a.xml", File (Text (py "<a/>")))].

Definition same_stem_world : world :=
  mk_world (fun _ => None) [(py "job_8", Dir same_stem_dir)] [] [].

(** An output directory whose only file is [A.PDF]. *)
Definition upper_case_world : world :=
  mk_world (fun _ => None)
           [(py "out", Dir [(py "job_1", Dir [(py "A.PDF", File (PdfDoc (py "t") []))])])]
           [] [].

(** An output directory where the directory of [example_config] holds a
    document that no job of the pipeline produces. *)
Definition stale_world : world :=
  mk_world (fun _ => None)
           [(config_dirname example_config,
             Dir [(py "job_1", Dir [(py "stale.pdf", File (PdfDoc (py "old") []))])])]
           [] [].
(* ================================================================= *)
(** * Properties *)

(** ** Strings and decimal numbers *)

Lemma str_eqb_spec a b : reflect (a = b) (str_eqb a b).
Proof.
  revert b; induction a as [|x a IH]; intros [|y b]; simpl;
    try (constructor; congruence).
  destruct (Z.eqb_spec x y) as [->|Hne]; simpl.
  - destruct (IH b) as [->|Hne]; constructor; congruence.
  - constructor; congruence.
Qed.

Lemma str_eqb_refl a : str_eqb a a = true.
Proof. destruct (str_eqb_spec a a); congruence. Qed.

Lemma str_eqb_eq a b : str_eqb a b = true <-> a = b.
Proof. destruct (str_eqb_spec a b); split; congruence. Qed.

Lemma str_eqb_neq a b : str_eqb a b = false <-> a <> b.
Proof. destruct (str_eqb_spec a b); split; congruence. Qed.

Lemma is_digit_not_space c : is_digit c = true -> is_space c = false.
Proof. unfold is_digit, is_space. lia. Qed.

Lemma lstrip_id s : Forall (fun c => is_space c = false) s -> lstrip s = s.
Proof. intros H; destruct H as [|c s Hc _]; simpl; [reflexivity|now rewrite Hc]. Qed.

Lemma strip_id s : Forall (fun c => is_space c = false) s -> strip s = s.
Proof.
  intros H. unfold strip. rewrite (lstrip_id s H).
  rewrite lstrip_id by now apply Forall_rev.
  apply rev_involutive.
Qed.

Lemma nat_digits_acc fuel : forall n acc,
  nat_digits fuel n acc = nat_digits fuel n [] ++ acc.
Proof.
  induction fuel as [|fuel IH]; intros n acc; simpl; [reflexivity|].
  destruct (n <? 10); [reflexivity|].
  rewrite (IH _ (_ :: acc)), (IH _ [_]), <- app_assoc. reflexivity.
Qed.

Lemma nat_digits_are_digits fuel : forall n acc,
  0 <= n -> Forall (fun c => is_digit c = true) acc ->
  Forall (fun c => is_digit c = true) (nat_digits fuel n acc).
Proof.
  induction fuel as [|fuel IH]; intros n acc Hn Hacc; simpl; [assumption|].
  assert (Hd : is_digit (48 + n mod 10) = true).
  { unfold is_digit. pose proof (Z.mod_pos_bound n 10). lia. }
  destruct (n <? 10); [now constructor|].
  apply IH; [apply Z.div_pos; lia | now constructor].
Qed.

Lemma digits_val_cons c ds acc :
  digits_val (c :: ds) acc = digits_val ds (10 * acc + digit_val c).
Proof. reflexivity. Qed.

Lemma nat_digits_val fuel : forall n acc,
  0 <= n < 2 ^ Z.of_nat fuel ->
  digits_val (nat_digits fuel n acc) 0 = digits_val acc n.
Proof.
  induction fuel as [|fuel IH]; intros n acc Hn.
  - simpl in *. assert (n = 0) by lia. subst. reflexivity.
  - cbn [nat_digits]. destruct (Z.ltb_spec n 10) as [Hlt|Hge].
    + rewrite digits_val_cons. unfold digit_val.
      rewrite Z.mod_small by lia. f_equal. lia.
    + rewrite IH.
      * rewrite digits_val_cons. unfold digit_val. f_equal.
        pose proof (Z.div_mod n 10). lia.
      * rewrite Nat2Z.inj_succ, Z.pow_succ_r in Hn by lia.
        split; [apply Z.div_pos; lia|].
        apply Z.div_lt_upper_bound; lia.
Qed.

Lemma nat_digits_nonempty fuel n acc : nat_digits (S fuel) n acc <> [].
Proof.
  simpl. destruct (n <? 10); [discriminate|].
  rewrite nat_digits_acc. intros H. apply app_eq_nil in H. destruct H; discriminate.
Qed.

Lemma log2_fuel n : 0 <= n -> 0 <= n < 2 ^ Z.of_nat (S (Z.to_nat (Z.log2 n))).
Proof.
  intros Hn. split; [assumption|].
  rewrite Nat2Z.inj_succ, Z2Nat.id by apply Z.log2_nonneg.
  destruct (Z.eq_dec n 0) as [->|Hnz]; [reflexivity|].
  apply Z.log2_spec. lia.
Qed.

Lemma str_of_nat_digits n : 0 <= n ->
  Forall (fun c => is_digit c = true) (str_of_nat n).
Proof. intros. now apply nat_digits_are_digits. Qed.

Lemma str_of_nat_val n : 0 <= n -> digits_val (str_of_nat n) 0 = n.
Proof. intros. unfold str_of_nat. rewrite nat_digits_val; [reflexivity|now apply log2_fuel]. Qed.

Lemma str_of_nat_nonempty n : str_of_nat n <> [].
Proof. apply nat_digits_nonempty. Qed.

Lemma int_digits_run ds : forall acc b,
  Forall (fun c => is_digit c = true) ds -> (ds <> [] \/ b = true) ->
  int_digits ds acc b = Some (digits_val ds acc).
Proof.
  induction ds as [|c ds IH]; intros acc b Hds Hne; simpl.
  - destruct Hne as [Hne| ->]; [congruence|reflexivity].
  - inversion Hds; subst. rewrite H1. apply IH; auto.
Qed.

Lemma py_int_digits ds :
  Forall (fun c => is_digit c = true) ds -> ds <> [] ->
  py_int ds = Some (digits_val ds 0).
Proof.
  intros Hds Hne. unfold py_int. rewrite strip_id.
  - destruct ds as [|c ds]; [congruence|].
    inversion Hds; subst.
    assert (c <> 45 /\ c <> 43) as [H45 H43] by (unfold is_digit in *; lia).
    assert (Hrun := int_digits_run (c :: ds) 0 false Hds (or_introl Hne)).
    destruct c as [|p|p]; try exact Hrun.
    do 6 (destruct p as [p|p|]; try exact Hrun);
      exfalso; (now apply H45) || (now apply H43).
  - eapply Forall_impl; [|exact Hds]. apply is_digit_not_space.
Qed.

Lemma py_int_str_of_int n : py_int (str_of_int n) = Some n.
Proof.
  unfold str_of_int. destruct (Z.ltb_spec n 0) as [Hneg|Hpos].
  - unfold py_int. rewrite strip_id.
    + rewrite int_digits_run.
      * rewrite str_of_nat_val by lia. simpl. f_equal. lia.
      * apply str_of_nat_digits; lia.
      * left; apply str_of_nat_nonempty.
    + constructor; [reflexivity|].
      eapply Forall_impl; [|apply str_of_nat_digits; lia]. apply is_digit_not_space.
  - rewrite py_int_digits.
    + now rewrite str_of_nat_val.
    + now apply str_of_nat_digits.
    + apply str_of_nat_nonempty.
Qed.

(** ** The job listing: [get_job_id] against a well-behaved server *)

Lemma str_of_int_nonempty n : str_of_int n <> [].
Proof.
  unfold str_of_int. destruct (n <? 0); [discriminate|apply str_of_nat_nonempty].
Qed.

Lemma falsy_str_of_int n : falsy (Some (str_of_int n)) = false.
Proof.
  pose proof (str_of_int_nonempty n). simpl. now destruct (str_of_int n).
Qed.

Lemma page_range_length first n : length (page_range first n) = n.
Proof. revert first; induction n; intros; simpl; auto. Qed.

Lemma page_range_S first n :
  page_range first (S n) = first :: page_range (first + 1) n.
Proof. reflexivity. Qed.

Lemma page_range_app first n m :
  page_range first (n + m) = page_range first n ++ page_range (first + Z.of_nat n) m.
Proof.
  revert first; induction n as [|n IH]; intros first.
  - simpl. now rewrite Z.add_0_r.
  - cbn [page_range Nat.add app]. rewrite IH. do 3 f_equal. lia.
Qed.

(** One turn of the loop against [listing_server], on the page of index [k]. *)
Lemma listing_server_turn pages name k fuel :
  get_job_id_from (S fuel) (listing_server pages) name (Z.of_nat (S k)) =
  match find_job name (nth k pages []) with
  | Some id => Some (Return id, [Z.of_nat (S k)])
  | None =>
      if (S k <? length pages)%nat
      then match get_job_id_from fuel (listing_server pages) name
                   (Z.of_nat (S (S k))) with
           | None => None
           | Some (res, ps) => Some (res, Z.of_nat (S k) :: ps)
           end
      else Some (Raise (ValueError (not_found_msg name)), [Z.of_nat (S k)])
  end.
Proof.
  cbn [get_job_id_from listing_server]. unfold raise_for_status.
  cbn [status_code body x_next_page].
  replace (Z.to_nat (Z.of_nat (S k) - 1)) with k by lia.
  change ((400 <=? 200) && (200 <? 600)) with false. cbv iota.
  destruct (find_job name (nth k pages [])) as [id|]; [reflexivity|].
  destruct (Nat.ltb_spec (S k) (length pages)) as [Hlt|Hge].
  - replace (Z.of_nat (S k) <? Z.of_nat (length pages)) with true
      by (symmetry; apply Z.ltb_lt; lia).
    rewrite falsy_str_of_int. cbn [header_text].
    rewrite py_int_str_of_int.
    replace (Z.of_nat (S k) + 1) with (Z.of_nat (S (S k))) by lia.
    reflexivity.
  - replace (Z.of_nat (S k) <? Z.of_nat (length pages)) with false
      by (symmetry; apply Z.ltb_ge; lia).
    reflexivity.
Qed.

(** Pages [k .. k + r - 1] hold no job of that name and are the last ones. *)
Lemma listing_server_miss pages name : forall r k fuel,
  (k + S r = Nat.max 1 (length pages))%nat ->
  (S r <= fuel)%nat ->
  (forall i, (k <= i)%nat -> find_job name (nth i pages []) = None) ->
  get_job_id_from fuel (listing_server pages) name (Z.of_nat (S k)) =
  Some (Raise (ValueError (not_found_msg name)), page_range (Z.of_nat (S k)) (S r)).
Proof.
  induction r as [|r IH]; intros k fuel Hk Hfuel Hmiss;
    (destruct fuel as [|fuel]; [lia|]); rewrite listing_server_turn;
    rewrite (Hmiss k (Nat.le_refl k)).
  - destruct (Nat.ltb_spec (S k) (length pages)); [lia|reflexivity].
  - destruct (Nat.ltb_spec (S k) (length pages)); [|lia].
    rewrite (IH (S k) fuel); [|lia|lia|intros i Hi; apply Hmiss; lia].
    rewrite (page_range_S (Z.of_nat (S k))).
    now replace (Z.of_nat (S k) + 1) with (Z.of_nat (S (S k))) by lia.
Qed.

(** Pages [k .. k + r - 1] hold no job of that name, page [k + r] does. *)
Lemma listing_server_hit pages name id : forall r k fuel,
  (k + r < length pages)%nat ->
  (S r <= fuel)%nat ->
  (forall i, (k <= i < k + r)%nat -> find_job name (nth i pages []) = None) ->
  find_job name (nth (k + r) pages []) = Some id ->
  get_job_id_from fuel (listing_server pages) name (Z.of_nat (S k)) =
  Some (Return id, page_range (Z.of_nat (S k)) (S r)).
Proof.
  induction r as [|r IH]; intros k fuel Hk Hfuel Hmiss Hhit;
    (destruct fuel as [|fuel]; [lia|]); rewrite listing_server_turn.
  - rewrite Nat.add_0_r in Hhit. now rewrite Hhit.
  - rewrite (Hmiss k) by lia.
    destruct (Nat.ltb_spec (S k) (length pages)); [|lia].
    rewrite (IH (S k) fuel); [|lia|lia|intros i Hi; apply Hmiss; lia|].
    + rewrite (page_range_S (Z.of_nat (S k))).
      now replace (Z.of_nat (S k) + 1) with (Z.of_nat (S (S k))) by lia.
    + now replace (S k + r)%nat with (k + S r)%nat by lia.
Qed.

Lemma find_job_none name jobs :
  find_job name jobs = None <-> ~ In name (map job_name_of jobs).
Proof.
  induction jobs as [|j jobs IH]; simpl; [tauto|].
  destruct (str_eqb_spec (job_name_of j) name) as [Heq|Hne].
  - split; [discriminate|]. intros H; exfalso; apply H; now left.
  - rewrite IH. tauto.
Qed.

Lemma get_job_id_from_ext jobs jobs' name :
  (forall p, jobs p = jobs' p) ->
  forall fuel p, get_job_id_from fuel jobs name p = get_job_id_from fuel jobs' name p.
Proof.
  intros Hext. induction fuel as [|fuel IH]; intros p; cbn [get_job_id_from];
    [reflexivity|].
  rewrite <- Hext. destruct (jobs p) as [|r]; [reflexivity|].
  destruct (raise_for_status r); [|reflexivity].
  destruct (find_job name (body r)); [reflexivity|].
  destruct (falsy (x_next_page r)); [reflexivity|].
  destruct (py_int (header_text (x_next_page r))); [|reflexivity].
  now rewrite IH.
Qed.

Lemma nth_pages_miss (pages : list (list job)) name :
  (forall page, In page pages -> ~ In name (map job_name_of page)) ->
  forall i, find_job name (nth i pages []) = None.
Proof.
  intros Hmiss i. apply find_job_none.
  destruct (Nat.lt_ge_cases i (length pages)) as [Hlt|Hge].
  - apply Hmiss, nth_In, Hlt.
  - rewrite nth_overflow by assumption. intros [].
Qed.

Lemma find_job_first name before j after :
  ~ In name (map job_name_of before) -> job_name_of j = name ->
  find_job name (before ++ j :: after) = Some (job_id_of j).
Proof.
  intros Hmiss Hj. induction before as [|b before IH]; simpl.
  - rewrite Hj, str_eqb_refl. reflexivity.
  - destruct (str_eqb_spec (job_name_of b) name) as [Heq|Hne].
    + exfalso. apply Hmiss. now left.
    + apply IH. intros Hin. apply Hmiss. now right.
Qed.

Lemma falsy_py_int h : falsy h = true -> py_int (header_text h) = None.
Proof. destruct h as [[|c s]|]; simpl; intros; [reflexivity|discriminate|reflexivity]. Qed.

(** The loop of [get_job_id] ends once the pages run out: from page [p] it
    takes at most [last - p + 1] turns. *)
Lemma get_job_id_from_finite jobs last name :
  finite_listing jobs last ->
  forall n p, 1 <= p -> last - p <= Z.of_nat n ->
  exists res pages,
    (forall fuel, (S n <= fuel)%nat ->
       get_job_id_from fuel jobs name p = Some (res, pages)) /\
    (length pages <= S n)%nat /\
    ((exists id, res = Return id) \/
     res = Raise (ValueError (not_found_msg name))).
Proof.
  intros Hfin. induction n as [|n IH]; intros p Hp Hlast;
    destruct (Hfin p Hp) as (r & Hr & Hst & Hcur).
  - destruct (find_job name (body r)) as [id|] eqn:Hfind.
    + exists (Return id), [p]. split; [|split; [simpl; lia|left; now exists id]].
      intros [|fuel] Hfuel; [lia|]. cbn [get_job_id_from].
      now rewrite Hr, Hst, Hfind.
    + exists (Raise (ValueError (not_found_msg name))), [p].
      split; [|split; [simpl; lia|now right]].
      intros [|fuel] Hfuel; [lia|]. cbn [get_job_id_from].
      rewrite Hr, Hst, Hfind.
      destruct Hcur as [Hf|(q & _ & Hq)]; [now rewrite Hf|lia].
  - destruct (find_job name (body r)) as [id|] eqn:Hfind.
    + exists (Return id), [p]. split; [|split; [simpl; lia|left; now exists id]].
      intros [|fuel] Hfuel; [lia|]. cbn [get_job_id_from].
      now rewrite Hr, Hst, Hfind.
    + destruct (falsy (x_next_page r)) eqn:Hf.
      * exists (Raise (ValueError (not_found_msg name))), [p].
        split; [|split; [simpl; lia|now right]].
        intros [|fuel] Hfuel; [lia|]. cbn [get_job_id_from].
        now rewrite Hr, Hst, Hfind, Hf.
      * destruct Hcur as [Hf'|(q & Hint & Hq)]; [congruence|].
        destruct (IH q) as (res & pages & Hrun & Hlen & Hres); [lia|lia|].
        exists res, (p :: pages). split; [|split; [simpl; lia|exact Hres]].
        intros [|fuel] Hfuel; [lia|]. cbn [get_job_id_from].
        rewrite Hr, Hst, Hfind, Hf, Hint, (Hrun fuel) by lia. reflexivity.
Qed.

Lemma listing_server_finite pages :
  finite_listing (listing_server pages) (Z.of_nat (length pages)).
Proof.
  intros p Hp. eexists; split; [reflexivity|]. split; [reflexivity|].
  cbn [x_next_page header_text].
  destruct (Z.ltb_spec p (Z.of_nat (length pages))) as [Hlt|Hge].
  - right. exists (p + 1). rewrite py_int_str_of_int. split; [reflexivity|lia].
  - left. reflexivity.
Qed.

(** ** [process_job] when the job id cannot be resolved *)

Lemma for_each_send {A} (f : A -> request) xs w :
  for_each xs (fun x => send (f x)) w =
  (Return tt, mk_world (cwd w) (tree w) (stdout w) (requests w ++ map f xs)).
Proof.
  revert w. induction xs as [|x xs IH]; intros w.
  - simpl. unfold ret. rewrite app_nil_r. now destruct w.
  - cbn [for_each map]. unfold mbind at 1. unfold send at 1.
    rewrite IH. cbn [cwd tree stdout requests]. now rewrite <- app_assoc.
Qed.

Lemma process_job_unresolved `{Libraries} fuel srv name project pipeline
    output_dir w e pages :
  get_job_id fuel (jobs_page srv project pipeline) name = Some (Raise e, pages) ->
  process_job fuel srv name project pipeline output_dir w =
  Some (false, mk_world (cwd w) (tree w) (stdout w ++ [JobFailed name e])
                        (requests w ++ map (ListJobs project pipeline) pages)).
Proof.
  intros Hget. unfold process_job, process_job_body. rewrite Hget.
  unfold mbind. rewrite for_each_send. reflexivity.
Qed.

(** C9.  When the job listing has finitely many pages (every page request
    succeeds and a cursor that is present names a later page, none beyond
    [last]), [get_job_id] terminates: with enough fuel it returns a job id or
    raises the not-found [ValueError], after at most [max 1 last] page
    requests. *)
Theorem get_job_id_terminates jobs last job_name :
  finite_listing jobs last ->
  exists res pages,
    (forall fuel, (Z.to_nat (Z.max 1 last) <= fuel)%nat ->
       get_job_id fuel jobs job_name = Some (res, pages)) /\
    (length pages <= Z.to_nat (Z.max 1 last))%nat /\
    ((exists id, res = Return id) \/
     res = Raise (ValueError (not_found_msg job_name))).
Proof.
  intros Hfin.
  destruct (get_job_id_from_finite jobs last job_name Hfin
              (Z.to_nat (Z.max 1 last) - 1) 1) as (res & pages & Hrun & Hlen & Hres);
    [lia|lia|].
  exists res, pages. split; [|split; [lia|exact Hres]].
  intros fuel Hfuel. apply Hrun. lia.
Qed.

Lemma get_job_id_terminates_witness :
  finite_listing (listing_server [[mk_job (py "lint") 7]; [mk_job (py "test") 8]]) 2 /\
  exists res pages,
    (forall fuel, (Z.to_nat (Z.max 1 2) <= fuel)%nat ->
       get_job_id fuel (listing_server [[mk_job (py "lint") 7]; [mk_job (py "test") 8]])
                  (py "test") = Some (res, pages)) /\
    (length pages <= Z.to_nat (Z.max 1 2))%nat /\
    ((exists id, res = Return id) \/
     res = Raise (ValueError (not_found_msg (py "test")))).
Proof.
  split.
  - exact (listing_server_finite [[mk_job (py "lint") 7]; [mk_job (py "test") 8]]).
  - exact (get_job_id_terminates _ 2 (py "test")
             (listing_server_finite [[mk_job (py "lint") 7]; [mk_job (py "test") 8]])).
Defined.

(** C2.  On a listing of several pages where the job name first appears on
    the last page, [get_job_id] requests the pages 1, 2, ..., N in this
    order and returns the id of the first job of that name on page N. *)
Theorem match_on_last_page_requests_every_page
    front before j after job_name fuel :
  front <> [] ->
  (forall page, In page front -> ~ In job_name (map job_name_of page)) ->
  ~ In job_name (map job_name_of before) ->
  job_name_of j = job_name ->
  (length (front ++ [before ++ j :: after]) <= fuel)%nat ->
  get_job_id fuel (listing_server (front ++ [before ++ j :: after])) job_name =
  Some (Return (job_id_of j),
        page_range 1 (length (front ++ [before ++ j :: after]))).
Proof.
  intros Hfront Hmiss Hbefore Hj Hfuel.
  set (pages := front ++ [before ++ j :: after]) in *.
  assert (Hlen : length pages = S (length front))
    by (unfold pages; rewrite length_app; simpl; lia).
  unfold get_job_id. change 1 with (Z.of_nat 1).
  rewrite Hlen.
  apply (listing_server_hit pages job_name (job_id_of j) (length front) 0 fuel).
  - lia.
  - lia.
  - intros i Hi. unfold pages. rewrite app_nth1 by lia.
    apply find_job_none, Hmiss, nth_In. lia.
  - unfold pages. rewrite app_nth2 by (simpl; lia).
    replace (0 + length front - length front)%nat with 0%nat by lia.
    now apply find_job_first.
Qed.

Lemma match_on_last_page_requests_every_page_witness :
  get_job_id 2 (listing_server ([[mk_job (py "lint") 7]]
                                  ++ [[mk_job (py "test") 8] ++ mk_job (py "build") 9 :: []]))
             (py "build") =
  Some (Return 9, [1; 2]).
Proof.
  apply (match_on_last_page_requests_every_page
           [[mk_job (py "lint") 7]] [mk_job (py "test") 8] (mk_job (py "build") 9) []
           (py "build") 2).
  - discriminate.
  - intros page [<-|[]]. vm_compute. intros [Heq|[]]. discriminate Heq.
  - vm_compute. intros [Heq|[]]. discriminate Heq.
  - reflexivity.
  - simpl. lia.
Defined.

(** C1.  When no page of the job listing holds a job of the given name,
    [get_job_id] requests every page and then raises the not-found
    [ValueError]; [process_job] turns this into [False], and nothing is
    downloaded: the only requests are those for the pages, and neither the
    working directory nor the output tree changes. *)
Theorem absent_job_raises_not_found `{Libraries}
    pages job_name srv project pipeline output_dir fuel w :
  (forall p, jobs_page srv project pipeline p = listing_server pages p) ->
  (forall page, In page pages -> ~ In job_name (map job_name_of page)) ->
  (Nat.max 1 (length pages) <= fuel)%nat ->
  get_job_id fuel (jobs_page srv project pipeline) job_name =
    Some (Raise (ValueError (not_found_msg job_name)),
          page_range 1 (Nat.max 1 (length pages))) /\
  process_job fuel srv job_name project pipeline output_dir w =
    Some (false,
          mk_world (cwd w) (tree w)
            (stdout w ++ [JobFailed job_name (ValueError (not_found_msg job_name))])
            (requests w ++ map (ListJobs project pipeline)
                               (page_range 1 (Nat.max 1 (length pages))))).
Proof.
  intros Hsrv Hmiss Hfuel.
  assert (Hget : get_job_id fuel (jobs_page srv project pipeline) job_name =
                 Some (Raise (ValueError (not_found_msg job_name)),
                       page_range 1 (Nat.max 1 (length pages)))).
  { unfold get_job_id. rewrite (get_job_id_from_ext _ _ job_name Hsrv).
    destruct (Nat.max 1 (length pages)) as [|r] eqn:Hmax; [lia|].
    change 1 with (Z.of_nat 1).
    apply listing_server_miss; [lia|lia|].
    intros i _. now apply nth_pages_miss. }
  split; [exact Hget|]. now apply process_job_unresolved.
Qed.

Lemma absent_job_raises_not_found_witness :
  get_job_id 1 (jobs_page (mk_server (fun _ _ => listing_server [[mk_job (py "lint") 7]])
                                     (fun _ _ => Fault)) 1 2) (py "deploy") =
    Some (Raise (ValueError (not_found_msg (py "deploy"))),
          page_range 1 (Nat.max 1 (length [[mk_job (py "lint") 7]]))) /\
  @process_job toy_libraries 1
      (mk_server (fun _ _ => listing_server [[mk_job (py "lint") 7]]) (fun _ _ => Fault))
      (py "deploy") 1 2 [py "out"] empty_world =
    Some (false,
          mk_world (cwd empty_world) (tree empty_world)
            (stdout empty_world
               ++ [JobFailed (py "deploy") (ValueError (not_found_msg (py "deploy")))])
            (requests empty_world
               ++ map (ListJobs 1 2)
                      (page_range 1 (Nat.max 1 (length [[mk_job (py "lint") 7]]))))).
Proof.
  apply (@absent_job_raises_not_found toy_libraries [[mk_job (py "lint") 7]]
           (py "deploy")
           (mk_server (fun _ _ => listing_server [[mk_job (py "lint") 7]])
                      (fun _ _ => Fault))
           1 2 [py "out"] 1%nat empty_world).
  - reflexivity.
  - intros page [<-|[]]. vm_compute. intros [Heq|[]]. discriminate Heq.
  - simpl. lia.
Defined.

(** ** [xml_to_pdf] on a file that does not parse *)

(** C4.  When the XML file does not parse, [xml_to_pdf] prints the parse
    error and returns normally; the tree is left as it was, so no document
    is written. *)
Theorem xml_to_pdf_skips_malformed_file `{Libraries} xml_path pdf_path text w :
  lookup xml_path (Dir (tree w)) = Some (File (Text text)) ->
  ET_parse text = None ->
  xml_to_pdf xml_path pdf_path w =
  (Return tt, mk_world (cwd w) (tree w) (stdout w ++ [XmlParsingError]) (requests w)).
Proof.
  intros Hfile Hparse.
  unfold xml_to_pdf, xml_to_pdf_body, read_text, tree_lookup, mbind, ret.
  rewrite Hfile, Hparse. reflexivity.
Qed.

Lemma xml_to_pdf_skips_malformed_file_witness :
  lookup [py "a.xml"] (Dir [(py "a.xml", File (Text (py "oops")))]) =
    Some (File (Text (py "oops"))) /\
  @ET_parse toy_libraries (py "oops") = None /\
  @xml_to_pdf toy_libraries [py "a.xml"] [py "a.pdf"]
     (mk_world (fun _ => None) [(py "a.xml", File (Text (py "oops")))] [] []) =
  (Return tt,
   mk_world (fun _ => None) [(py "a.xml", File (Text (py "oops")))]
            ([] ++ [XmlParsingError]) []).
Proof.
  split; [reflexivity|]. split; [reflexivity|].
  exact (@xml_to_pdf_skips_malformed_file toy_libraries [py "a.xml"] [py "a.pdf"]
           (py "oops")
           (mk_world (fun _ => None) [(py "a.xml", File (Text (py "oops")))] [] [])
           eq_refl eq_refl).
Defined.

(** ** Walking a tree *)


Lemma walk_has_file n : forall root dirpath name d,
  In (dirpath, name, d) (walk root n) <->
  exists p, dirpath = root ++ p /\ has_file n p name d.
Proof.
  induction n as [d0|es IH] using node_nested_ind; intros root dirpath name d.
  - simpl. split; [intros []|]. intros (p & _ & Hf). inversion Hf.
  - cbn [walk]. rewrite in_app_iff, !in_flat_map. split.
    + intros [((n1, x) & Hin & Hx)|((n1, x) & Hin & Hx)]; cbn [fst snd] in Hx.
      * destruct x as [d1|sub]; [|destruct Hx].
        destruct Hx as [Heq|[]]. inversion Heq; subst.
        exists []. rewrite app_nil_r. split; [reflexivity|now constructor].
      * rewrite Forall_forall in IH. apply (IH _ Hin) in Hx.
        destruct Hx as (p & -> & Hf). exists (n1 :: p).
        rewrite <- app_assoc. split; [reflexivity|].
        now apply has_file_below with (x := x).
    + intros (p & -> & Hf).
      inversion Hf as [es' name' d' Hin|es' sub x p' name' d' Hin Hf']; subst.
      * left. exists (name, File d). rewrite app_nil_r. split; [assumption|now left].
      * right. exists (sub, x). split; [assumption|]. cbn [fst snd].
        rewrite Forall_forall in IH. apply (IH _ Hin).
        exists p'. rewrite <- app_assoc. split; [reflexivity|assumption].
Qed.

Lemma filter_nil {A} (f : A -> bool) l :
  (forall x, In x l -> f x = false) -> filter f l = [].
Proof.
  induction l as [|x l IH]; intros Hall; simpl; [reflexivity|].
  rewrite (Hall x) by now left. apply IH. intros y Hy. apply Hall. now right.
Qed.

Lemma in_pdf_files output_dir es n dirpath name d :
  lookup output_dir (Dir es) = Some n ->
  In (dirpath, name, d) (pdf_files output_dir es) <->
  is_pdf_name name = true /\
  exists p, dirpath = output_dir ++ p /\ has_file n p name d.
Proof.
  intros Hn. unfold pdf_files. rewrite Hn, filter_In, walk_has_file.
  cbn [fst snd]. tauto.
Qed.

(** ** [zip_pdfs] *)

(** C5.  When no file below the output directory has a name that ends in
    [.pdf] (in any letter case, the test [zip_pdfs] makes), [zip_pdfs] prints
    its warning and returns; the tree is left as it was, so no archive is
    created.  This covers an output directory that does not exist. *)
Theorem zip_pdfs_without_documents output_dir prefix w :
  (forall n p name d,
     lookup output_dir (Dir (tree w)) = Some n ->
     has_file n p name d -> is_pdf_name name = false) ->
  zip_pdfs output_dir prefix w =
  (Return tt, mk_world (cwd w) (tree w) (stdout w ++ [NoPdfFound]) (requests w)).
Proof.
  intros Hnone. unfold zip_pdfs.
  assert (Hfiles : pdf_files output_dir (tree w) = []).
  { unfold pdf_files.
    destruct (lookup output_dir (Dir (tree w))) as [n|] eqn:Hn; [|reflexivity].
    apply filter_nil. intros [[dirpath name] d] Hin. cbn [fst snd].
    apply walk_has_file in Hin. destruct Hin as (p & _ & Hf).
    exact (Hnone n p name d eq_refl Hf). }
  rewrite Hfiles. reflexivity.
Qed.

Lemma zip_pdfs_without_documents_witness :
  zip_pdfs [py "out"] (py "p_")
    (mk_world (fun _ => None)
       [(py "out", Dir [(py "job_1", Dir [(py "a.json", File (Text (py "{}")))])])] [] []) =
  (Return tt,
   mk_world (fun _ => None)
     [(py "out", Dir [(py "job_1", Dir [(py "a.json", File (Text (py "{}")))])])]
     ([] ++ [NoPdfFound]) []).
Proof.
  apply (zip_pdfs_without_documents [py "out"] (py "p_")
           (mk_world (fun _ => None)
              [(py "out", Dir [(py "job_1", Dir [(py "a.json", File (Text (py "{}")))])])]
              [] [])).
  intros n p name d Hn Hf. vm_compute in Hn. inversion Hn; subst n; clear Hn.
  inversion Hf as [es name' d' Hin|es sub x p' name' d' Hin Hf']; subst.
  - destruct Hin as [Heq|[]]. discriminate Heq.
  - destruct Hin as [Heq|[]]. inversion Heq; subst sub x; clear Heq.
    inversion Hf' as [es name' d' Hin|es sub x p'' name' d' Hin Hf'']; subst.
    + destruct Hin as [Heq|[]]. inversion Heq; subst. reflexivity.
    + destruct Hin as [Heq|[]]. inversion Heq; subst sub x. inversion Hf''.
Defined.

(** The only file below [out] is [A.PDF], a name that does not end in
    [.pdf]; [zip_pdfs] compares the name in lower case, takes the file for
    a document and writes the archive. *)
Lemma upper_case_document_is_bundled :
  map (fun f => snd (fst f)) (walk [] (Dir (tree upper_case_world)))
  = [py "A.PDF"] /\
  endswith (py "A.PDF") (py ".pdf") = false /\
  exists w',
    zip_pdfs [py "out"] (py "p_") upper_case_world = (Return tt, w') /\
    lookup [py "out"; py "p_reports.zip"] (Dir (tree w'))
    = Some (File (ZipArchive [(py "p_A.PDF", PdfDoc (py "t") [])])) /\
    stdout w' = [Zipped [py "out"; py "p_reports.zip"]].
Proof.
  split; [reflexivity|]. split; [reflexivity|].
  eexists. split; [vm_compute; reflexivity|]. split; reflexivity.
Qed.

Lemma get_entry_put_same x v es : get_entry x (put_entry x v es) = Some v.
Proof.
  induction es as [|[n y] es IH]; simpl.
  - now rewrite str_eqb_refl.
  - destruct (str_eqb n x) eqn:Hn; simpl; now rewrite Hn.
Qed.

Lemma get_entry_put_other x y v es :
  x <> y -> get_entry y (put_entry x v es) = get_entry y es.
Proof.
  intros Hne. induction es as [|[n z] es IH]; simpl.
  - destruct (str_eqb_spec x y); [contradiction|reflexivity].
  - destruct (str_eqb_spec n x) as [->|Hnx]; simpl.
    + destruct (str_eqb_spec x y); [contradiction|reflexivity].
    + destruct (str_eqb n y); [reflexivity|exact IH].
Qed.

Lemma get_entry_del_same x es : get_entry x (del_entry x es) = None.
Proof.
  induction es as [|[n y] es IH]; simpl; [reflexivity|].
  destruct (str_eqb n x) eqn:Hn; simpl; [exact IH|now rewrite Hn].
Qed.

Lemma get_entry_del_other x y es :
  x <> y -> get_entry y (del_entry x es) = get_entry y es.
Proof.
  intros Hne. induction es as [|[n z] es IH]; simpl; [reflexivity|].
  destruct (str_eqb_spec n x) as [->|Hnx]; simpl.
  - destruct (str_eqb_spec x y); [contradiction|exact IH].
  - destruct (str_eqb n y); [reflexivity|exact IH].
Qed.

Lemma get_entry_set_same x o es : get_entry x (set_entry x o es) = o.
Proof. destruct o; [apply get_entry_put_same|apply get_entry_del_same]. Qed.

Lemma get_entry_set_other x y o es :
  x <> y -> get_entry y (set_entry x o es) = get_entry y es.
Proof. destruct o; [apply get_entry_put_other|apply get_entry_del_other]. Qed.

Lemma lookup_dir_step a p t es :
  lookup (a :: p) (Dir t) = Some (Dir es) ->
  (p = [] /\ get_entry a t = Some (Dir es)) \/
  exists sub, get_entry a t = Some (Dir sub) /\ lookup p (Dir sub) = Some (Dir es).
Proof.
  cbn [lookup]. destruct (get_entry a t) as [[d|sub]|]; [| |discriminate].
  - destruct p; cbn [lookup]; discriminate.
  - intros Hl. right. now exists sub.
Qed.

Lemma update_snoc_cons a p x f t :
  update (a :: p ++ [x]) f t =
  match get_entry a t with
  | Some (Dir sub) =>
      do sub' <- update (p ++ [x]) f sub; Return (put_entry a (Dir sub') t)
  | Some (File _) => Raise NotADirectoryError
  | None => Raise FileNotFoundError
  end.
Proof. cbn [update]. destruct p; reflexivity. Qed.

Lemma update_cons2 a b q f t :
  update (a :: b :: q) f t =
  match get_entry a t with
  | Some (Dir sub) =>
      do sub' <- update (b :: q) f sub; Return (put_entry a (Dir sub') t)
  | Some (File _) => Raise NotADirectoryError
  | None => Raise FileNotFoundError
  end.
Proof. reflexivity. Qed.

Lemma lookup_cons a p t :
  lookup (a :: p) (Dir t) =
  match get_entry a t with
  | Some x => lookup p x
  | None => None
  end.
Proof. reflexivity. Qed.

(** Changing the entry [x] of the directory at [p]. *)
Lemma update_in_dir f x o' : forall p t es,
  lookup p (Dir t) = Some (Dir es) ->
  f (get_entry x es) = Return o' ->
  exists t', update (p ++ [x]) f t = Return t' /\
             lookup p (Dir t') = Some (Dir (set_entry x o' es)).
Proof.
  induction p as [|a p IH]; intros t es Hl Hf.
  - cbn [lookup] in Hl. inversion Hl; subst es.
    cbn [app update]. rewrite Hf. cbn [bind]. eexists; split; reflexivity.
  - change ((a :: p) ++ [x]) with (a :: p ++ [x]). rewrite update_snoc_cons.
    assert (Hsub : exists sub, get_entry a t = Some (Dir sub) /\
                               lookup p (Dir sub) = Some (Dir es)).
    { destruct (lookup_dir_step _ _ _ _ Hl) as [[-> Ha]|Hs]; [|exact Hs].
      exists es. split; [exact Ha|reflexivity]. }
    destruct Hsub as (sub & Ha & Hp). rewrite Ha.
    destruct (IH sub es Hp Hf) as (sub' & Hu & Hl').
    rewrite Hu. cbn [bind]. eexists; split; [reflexivity|].
    cbn [lookup]. rewrite get_entry_put_same. exact Hl'.
Qed.

Lemma update_raises_in_dir f x e : forall p t es,
  lookup p (Dir t) = Some (Dir es) ->
  f (get_entry x es) = Raise e ->
  update (p ++ [x]) f t = Raise e.
Proof.
  induction p as [|a p IH]; intros t es Hl Hf.
  - cbn [lookup] in Hl. inversion Hl; subst es.
    cbn [app update]. now rewrite Hf.
  - change ((a :: p) ++ [x]) with (a :: p ++ [x]). rewrite update_snoc_cons.
    assert (Hsub : exists sub, get_entry a t = Some (Dir sub) /\
                               lookup p (Dir sub) = Some (Dir es)).
    { destruct (lookup_dir_step _ _ _ _ Hl) as [[-> Ha]|Hs]; [|exact Hs].
      exists es. split; [exact Ha|reflexivity]. }
    destruct Hsub as (sub & Ha & Hp). rewrite Ha.
    now rewrite (IH sub es Hp Hf).
Qed.

Lemma lookup_snoc p x : forall n es,
  lookup p n = Some (Dir es) -> lookup (p ++ [x]) n = get_entry x es.
Proof.
  induction p as [|a p IH]; intros n es Hl.
  - cbn [lookup] in Hl. inversion Hl; subst n. cbn [app lookup].
    destruct (get_entry x es); reflexivity.
  - cbn [app lookup] in *. destruct n as [d|t]; [discriminate|].
    destruct (get_entry a t) as [y|]; [|discriminate]. now apply IH.
Qed.

Lemma archive_read_app name a b :
  archive_read name (a ++ b) =
  match archive_read name b with
  | Some d => Some d
  | None => archive_read name a
  end.
Proof.
  induction a as [|[n d] a IH]; simpl.
  - now destruct (archive_read name b).
  - rewrite IH. now destruct (archive_read name b).
Qed.

Lemma archive_read_none name members :
  (forall m, In m members -> fst m <> name) -> archive_read name members = None.
Proof.
  induction members as [|[n d] members IH]; intros Hall; simpl; [reflexivity|].
  rewrite IH by (intros m Hm; apply Hall; now right).
  destruct (str_eqb_spec n name) as [Heq|Hne]; [|reflexivity].
  exfalso. apply (Hall (n, d)); [now left|exact Heq].
Qed.

(** C6.  When at least one file below the output directory has a name that
    ends in [.pdf], [zip_pdfs] writes the archive [<prefix>reports.zip] into
    the output directory.  Its members are the documents found, each under
    the prefix followed by the file's own name, whatever directory it lies
    in; every document gives one member, also when names collide, and
    reading a name then yields the document written last.  The prefix is a
    file-name prefix (no path separator), and the archive's name is not
    taken by a directory. *)
Theorem zip_pdfs_bundles_documents output_dir prefix w es :
  lookup output_dir (Dir (tree w)) = Some (Dir es) ->
  (exists p name d, has_file (Dir es) p name d /\ is_pdf_name name = true) ->
  ~ In 47 prefix ->
  (forall sub, get_entry (zip_name prefix) es <> Some (Dir sub)) ->
  exists w',
    let docs := pdf_files output_dir (tree w) in
    let members := map (fun f => (prefix ++ snd (fst f), snd f)) docs in
    zip_pdfs output_dir prefix w = (Return tt, w') /\
    lookup (output_dir ++ [zip_name prefix]) (Dir (tree w')) =
      Some (File (ZipArchive members)) /\
    (forall dirpath name d,
       In (dirpath, name, d) docs <->
       is_pdf_name name = true /\
       exists p, dirpath = output_dir ++ p /\ has_file (Dir es) p name d) /\
    length members = length docs /\
    (forall before dirpath name d after,
       docs = before ++ (dirpath, name, d) :: after ->
       (forall f, In f after -> snd (fst f) <> name) ->
       archive_read (prefix ++ name) members = Some d).
Proof.
  intros Hdir (p & name & d & Hf & Hpdf) _ Hfree.
  set (docs := pdf_files output_dir (tree w)).
  set (members := map (fun f => (prefix ++ snd (fst f), snd f)) docs).
  assert (Hin : In (output_dir ++ p, name, d) docs).
  { apply (in_pdf_files _ _ _ _ _ _ Hdir). split; [exact Hpdf|]. now exists p. }
  assert (Hwrite : write_at (ZipArchive members) (get_entry (zip_name prefix) es) =
                   Return (Some (File (ZipArchive members)))).
  { destruct (get_entry (zip_name prefix) es) as [[d0|sub]|] eqn:He;
      try reflexivity. exfalso. now apply (Hfree sub). }
  destruct (update_in_dir _ _ _ _ _ _ Hdir Hwrite) as (t' & Hupd & Hl').
  exists (mk_world (cwd w) t' (stdout w ++ [Zipped (output_dir ++ [zip_name prefix])])
                   (requests w)).
  cbv zeta. fold docs. fold members. split; [|split; [|split; [|split]]].
  - unfold zip_pdfs. fold docs. destruct docs as [|f0 docs'] eqn:Hdocs; [destruct Hin|].
    unfold mbind, tree_update. fold members. rewrite Hupd. reflexivity.
  - cbn [tree]. rewrite (lookup_snoc _ _ _ _ Hl'). apply get_entry_set_same.
  - intros dirpath name' d'. apply (in_pdf_files _ _ _ _ _ _ Hdir).
  - unfold members. apply length_map.
  - intros before dirpath name' d' after Hsplit Hlast.
    unfold members. rewrite Hsplit, map_app, archive_read_app. cbn [map fst snd].
    cbn [archive_read]. rewrite archive_read_none.
    + now rewrite str_eqb_refl.
    + intros m Hm. apply in_map_iff in Hm. destruct Hm as (f & <- & Hfin).
      cbn [fst]. intros Heq. apply app_inv_head in Heq. exact (Hlast f Hfin Heq).
Qed.

Lemma zip_pdfs_bundles_documents_witness :
  exists w',
    let docs := pdf_files [py "out"] (tree two_documents_world) in
    let members := map (fun f => (py "p_" ++ snd (fst f), snd f)) docs in
    zip_pdfs [py "out"] (py "p_") two_documents_world = (Return tt, w') /\
    lookup ([py "out"] ++ [zip_name (py "p_")]) (Dir (tree w')) =
      Some (File (ZipArchive members)) /\
    (forall dirpath name d,
       In (dirpath, name, d) docs <->
       is_pdf_name name = true /\
       exists p, dirpath = [py "out"] ++ p /\ has_file (Dir two_documents) p name d) /\
    length members = length docs /\
    (forall before dirpath name d after,
       docs = before ++ (dirpath, name, d) :: after ->
       (forall f, In f after -> snd (fst f) <> name) ->
       archive_read (py "p_" ++ name) members = Some d).
Proof.
  apply (zip_pdfs_bundles_documents [py "out"] (py "p_") two_documents_world
           two_documents).
  - reflexivity.
  - exists [py "job_1"], (py "a.pdf"), (PdfDoc (py "first") []). split.
    + apply has_file_below with (x := Dir [(py "a.pdf", File (PdfDoc (py "first") []))]).
      * left. reflexivity.
      * apply has_file_here. left. reflexivity.
    + reflexivity.
  - vm_compute. intros [Heq|[Heq|[]]]; discriminate Heq.
  - intros sub. vm_compute. discriminate.
Defined.

(** ** JSON: numbers read back *)

Lemma span_digits_app l rest :
  number_end rest ->
  span_digits (l ++ rest) = (fst (span_digits l), snd (span_digits l) ++ rest).
Proof.
  intros Hend. induction l as [|c l IH]; cbn [app span_digits].
  - destruct rest as [|c rest]; [reflexivity|]. cbn [span_digits].
    destruct Hend as (Hd & _). now rewrite Hd.
  - destruct (is_digit c); [|reflexivity].
    rewrite IH. now destruct (span_digits l).
Qed.

Lemma span_digits_all ds :
  Forall (fun c => is_digit c = true) ds -> span_digits ds = (ds, []).
Proof.
  induction 1 as [|c ds Hc _ IH]; cbn [span_digits]; [reflexivity|].
  now rewrite Hc, IH.
Qed.

Lemma scan_sign_app l rest :
  number_end rest ->
  scan_sign (l ++ rest) = (fst (scan_sign l), snd (scan_sign l) ++ rest).
Proof.
  intros Hend. destruct l as [|c l]; cbn [app scan_sign].
  - destruct rest as [|c rest]; [reflexivity|]. cbn [scan_sign].
    destruct Hend as (_ & _ & _ & _ & H45 & _).
    destruct (Z.eqb_spec c 45); [contradiction|reflexivity].
  - destruct (c =? 45); reflexivity.
Qed.

Lemma scan_intpart_app l rest :
  number_end rest ->
  scan_intpart (l ++ rest) =
  match scan_intpart l with
  | Some (ip, r) => Some (ip, r ++ rest)
  | None => None
  end.
Proof.
  intros Hend. destruct l as [|c l].
  - cbn [app scan_intpart]. destruct rest as [|c rest]; [reflexivity|].
    cbn [scan_intpart]. destruct Hend as (Hd & _). rewrite Hd.
    destruct (Z.eqb_spec c 48) as [->|]; [discriminate Hd|reflexivity].
  - change ((c :: l) ++ rest) with (c :: l ++ rest). cbn [scan_intpart].
    destruct (c =? 48); [reflexivity|].
    destruct (is_digit c) eqn:Hc; [|reflexivity].
    change (c :: l ++ rest) with ((c :: l) ++ rest).
    rewrite (span_digits_app _ _ Hend). now destruct (span_digits (c :: l)).
Qed.

Lemma scan_frac_app l rest :
  number_end rest ->
  scan_frac (l ++ rest) = (fst (scan_frac l), snd (scan_frac l) ++ rest).
Proof.
  intros Hend. destruct l as [|c l].
  - cbn [app scan_frac]. destruct rest as [|c rest]; [reflexivity|].
    cbn [scan_frac]. destruct Hend as (_ & H46 & _).
    destruct (Z.eqb_spec c 46); [contradiction|reflexivity].
  - change ((c :: l) ++ rest) with (c :: l ++ rest). cbn [scan_frac].
    destruct (c =? 46); [|reflexivity].
    rewrite (span_digits_app _ _ Hend).
    destruct (span_digits l) as [[|d ds] r]; reflexivity.
Qed.

Lemma scan_exp_app l rest :
  number_end rest ->
  scan_exp (l ++ rest) = (fst (scan_exp l), snd (scan_exp l) ++ rest).
Proof.
  intros Hend. destruct l as [|c l].
  - cbn [app scan_exp]. destruct rest as [|c rest]; [reflexivity|].
    cbn [scan_exp]. destruct Hend as (_ & _ & H101 & H69 & _).
    destruct (Z.eqb_spec c 101); [contradiction|].
    destruct (Z.eqb_spec c 69); [contradiction|reflexivity].
  - change ((c :: l) ++ rest) with (c :: l ++ rest). cbn [scan_exp].
    destruct ((c =? 101) || (c =? 69)); [|reflexivity].
    destruct l as [|d l].
    + cbn [app]. destruct rest as [|d rest]; [reflexivity|].
      destruct Hend as (Hd & _ & _ & _ & H45 & H43).
      destruct (Z.eqb_spec d 45); [contradiction|].
      destruct (Z.eqb_spec d 43); [contradiction|]. cbn [orb].
      cbn [span_digits]. now rewrite Hd.
    + change ((d :: l) ++ rest) with (d :: l ++ rest).
      destruct ((d =? 45) || (d =? 43)) eqn:Hsign; rewrite ?Hsign.
      * rewrite (span_digits_app _ _ Hend).
        destruct (span_digits l) as [[|x ds] r]; reflexivity.
      * change (d :: l ++ rest) with ((d :: l) ++ rest).
        rewrite (span_digits_app _ _ Hend).
        destruct (span_digits (d :: l)) as [[|x ds] r]; reflexivity.
Qed.

(** Reading a number is not disturbed by what follows it. *)
Lemma scan_number_app l rest :
  number_end rest ->
  scan_number (l ++ rest) =
  match scan_number l with
  | Some (v, r) => Some (v, r ++ rest)
  | None => None
  end.
Proof.
  intros Hend. unfold scan_number.
  rewrite (scan_sign_app _ _ Hend). destruct (scan_sign l) as [sg s1]. cbn [fst snd].
  rewrite (scan_intpart_app _ _ Hend). destruct (scan_intpart s1) as [[ip s2]|]; [|reflexivity].
  rewrite (scan_frac_app _ _ Hend). destruct (scan_frac s2) as [fr s3]. cbn [fst snd].
  rewrite (scan_exp_app _ _ Hend). destruct (scan_exp s3) as [ex s4]. cbn [fst snd].
  destruct fr, ex; reflexivity.
Qed.

(** No leading zero in [str(n)]. *)
Lemma nat_digits_head fuel : forall n acc,
  0 < n < 2 ^ Z.of_nat fuel ->
  exists c tl, nat_digits fuel n acc = c :: tl /\ 49 <= c <= 57.
Proof.
  induction fuel as [|fuel IH]; intros n acc Hn.
  - simpl in Hn. lia.
  - cbn [nat_digits]. destruct (Z.ltb_spec n 10) as [Hlt|Hge].
    + eexists; eexists; split; [reflexivity|]. rewrite Z.mod_small by lia. lia.
    + apply IH. rewrite Nat2Z.inj_succ, Z.pow_succ_r in Hn by lia.
      split; [apply Z.div_str_pos; lia|apply Z.div_lt_upper_bound; lia].
Qed.

Lemma scan_intpart_str_of_nat n :
  0 <= n -> scan_intpart (str_of_nat n) = Some (str_of_nat n, []).
Proof.
  intros Hn. destruct (Z.eq_dec n 0) as [->|Hnz]; [reflexivity|].
  destruct (nat_digits_head (S (Z.to_nat (Z.log2 n))) n []) as (c & tl & Heq & Hc).
  { pose proof (log2_fuel n Hn). lia. }
  pose proof (str_of_nat_digits n Hn) as Hds. unfold str_of_nat in *.
  rewrite Heq in *. cbn [scan_intpart].
  destruct (Z.eqb_spec c 48); [lia|].
  inversion Hds; subst. rewrite H1. now rewrite span_digits_all.
Qed.

Lemma scan_number_str_of_int n :
  scan_number (str_of_int n) = Some (JInt n, []).
Proof.
  unfold str_of_int, scan_number. destruct (Z.ltb_spec n 0) as [Hneg|Hpos].
  - cbn [scan_sign]. change (45 =? 45) with true. cbv iota.
    rewrite scan_intpart_str_of_nat by lia. cbn [scan_frac scan_exp].
    rewrite str_of_nat_val by lia. f_equal. f_equal. f_equal. lia.
  - pose proof (str_of_nat_digits n Hpos) as Hds.
    pose proof (str_of_nat_nonempty n) as Hne.
    destruct (str_of_nat n) as [|c tl] eqn:Heq; [congruence|].
    cbn [scan_sign]. inversion Hds; subst.
    destruct (Z.eqb_spec c 45); [subst; discriminate|].
    rewrite <- Heq. rewrite scan_intpart_str_of_nat by lia.
    cbn [scan_frac scan_exp]. now rewrite str_of_nat_val.
Qed.

Lemma span_digits_spec s :
  Forall (fun c => is_digit c = true) (fst (span_digits s)) /\
  s = fst (span_digits s) ++ snd (span_digits s).
Proof.
  induction s as [|c s [IH1 IH2]]; cbn [span_digits]; [split; [constructor|reflexivity]|].
  destruct (is_digit c) eqn:Hc; [|split; [constructor|reflexivity]].
  destruct (span_digits s) as [ds r]. cbn [fst snd] in *. split.
  - now constructor.
  - cbn [app]. now f_equal.
Qed.

Lemma digits_number_chars ds :
  Forall (fun c => is_digit c = true) ds -> Forall (fun c => number_char c = true) ds.
Proof.
  apply Forall_impl. intros c Hc. unfold number_char. now rewrite Hc.
Qed.

(** A text that is a number as a whole consists of number characters and
    starts with a digit or the minus sign. *)
Lemma scan_number_whole s v :
  scan_number s = Some (v, []) ->
  Forall (fun c => number_char c = true) s /\
  exists c tl, s = c :: tl /\ (is_digit c = true \/ c = 45).
Proof.
  unfold scan_number.
  destruct (scan_sign s) as [sg s1] eqn:Hsg.
  destruct (scan_intpart s1) as [[ip s2]|] eqn:Hip; [|discriminate].
  destruct (scan_frac s2) as [fr s3] eqn:Hfr.
  destruct (scan_exp s3) as [ex s4] eqn:Hex.
  assert (Hsg' : (sg = [] \/ sg = [45]) /\ s = sg ++ s1).
  { unfold scan_sign in Hsg. destruct s as [|c s]; [inversion Hsg; auto|].
    destruct (Z.eqb_spec c 45) as [->|]; inversion Hsg; auto. }
  assert (Hip' : Forall (fun c => number_char c = true) ip /\
                 (exists c tl, ip = c :: tl /\ is_digit c = true) /\ s1 = ip ++ s2).
  { unfold scan_intpart in Hip. destruct s1 as [|c s1]; [discriminate|].
    destruct (Z.eqb_spec c 48) as [->|].
    - inversion Hip; subst. split; [repeat constructor|].
      split; [|reflexivity]. exists 48, []. split; reflexivity.
    - destruct (is_digit c) eqn:Hc; [|discriminate].
      pose proof (span_digits_spec (c :: s1)) as [Hds Hsplit].
      destruct (span_digits (c :: s1)) as [ip' s2'] eqn:Hspan.
      inversion Hip; subst ip' s2'. cbn [fst snd] in Hds, Hsplit.
      split; [now apply digits_number_chars|]. split; [|exact Hsplit].
      cbn [span_digits] in Hspan. rewrite Hc in Hspan.
      destruct (span_digits s1). inversion Hspan; subst.
      eexists; eexists; split; [reflexivity|exact Hc]. }
  assert (Hfr' : Forall (fun c => number_char c = true) fr /\ s2 = fr ++ s3).
  { unfold scan_frac in Hfr. destruct s2 as [|c s2]; [inversion Hfr; split; constructor|].
    destruct (Z.eqb_spec c 46) as [->|]; [|inversion Hfr; split; [constructor|reflexivity]].
    pose proof (span_digits_spec s2) as [Hd Hsplit].
    destruct (span_digits s2) as [[|d ds] r']; inversion Hfr; subst;
      [split; [constructor|reflexivity]|].
    cbn [fst snd] in *.
        split; [|first [reflexivity | cbn [app] in *; congruence]].
    constructor; [reflexivity|now apply digits_number_chars]. }
  assert (Hex' : Forall (fun c => number_char c = true) ex /\ s3 = ex ++ s4).
  { unfold scan_exp in Hex. destruct s3 as [|c s3]; [inversion Hex; split; constructor|].
    destruct ((c =? 101) || (c =? 69)) eqn:He;
      [|inversion Hex; split; [constructor|reflexivity]].
    assert (Hc : number_char c = true).
    { unfold number_char. apply orb_true_iff in He.
      destruct He as [->| ->]; rewrite ?orb_true_r; reflexivity. }
    destruct s3 as [|d s3].
    - cbn [span_digits] in Hex. inversion Hex; split; [constructor|reflexivity].
    - destruct ((d =? 45) || (d =? 43)) eqn:Hd.
      + pose proof (span_digits_spec s3) as [Hds Hsplit].
        destruct (span_digits s3) as [[|x ds] r']; inversion Hex; subst;
          [split; [constructor|reflexivity]|].
        cbn [fst snd] in *.
        split; [|first [reflexivity | cbn [app] in *; congruence]].
        constructor; [exact Hc|]. cbn [app]. constructor.
        * unfold number_char. apply orb_true_iff in Hd.
          destruct Hd as [->| ->]; rewrite ?orb_true_r; reflexivity.
        * now apply digits_number_chars.
      + pose proof (span_digits_spec (d :: s3)) as [Hds Hsplit].
        destruct (span_digits (d :: s3)) as [[|x ds] r']; inversion Hex; subst;
          [split; [constructor|reflexivity]|].
        cbn [fst snd] in *.
        split; [|first [reflexivity | cbn [app] in *; congruence]].
        constructor; [exact Hc|]. cbn [app]. now apply digits_number_chars. }
  destruct Hsg' as (Hsg' & ->). destruct Hip' as (Hipc & (c & tl & -> & Hc) & ->).
  destruct Hfr' as (Hfrc & ->). destruct Hex' as (Hexc & ->).
  intros Hres.
  assert (Hend : s4 = []) by (destruct fr, ex; inversion Hres; reflexivity).
  subst s4. split.
  - repeat (apply Forall_app; split); try assumption; try constructor.
    destruct Hsg' as [-> | ->]; repeat constructor.
  - destruct Hsg' as [-> | ->]; cbn [app].
    + eexists; eexists; split; [reflexivity|now left].
    + eexists; eexists; split; [reflexivity|now right].
Qed.

(** ** The limit on the digits of an [int] *)

Lemma int_too_long_app l rest :
  number_end rest -> int_too_long (l ++ rest) = int_too_long l.
Proof.
  intros Hend. unfold int_too_long.
  rewrite (scan_sign_app _ _ Hend). cbn [snd].
  rewrite (scan_intpart_app _ _ Hend).
  destruct (scan_intpart (snd (scan_sign l))) as [[ip s2]|]; [|reflexivity].
  rewrite (scan_frac_app _ _ Hend). cbn [fst snd].
  now rewrite (scan_exp_app _ _ Hend).
Qed.

Lemma int_too_long_str_of_int n :
  int_ok n = true -> int_too_long (str_of_int n) = None.
Proof.
  unfold int_ok, str_of_int, int_too_long. intros Hok.
  apply Nat.leb_le in Hok.
  destruct (Z.ltb_spec n 0) as [Hneg|Hpos].
  - cbn [scan_sign]. change (45 =? 45) with true. cbv iota. cbn [snd].
    rewrite scan_intpart_str_of_nat by lia. cbn [scan_frac scan_exp fst snd].
    replace (Z.abs n) with (- n) in Hok by lia.
    destruct (Nat.ltb_spec 4300 (length (str_of_nat (- n)))); [lia|reflexivity].
  - pose proof (str_of_nat_digits n Hpos) as Hds.
    pose proof (str_of_nat_nonempty n) as Hne.
    destruct (str_of_nat n) as [|c tl] eqn:Heq; [congruence|].
    cbn [scan_sign]. inversion Hds; subst.
    destruct (Z.eqb_spec c 45); [subst; discriminate|]. cbn [snd].
    rewrite <- Heq. rewrite scan_intpart_str_of_nat by lia.
    cbn [scan_frac scan_exp fst snd].
    replace (Z.abs n) with n in Hok by lia.
    destruct (Nat.ltb_spec 4300 (length (str_of_nat n))); [lia|reflexivity].
Qed.

Lemma int_too_long_float s t r :
  scan_number s = Some (JFloat t, r) -> int_too_long s = None.
Proof.
  unfold scan_number, int_too_long.
  destruct (scan_sign s) as [sg s1]. cbn [snd].
  destruct (scan_intpart s1) as [[ip s2]|]; [|discriminate].
  destruct (scan_frac s2) as [fr s3]. cbn [fst snd].
  destruct (scan_exp s3) as [ex s4]. cbn [fst].
  destruct fr, ex; try reflexivity. discriminate.
Qed.

(** ** JSON: strings read back *)

Lemma hex_val_hex_digit k : 0 <= k < 16 -> hex_val (hex_digit k) = Some k.
Proof.
  intros Hk. unfold hex_digit, hex_val.
  destruct (Z.ltb_spec k 10).
  - replace ((48 <=? 48 + k) && (48 + k <=? 57)) with true by lia. f_equal. lia.
  - replace ((48 <=? 87 + k) && (87 + k <=? 57)) with false by lia.
    replace ((97 <=? 87 + k) && (87 + k <=? 102)) with true by lia. f_equal. lia.
Qed.

Lemma hex4_val_hex4 n :
  0 <= n < 65536 ->
  hex4_val (hex_digit (n / 4096 mod 16)) (hex_digit (n / 256 mod 16))
           (hex_digit (n / 16 mod 16)) (hex_digit (n mod 16)) = Some n.
Proof.
  intros Hn. unfold hex4_val.
  rewrite !hex_val_hex_digit by (apply Z.mod_pos_bound; lia).
  f_equal. Z.div_mod_to_equations. lia.
Qed.

Lemma lor_shiftl_low h y k :
  0 <= k -> 0 <= y < 2 ^ k -> Z.lor (Z.shiftl h k) y = Z.shiftl h k + y.
Proof.
  intros Hk Hy.
  assert (Hland : Z.land (Z.shiftl h k) y = 0).
  { apply Z.bits_inj'. intros i Hi. rewrite Z.land_spec, Z.bits_0.
    destruct (Z.lt_ge_cases i k) as [Hlt|Hge].
    - rewrite Z.shiftl_spec_low by assumption. reflexivity.
    - rewrite <- (Z.mod_small y (2 ^ k)) by assumption.
      rewrite Z.mod_pow2_bits_high by lia. apply andb_false_r. }
  rewrite <- (Z.lxor_lor _ _ Hland). symmetry. now apply Z.add_nocarry_lxor.
Qed.

(** The two halves [escape_char] writes for a code point beyond the basic
    plane, and their reunion in [scanstring]. *)
Lemma surrogate_halves c :
  65536 <= c <= 1114111 ->
  let n := c - 65536 in
  Z.lor 55296 (Z.land (Z.shiftr n 10) 1023) = 55296 + n / 1024 /\
  Z.lor 56320 (Z.land n 1023) = 56320 + n mod 1024 /\
  0 <= n / 1024 < 1024.
Proof.
  intros Hc n.
  assert (Hn : 0 <= n < 1048576) by (unfold n; lia).
  assert (Hq : 0 <= n / 1024 < 1024).
  { split; [apply Z.div_pos; lia|apply Z.div_lt_upper_bound; lia]. }
  change 1023 with (Z.ones 10). rewrite !Z.land_ones by lia.
  rewrite Z.shiftr_div_pow2 by lia. change (2 ^ 10) with 1024.
  rewrite (Z.mod_small (n / 1024)) by lia.
  change 55296 with (Z.shiftl 54 10). change 56320 with (Z.shiftl 55 10).
  assert (Hr : 0 <= n mod 1024 < 2 ^ 10)
    by (change (2 ^ 10) with 1024; apply Z.mod_pos_bound; lia).
  assert (Hq' : 0 <= n / 1024 < 2 ^ 10) by (change (2 ^ 10) with 1024; lia).
  rewrite (lor_shiftl_low 54 _ 10) by (assumption || lia).
  rewrite (lor_shiftl_low 55 _ 10) by (assumption || lia).
  auto.
Qed.

Lemma join_surrogates_halves n :
  0 <= n < 1048576 ->
  join_surrogates (55296 + n / 1024) (56320 + n mod 1024) = 65536 + n.
Proof.
  intros Hn. unfold join_surrogates.
  replace (55296 + n / 1024 - 55296) with (n / 1024) by lia.
  replace (56320 + n mod 1024 - 56320) with (n mod 1024) by lia.
  rewrite lor_shiftl_low; [| lia | change (2 ^ 10) with 1024; apply Z.mod_pos_bound; lia].
  rewrite Z.shiftl_mul_pow2 by lia. change (2 ^ 10) with 1024.
  pose proof (Z.div_mod n 1024). lia.
Qed.

Lemma scanstring_plain c s :
  32 <= c -> c <> 34 -> c <> 92 ->
  scanstring (c :: s) = prepend c (scanstring s).
Proof.
  intros H32 H34 H92. cbn [scanstring].
  destruct (Z.eqb_spec c 34); [contradiction|].
  destruct (Z.eqb_spec c 92); [contradiction|].
  destruct (Z.ltb_spec c 32); [lia|reflexivity].
Qed.

Lemma scanstring_letter e c' s :
  unescape e = Some c' ->
  scanstring (92 :: e :: s) = prepend c' (scanstring s).
Proof.
  intros He. cbn [scanstring]. change (92 =? 34) with false.
  change (92 =? 92) with true. cbv iota.
  destruct (Z.eqb_spec e 117) as [->|]; [discriminate He|].
  now rewrite He.
Qed.

Lemma scanstring_unicode uni h1 h2 h3 h4 s3 :
  hex4_val h1 h2 h3 h4 = Some uni ->
  is_high_surrogate uni = false \/ no_low_escape s3 ->
  scanstring (92 :: 117 :: h1 :: h2 :: h3 :: h4 :: s3) = prepend uni (scanstring s3).
Proof.
  intros Hhex Hnext. cbn [scanstring]. change (92 =? 34) with false.
  change (92 =? 92) with true. change (117 =? 117) with true. cbv iota.
  rewrite Hhex. destruct (is_high_surrogate uni) eqn:Hhigh; [|reflexivity].
  destruct Hnext as [Hf|Hnext]; [discriminate|].
  destruct s3 as [|b [|u [|g1 [|g2 [|g3 [|g4 s4]]]]]]; try reflexivity.
  destruct (Z.eqb_spec b 92) as [->|]; [|reflexivity].
  destruct (Z.eqb_spec u 117) as [->|]; [|reflexivity]. cbn [andb].
  destruct (Hnext g1 g2 g3 g4 s4 eq_refl) as (uni2 & -> & ->). reflexivity.
Qed.

Lemma scanstring_pair hi lo h1 h2 h3 h4 g1 g2 g3 g4 s4 :
  hex4_val h1 h2 h3 h4 = Some hi -> is_high_surrogate hi = true ->
  hex4_val g1 g2 g3 g4 = Some lo -> is_low_surrogate lo = true ->
  scanstring (92 :: 117 :: h1 :: h2 :: h3 :: h4
                :: 92 :: 117 :: g1 :: g2 :: g3 :: g4 :: s4) =
  prepend (join_surrogates hi lo) (scanstring s4).
Proof.
  intros Hh Hhi Hg Hlo. cbn [scanstring]. change (92 =? 34) with false.
  change (92 =? 92) with true. change (117 =? 117) with true. cbv iota.
  rewrite Hh, Hhi. cbn [andb]. now rewrite Hg, Hlo.
Qed.

Lemma str_ok_cons c s :
  str_ok (c :: s) = true ->
  0 <= c <= 1114111 /\
  (is_high_surrogate c = true ->
   match s with d :: _ => is_low_surrogate d = false | [] => True end) /\
  str_ok s = true.
Proof.
  cbn [str_ok]. rewrite !andb_true_iff, negb_true_iff, andb_false_iff.
  intros [[[Hlo Hhi] Hpair] Hs]. split; [lia|]. split; [|exact Hs].
  intros Hhigh. destruct Hpair as [Hh|Hl]; [congruence|].
  destruct s; [exact I|exact Hl].
Qed.

Lemma escape_char_shape c : 0 <= c <= 1114111 -> escape_shape c (escape_char c).
Proof.
  intros Hc. unfold escape_char.
  destruct (Z.eqb_spec c 92) as [->|]; [now apply shape_letter|].
  destruct (Z.eqb_spec c 34) as [->|]; [now apply shape_letter|].
  destruct (Z.leb_spec 32 c); cbn [andb].
  { destruct (Z.leb_spec c 126); [now apply shape_plain|].
    destruct (Z.eqb_spec c 8); [lia|]. destruct (Z.eqb_spec c 12); [lia|].
    destruct (Z.eqb_spec c 10); [lia|]. destruct (Z.eqb_spec c 13); [lia|].
    destruct (Z.eqb_spec c 9); [lia|].
    destruct (Z.ltb_spec c 65536).
    - apply shape_unicode. lia.
    - destruct (surrogate_halves c) as (Hhalf1 & Hhalf2 & _); [lia|].
      cbv zeta. rewrite Hhalf1, Hhalf2. unfold hex4. cbn [app]. now apply shape_pair. }
  destruct (Z.eqb_spec c 8) as [->|]; [now apply shape_letter|].
  destruct (Z.eqb_spec c 12) as [->|]; [now apply shape_letter|].
  destruct (Z.eqb_spec c 10) as [->|]; [now apply shape_letter|].
  destruct (Z.eqb_spec c 13) as [->|]; [now apply shape_letter|].
  destruct (Z.eqb_spec c 9) as [->|]; [now apply shape_letter|].
  destruct (Z.ltb_spec c 65536); [|lia].
  apply shape_unicode. lia.
Qed.

Lemma no_low_escape_escaped s rest :
  str_ok s = true ->
  match s with d :: _ => is_low_surrogate d = false | [] => True end ->
  no_low_escape (flat_map escape_char s ++ 34 :: rest).
Proof.
  intros Hok Hfirst g1 g2 g3 g4 s4 Heq. destruct s as [|d s]; [discriminate Heq|].
  apply str_ok_cons in Hok. destruct Hok as (Hd & _ & _).
  cbn [flat_map] in Heq. rewrite <- app_assoc in Heq.
  destruct (escape_char_shape d Hd) as [H32 H34 H92|e He Hne|Hlt|hi lo Hge Hhi Hlo];
    cbn [app] in Heq.
  - inversion Heq. contradiction.
  - inversion Heq. contradiction.
  - inversion Heq; subst. exists d. split; [apply hex4_val_hex4; lia|exact Hfirst].
  - inversion Heq; subst.
    assert (0 <= (d - 65536) / 1024 < 1024).
    { split; [apply Z.div_pos; lia|apply Z.div_lt_upper_bound; lia]. }
    eexists. split; [apply hex4_val_hex4; lia|].
    unfold is_low_surrogate. lia.
Qed.

(** [scanstring] reads back what [encode_string] wrote. *)
Lemma scanstring_escaped s : forall rest,
  str_ok s = true ->
  scanstring (flat_map escape_char s ++ 34 :: rest) = Some (s, rest).
Proof.
  induction s as [|c s IH]; intros rest Hok.
  - cbn [flat_map app scanstring]. reflexivity.
  - pose proof Hok as Hok'. apply str_ok_cons in Hok'.
    destruct Hok' as (Hc & Hpair & Hs).
    cbn [flat_map]. rewrite <- app_assoc.
    destruct (escape_char_shape c Hc) as [H32 H34 H92|e He Hne|Hlt|hi lo Hge Hhi Hlo];
      cbn [app].
    + rewrite scanstring_plain by assumption. now rewrite IH.
    + rewrite (scanstring_letter e c) by assumption. now rewrite IH.
    + rewrite (scanstring_unicode c).
      * now rewrite IH.
      * apply hex4_val_hex4. lia.
      * destruct (is_high_surrogate c) eqn:Hhigh; [right|now left].
        apply no_low_escape_escaped; [exact Hs|now apply Hpair].
    + assert (0 <= (c - 65536) / 1024 < 1024).
      { split; [apply Z.div_pos; lia|apply Z.div_lt_upper_bound; lia]. }
      pose proof (Z.mod_pos_bound (c - 65536) 1024).
      rewrite (scanstring_pair hi lo).
      * rewrite IH by exact Hs. cbn [prepend]. subst hi lo.
        rewrite join_surrogates_halves by lia. do 3 f_equal. lia.
      * apply hex4_val_hex4. lia.
      * unfold is_high_surrogate. lia.
      * apply hex4_val_hex4. lia.
      * unfold is_low_surrogate. lia.
Qed.

(** ** JSON: values read back *)


#[local] Arguments newline_indent : simpl never.

Lemma skip_ws_spaces k s : skip_ws (repeat 32 k ++ s) = skip_ws s.
Proof. induction k as [|k IH]; [reflexivity|exact IH]. Qed.

Lemma skip_ws_newline_indent level s : skip_ws (newline_indent level ++ s) = skip_ws s.
Proof. unfold newline_indent. cbn [app skip_ws]. apply skip_ws_spaces. Qed.

Lemma value_head_facts c :
  value_head c = true ->
  is_ws c = false /\ c <> 93 /\ c <> 125 /\ c <> 44 /\ c <> 32 /\ c <> 38
  /\ c <> 10 /\ c <> 65279 /\ c <> 58.
Proof. unfold value_head, is_ws, is_digit. lia. Qed.

Lemma skip_ws_value s : starts_with_value s -> skip_ws s = s.
Proof.
  intros (c & tl & -> & Hc). apply value_head_facts in Hc.
  destruct Hc as (Hws & _). cbn [skip_ws]. now rewrite Hws.
Qed.

Lemma starts_with_value_app s t : starts_with_value s -> starts_with_value (s ++ t).
Proof. intros (c & tl & -> & Hc). exists c, (tl ++ t). split; [reflexivity|exact Hc]. Qed.

Lemma str_of_int_head n :
  exists c tl, str_of_int n = c :: tl /\ (is_digit c = true \/ c = 45).
Proof.
  unfold str_of_int. destruct (Z.ltb_spec n 0).
  - eexists; eexists; split; [reflexivity|now right].
  - pose proof (str_of_nat_digits n H) as Hds.
    pose proof (str_of_nat_nonempty n) as Hne.
    destruct (str_of_nat n) as [|c tl]; [congruence|].
    inversion Hds; subst. eexists; eexists; split; [reflexivity|now left].
Qed.

(** The three shapes of a [float] text. *)
Lemma float_ok_cases text :
  float_ok text = true ->
  text = py "NaN" \/ text = py "Infinity" \/ text = py "-Infinity" \/
  scan_number text = Some (JFloat text, []).
Proof.
  unfold float_ok. rewrite !orb_true_iff, !str_eqb_eq.
  intros [[[H|H]|H]|H]; auto.
  right; right; right.
  destruct (scan_number text) as [[[| | |text'| | |] [|c r]]|]; try discriminate.
  apply str_eqb_eq in H. now subst.
Qed.

Lemma float_head text :
  float_ok text = true ->
  exists c tl, text = c :: tl /\ (is_digit c = true \/ c = 45 \/ c = 78 \/ c = 73).
Proof.
  intros Hok. destruct (float_ok_cases text Hok) as [->|[->|[->|Hscan]]].
  - eexists; eexists; split; [reflexivity|auto].
  - eexists; eexists; split; [reflexivity|auto].
  - eexists; eexists; split; [reflexivity|auto].
  - destruct (scan_number_whole _ _ Hscan) as (_ & c & tl & -> & Hc).
    exists c, tl. split; [reflexivity|tauto].
Qed.

Lemma encode_head v level : json_ok v = true -> starts_with_value (encode level v).
Proof.
  intros Hok. destruct v as [|[|]|n|t|s|[|x xs]|[|kv kvs]]; cbn [encode]; py_norm;
    try (eexists; eexists; split; [reflexivity|reflexivity]).
  - destruct (str_of_int_head n) as (c & tl & -> & [Hc| ->]);
      exists c, tl || exists 45, tl; (split; [reflexivity|]).
    + unfold value_head. now rewrite Hc.
    + reflexivity.
  - destruct (float_head t Hok) as (c & tl & -> & Hc). exists c, tl.
    split; [reflexivity|]. unfold value_head.
    destruct Hc as [Hc|[->|[->| ->]]]; [now rewrite Hc|reflexivity..].
Qed.

Lemma number_end_comma s : number_end (44 :: s).
Proof. cbn. repeat split; discriminate. Qed.

Lemma number_end_newline s : number_end (10 :: s).
Proof. cbn. repeat split; discriminate. Qed.

(** A value that starts with a digit or a minus sign is read as a number. *)
Lemma scan_once_number fuel c s r :
  is_digit c = true \/ c = 45 ->
  scan_number (c :: s) = Some r ->
  int_too_long (c :: s) = None ->
  scan_once (S fuel) (c :: s) = Return r.
Proof.
  intros Hc Hnum Hlimit. cbn [scan_once].
  assert (Hne : c <> 34 /\ c <> 123 /\ c <> 91 /\ c <> 110 /\ c <> 116 /\ c <> 102)
    by (unfold is_digit in Hc; lia).
  destruct Hne as (H34 & H123 & H91 & H110 & H116 & H102).
  destruct (Z.eqb_spec c 34); [contradiction|].
  destruct (Z.eqb_spec c 123); [contradiction|].
  destruct (Z.eqb_spec c 91); [contradiction|].
  py_norm. cbn [startswith].
  destruct (Z.eqb_spec c 110); [contradiction|].
  destruct (Z.eqb_spec c 116); [contradiction|].
  destruct (Z.eqb_spec c 102); [contradiction|]. cbn [andb].
  now rewrite Hnum, Hlimit.
Qed.

Lemma scan_once_float fuel text rest :
  float_ok text = true -> number_end rest ->
  scan_once (S fuel) (text ++ rest) = Return (JFloat text, rest).
Proof.
  intros Hok Hend. destruct (float_ok_cases text Hok) as [->|[->|[->|Hscan]]];
    try (py_norm; reflexivity).
  destruct (scan_number_whole _ _ Hscan) as (_ & c & tl & Heq & Hc).
  pose proof (scan_number_app text rest Hend) as Happ. rewrite Hscan in Happ.
  pose proof (int_too_long_float _ _ _ Happ) as Hlimit.
  subst text. cbn [app] in *. now apply scan_once_number.
Qed.

Lemma scan_once_int fuel n rest :
  int_ok n = true ->
  number_end rest ->
  scan_once (S fuel) (str_of_int n ++ rest) = Return (JInt n, rest).
Proof.
  intros Hok Hend. pose proof (scan_number_app (str_of_int n) rest Hend) as Happ.
  rewrite scan_number_str_of_int in Happ.
  pose proof (int_too_long_app (str_of_int n) rest Hend) as Hlimit.
  rewrite (int_too_long_str_of_int n Hok) in Hlimit.
  destruct (str_of_int_head n) as (c & tl & Heq & Hc). rewrite Heq in *.
  cbn [app] in *. now apply scan_once_number.
Qed.

Lemma scan_once_string fuel s rest :
  str_ok s = true ->
  scan_once (S fuel) (encode_string s ++ rest) = Return (JStr s, rest).
Proof.
  intros Hok. unfold encode_string. cbn [app scan_once].
  change (34 =? 34) with true. cbv iota.
  rewrite <- app_assoc. cbn [app]. now rewrite scanstring_escaped.
Qed.

Lemma join_cons2 sep x y l : join sep (x :: y :: l) = x ++ sep ++ join sep (y :: l).
Proof. reflexivity. Qed.

Lemma join_single sep x : join sep [x] = x.
Proof. reflexivity. Qed.

Lemma join_starts_with_value sep x l :
  starts_with_value x -> starts_with_value (join sep (x :: l)).
Proof.
  intros Hx. destruct l as [|y l]; [exact Hx|].
  rewrite join_cons2. now apply starts_with_value_app.
Qed.

Lemma skip_ws_stop c s : is_ws c = false -> skip_ws (c :: s) = c :: s.
Proof. intros Hc. cbn [skip_ws]. now rewrite Hc. Qed.

Lemma skip_ws_space s : skip_ws (32 :: s) = skip_ws s.
Proof. reflexivity. Qed.

Lemma skip_ws_closing level c rest :
  is_ws c = false -> skip_ws (newline_indent level ++ c :: rest) = c :: rest.
Proof. intros Hc. rewrite skip_ws_newline_indent. now apply skip_ws_stop. Qed.

Lemma newline_indent_length level : (1 <= length (newline_indent level))%nat.
Proof. unfold newline_indent. cbn [length]. lia. Qed.

(** The loop of [JSONArray] on the items of an encoded list. *)
Lemma array_items_encoded items :
  items <> [] ->
  Forall (fun x => json_ok x = true /\ reads_back x) items ->
  forall level closing fuel rest,
    (length (join (44%Z :: newline_indent level) (map (encode level) items)) < fuel)%nat ->
    array_items fuel
      (join (44 :: newline_indent level) (map (encode level) items)
         ++ newline_indent closing ++ 93 :: rest) = Return (items, rest).
Proof.
  induction items as [|x xs IH]; [congruence|]. intros _ Hall.
  inversion Hall as [|x' xs' [Hok Hx] Hxs]; subst.
  intros level closing fuel rest Hfuel. destruct fuel as [|fuel]; [lia|].
  destruct xs as [|y ys].
  - cbn [map] in *. rewrite join_single in *. cbn [array_items].
    rewrite (Hx level fuel) by (lia || apply number_end_newline).
    rewrite skip_ws_closing by reflexivity.
    change (93 =? 93) with true. reflexivity.
  - cbn [map] in *. rewrite join_cons2 in *. rewrite <- !app_assoc.
    rewrite !length_app in Hfuel. cbn [length] in Hfuel.
    cbn [array_items app]. rewrite (Hx level fuel) by (lia || apply number_end_comma).
    rewrite (skip_ws_stop 44) by reflexivity.
    change (44 =? 93) with false. change (44 =? 44) with true. cbv iota.
    rewrite skip_ws_newline_indent.
    assert (Hhead : starts_with_value
              (join (44 :: newline_indent level) (encode level y :: map (encode level) ys))).
    { apply join_starts_with_value, encode_head.
      inversion Hxs as [|y' ys' [Hy _] _]; subst. exact Hy. }
    rewrite skip_ws_value by now apply starts_with_value_app.
    change (encode level y :: map (encode level) ys) with (map (encode level) (y :: ys)).
    rewrite IH; [reflexivity|discriminate|exact Hxs|].
    cbn [map]. lia.
Qed.

Lemma encode_item_quote level kv :
  encode_item level kv =
  34 :: flat_map escape_char (fst kv) ++ 34 :: 58 :: 32 :: encode level (snd kv).
Proof.
  unfold encode_item, encode_string. py_norm. cbn [app].
  now rewrite <- app_assoc.
Qed.

Lemma join_items_head sep level kv parts :
  exists t, join sep (encode_item level kv :: parts) = 34 :: t.
Proof.
  rewrite encode_item_quote.
  destruct parts; [rewrite join_single|rewrite join_cons2]; eexists; reflexivity.
Qed.

(** The loop of [JSONObject] on the items of an encoded dict, from just
    after the opening quote of the first key. *)
Lemma object_items_encoded items :
  items <> [] ->
  Forall (fun kv => str_ok (fst kv) = true /\ json_ok (snd kv) = true
                    /\ reads_back (snd kv)) items ->
  forall level closing fuel rest t,
    join (44 :: newline_indent level) (map (encode_item level) items) = 34 :: t ->
    (length (34%Z :: t) < fuel)%nat ->
    object_items fuel (t ++ newline_indent closing ++ 125 :: rest) = Return (items, rest).
Proof.
  induction items as [|[k v] more IH]; [congruence|]. intros _ Hall.
  inversion Hall as [|kv' more' (Hk & Hok & Hv) Hmore]; subst. cbn [fst snd] in *.
  intros level closing fuel rest t Ht Hfuel. destruct fuel as [|fuel]; [lia|].
  destruct more as [|kv2 more].
  - cbn [map] in Ht. rewrite join_single, encode_item_quote in Ht. cbn [fst snd] in Ht.
    apply (f_equal (@tl Z)) in Ht. cbn [tl] in Ht. subst t.
    cbn [length] in Hfuel. rewrite !length_app in Hfuel. cbn [length] in Hfuel.
    rewrite <- app_assoc. cbn [app object_items].
    rewrite scanstring_escaped by exact Hk.
    rewrite (skip_ws_stop 58) by reflexivity.
    change (58 =? 58) with true. cbv iota. rewrite skip_ws_space.
    rewrite skip_ws_value by (apply starts_with_value_app; now apply encode_head).
    rewrite (Hv level fuel) by (lia || apply number_end_newline).
    rewrite skip_ws_closing by reflexivity.
    change (125 =? 125) with true. reflexivity.
  - cbn [map] in Ht. rewrite join_cons2, encode_item_quote in Ht. cbn [fst snd] in Ht.
    destruct (join_items_head (44 :: newline_indent level) level kv2
                (map (encode_item level) more)) as (t2 & Hjoin).
    rewrite Hjoin in Ht.
    cbn [app] in Ht. rewrite <- !app_assoc in Ht. cbn [app] in Ht.
    apply (f_equal (@tl Z)) in Ht. cbn [tl] in Ht. subst t.
    cbn [length] in Hfuel. rewrite !length_app in Hfuel. cbn [length] in Hfuel.
    rewrite !length_app in Hfuel. cbn [length] in Hfuel.
    rewrite <- !app_assoc. cbn [app object_items].
    rewrite scanstring_escaped by exact Hk.
    rewrite (skip_ws_stop 58) by reflexivity.
    change (58 =? 58) with true. cbv iota. rewrite skip_ws_space.
    rewrite <- !app_assoc.
    rewrite skip_ws_value by (apply starts_with_value_app; now apply encode_head).
    cbn [app]. rewrite (Hv level fuel) by (lia || apply number_end_comma).
    rewrite (skip_ws_stop 44) by reflexivity.
    change (44 =? 125) with false. change (44 =? 44) with true. cbv iota.
    rewrite <- ?app_assoc. rewrite skip_ws_newline_indent. cbn [app].
    rewrite (skip_ws_stop 34) by reflexivity.
    change (34 =? 34) with true. cbv iota.
    change (encode_item level kv2 :: map (encode_item level) more)
      with (map (encode_item level) (kv2 :: more)) in Hjoin.
    rewrite (IH ltac:(discriminate) Hmore level closing fuel rest t2 Hjoin);
      [reflexivity|].
    rewrite !length_app in Hfuel. cbn [length] in *. lia.
Qed.

Lemma dict_set_fresh k v d :
  existsb (str_eqb k) (map fst d) = false -> dict_set k v d = d ++ [(k, v)].
Proof.
  induction d as [|[k' v'] d IH]; cbn [dict_set map fst existsb app]; [reflexivity|].
  intros Hfresh. apply orb_false_iff in Hfresh. destruct Hfresh as [Hk Hd].
  destruct (str_eqb_spec k' k) as [->|_].
  - now rewrite str_eqb_refl in Hk.
  - now rewrite IH.
Qed.

Lemma existsb_app_false {A} (f : A -> bool) a b :
  existsb f (a ++ b) = false <-> existsb f a = false /\ existsb f b = false.
Proof. rewrite existsb_app. apply orb_false_iff. Qed.

Lemma str_eqb_sym a b : str_eqb a b = str_eqb b a.
Proof.
  destruct (str_eqb_spec a b) as [->|Hne].
  - now rewrite str_eqb_refl.
  - symmetry. apply str_eqb_neq. congruence.
Qed.

(** [dict(pairs)] changes nothing when the keys are distinct. *)
Lemma dict_of_pairs_distinct items : forall acc,
  distinct (map fst items) = true ->
  (forall kv, In kv items -> existsb (str_eqb (fst kv)) (map fst acc) = false) ->
  fold_left (fun d kv => dict_set (fst kv) (snd kv) d) items acc = acc ++ items.
Proof.
  induction items as [|[k v] items IH]; intros acc Hdist Hfresh; cbn [fold_left].
  - now rewrite app_nil_r.
  - cbn [map fst distinct] in Hdist. apply andb_true_iff in Hdist.
    destruct Hdist as [Hk Hdist]. apply negb_true_iff in Hk.
    cbn [fst snd]. rewrite dict_set_fresh by (apply (Hfresh (k, v)); now left).
    rewrite IH; [now rewrite <- app_assoc|exact Hdist|].
    intros kv Hin. rewrite map_app. apply existsb_app_false. split.
    + apply Hfresh. now right.
    + cbn [map fst existsb]. rewrite orb_false_r.
      destruct (str_eqb_spec (fst kv) k) as [Heq|]; [|reflexivity].
      exfalso. assert (Hex : existsb (str_eqb k) (map fst items) = true).
      { apply existsb_exists. exists (fst kv). split; [now apply in_map|].
        rewrite Heq. apply str_eqb_refl. }
      congruence.
Qed.

Lemma dict_of_pairs_id items :
  distinct (map fst items) = true -> dict_of_pairs items = items.
Proof.
  intros Hdist. unfold dict_of_pairs.
  now rewrite dict_of_pairs_distinct by (assumption || reflexivity).
Qed.

Lemma forallb_Forall_and {A} (f : A -> bool) (P : A -> Prop) l :
  forallb f l = true -> Forall (fun x => f x = true -> P x) l ->
  Forall (fun x => f x = true /\ P x) l.
Proof.
  induction l as [|x l IH]; intros Hf Hall; [constructor|].
  cbn [forallb] in Hf. apply andb_true_iff in Hf. destruct Hf as [Hx Hl].
  inversion Hall; subst. constructor; [split; auto|auto].
Qed.

(** The decoder reads back, as the same value, what the encoder writes. *)
Lemma encode_reads_back v : json_ok v = true -> reads_back v.
Proof.
  induction v as [|b|n|t|s|items IH|items IH] using json_nested_ind;
    intros Hok level fuel rest Hfuel Hend.
  - cbn [encode] in *. destruct fuel as [|fuel]; [cbn in Hfuel; lia|].
    py_norm. reflexivity.
  - cbn [encode] in *. destruct fuel as [|fuel]; [destruct b; cbn in Hfuel; lia|].
    destruct b; py_norm; reflexivity.
  - cbn [encode] in *. destruct fuel as [|fuel].
    + destruct (str_of_int_head n) as (c & tl & Heq & _). rewrite Heq in Hfuel.
      cbn in Hfuel. lia.
    + now apply scan_once_int.
  - cbn [encode json_ok] in *. destruct fuel as [|fuel].
    + destruct (float_head t Hok) as (c & tl & Heq & _). rewrite Heq in Hfuel.
      cbn in Hfuel. lia.
    + now apply scan_once_float.
  - cbn [encode json_ok] in *. destruct fuel as [|fuel].
    + unfold encode_string in Hfuel. cbn in Hfuel. lia.
    + now apply scan_once_string.
  - cbn [json_ok] in Hok. destruct items as [|x xs].
    { cbn [encode] in *. destruct fuel as [|fuel]; [cbn in Hfuel; lia|].
      py_norm. reflexivity. }
    assert (Hall := forallb_Forall_and _ _ _ Hok IH). clear IH.
    cbn [encode] in *. py_norm. py_norm_in Hfuel. cbn [app] in *.
    rewrite <- !app_assoc. cbn [app].
    destruct fuel as [|fuel]; [cbn in Hfuel; lia|].
    cbn [length] in Hfuel. rewrite !length_app in Hfuel.
    pose proof (newline_indent_length (S level)).
    cbn [scan_once]. change (91 =? 34) with false. change (91 =? 123) with false.
    change (91 =? 91) with true. cbv iota.
    rewrite skip_ws_newline_indent.
    assert (Hhead : starts_with_value
              (join (44 :: newline_indent (S level)) (map (encode (S level)) (x :: xs)))).
    { cbn [map]. apply join_starts_with_value, encode_head.
      inversion Hall as [|x' xs' [Hx _] _]; subst. exact Hx. }
    rewrite skip_ws_value by now apply starts_with_value_app.
    pose proof Hhead as (c & tl & HJ & Hc). apply value_head_facts in Hc.
    destruct Hc as (_ & H93 & _).
    rewrite HJ. cbn [app]. destruct (Z.eqb_spec c 93); [contradiction|].
    change (c :: tl ++ newline_indent level ++ 93 :: rest)
      with ((c :: tl) ++ newline_indent level ++ 93 :: rest).
    rewrite <- HJ. rewrite array_items_encoded; [reflexivity|discriminate|exact Hall|lia].
  - cbn [json_ok] in Hok. apply andb_true_iff in Hok. destruct Hok as [Hdist Hok].
    destruct items as [|kv kvs].
    { cbn [encode] in *. destruct fuel as [|fuel]; [cbn in Hfuel; lia|].
      py_norm. reflexivity. }
    assert (Hall : Forall (fun kv => str_ok (fst kv) = true /\ json_ok (snd kv) = true
                                     /\ reads_back (snd kv)) (kv :: kvs)).
    { clear - Hok IH. induction IH as [|y l Hy _ IHl]; [constructor|].
      cbn [forallb] in Hok. apply andb_true_iff in Hok. destruct Hok as [Hy' Hl].
      apply andb_true_iff in Hy'. destruct Hy' as [Hk Hv].
      constructor; [auto|auto]. }
    clear IH. cbn [encode] in *.
    change (map (fun kv0 => encode_string (fst kv0) ++ py ": "
                              ++ encode (S level) (snd kv0)) (kv :: kvs))
      with (map (encode_item (S level)) (kv :: kvs)) in *.
    py_norm. py_norm_in Hfuel. cbn [app] in *.
    rewrite <- !app_assoc. cbn [app].
    destruct fuel as [|fuel]; [cbn in Hfuel; lia|].
    cbn [length] in Hfuel. rewrite !length_app in Hfuel.
    pose proof (newline_indent_length (S level)).
    cbn [scan_once]. change (123 =? 34) with false. change (123 =? 123) with true.
    cbv iota. rewrite skip_ws_newline_indent.
    destruct (join_items_head (44 :: newline_indent (S level)) (S level) kv
                (map (encode_item (S level)) kvs)) as (t & HJ).
    change (encode_item (S level) kv :: map (encode_item (S level)) kvs)
      with (map (encode_item (S level)) (kv :: kvs)) in HJ.
    rewrite HJ in *. cbn [app]. rewrite (skip_ws_stop 34) by reflexivity.
    change (34 =? 125) with false. change (34 =? 34) with true. cbv iota.
    rewrite (object_items_encoded (kv :: kvs) ltac:(discriminate) Hall
               (S level) level fuel rest t HJ) by lia.
    now rewrite dict_of_pairs_id.
Qed.

(** ** JSON: the lines of the document *)

Lemma split_nonempty sep s : split sep s <> [].
Proof.
  destruct s as [|c s]; cbn [split]; [discriminate|].
  destruct (c =? sep); [discriminate|]. destruct (split sep s); discriminate.
Qed.

Lemma join_split sep s : join [sep] (split sep s) = s.
Proof.
  induction s as [|c s IH]; [reflexivity|]. cbn [split].
  pose proof (split_nonempty sep s) as Hne.
  destruct (Z.eqb_spec c sep) as [->|Hc].
  - destruct (split sep s) as [|part parts]; [congruence|].
    rewrite join_cons2. cbn [app]. now rewrite IH.
  - destruct (split sep s) as [|part parts]; [congruence|].
    destruct parts as [|part2 parts].
    + rewrite join_single in *. now rewrite IH.
    + rewrite join_cons2 in *. cbn [app] in *. now rewrite IH.
Qed.

Lemma leading_spaces_split line :
  line = repeat 32 (leading_spaces line) ++ skipn (leading_spaces line) line.
Proof.
  induction line as [|c line IH]; [reflexivity|]. cbn [leading_spaces].
  destruct (Z.eqb_spec c 32) as [->|]; [|reflexivity].
  cbn [repeat skipn app]. now rewrite <- IH.
Qed.

Lemma un_nbsp_other line :
  match line with 38 :: _ => False | _ => True end -> un_nbsp line = line.
Proof.
  intros Hl. destruct line as [|a [|b [|c [|d [|e [|f rest]]]]]]; try reflexivity.
  cbn [un_nbsp]. py_norm. cbn [str_eqb].
  destruct (Z.eqb_spec a 38) as [->|]; [destruct Hl|reflexivity].
Qed.

Lemma un_nbsp_repeat n r :
  un_nbsp (concat (repeat (py "&nbsp;") n) ++ r) = repeat 32 n ++ un_nbsp r.
Proof.
  induction n as [|n IH]; [reflexivity|].
  cbn [repeat concat]. rewrite <- app_assoc. py_norm. cbn [app un_nbsp].
  py_norm. cbn [str_eqb]. change (38 =? 38) with true. change (110 =? 110) with true.
  change (98 =? 98) with true. change (115 =? 115) with true.
  change (112 =? 112) with true. change (59 =? 59) with true. cbn [andb].
  f_equal. py_norm_in IH. exact IH.
Qed.

(** Undoing the substitution gives the line back. *)
Lemma un_nbsp_nbsp_line line : line_ok line -> un_nbsp (nbsp_line line) = line.
Proof.
  unfold line_ok, nbsp_line. intros Hok.
  destruct (Nat.ltb_spec 0 (leading_spaces line)) as [Hpos|Hzero].
  - rewrite un_nbsp_repeat, un_nbsp_other by exact Hok.
    symmetry. apply leading_spaces_split.
  - replace (leading_spaces line) with 0%nat in Hok by lia.
    now apply un_nbsp_other.
Qed.

Lemma line_ok_space line : line_ok line -> line_ok (32 :: line).
Proof. unfold line_ok. cbn [leading_spaces]. change (32 =? 32) with true. auto. Qed.

Lemma line_ok_start c line : c <> 32 -> c <> 38 -> line_ok (c :: line).
Proof.
  intros H32 H38. unfold line_ok. cbn [leading_spaces].
  destruct (Z.eqb_spec c 32); [contradiction|]. cbn [skipn].
  destruct c as [|p|p]; try exact I.
  do 6 (destruct p as [p|p|]; try exact I). now apply H38.
Qed.

Lemma indent_ok_lines s : forall at_start,
  indent_ok at_start s = true ->
  exists first others,
    split 10 s = first :: others /\
    (at_start = true -> line_ok first) /\ Forall line_ok others.
Proof.
  induction s as [|c s IH]; intros at_start Hok.
  - exists [], []. split; [reflexivity|]. split; [intros _; exact I|constructor].
  - cbn [indent_ok split] in *. destruct (Z.eqb_spec c 10) as [->|Hc].
    + destruct (IH true Hok) as (first & others & -> & Hfirst & Hothers).
      exists [], (first :: others). split; [reflexivity|].
      split; [intros _; exact I|]. constructor; auto.
    + destruct at_start.
      * destruct (Z.eqb_spec c 32) as [->|H32].
        -- destruct (IH true Hok) as (first & others & -> & Hfirst & Hothers).
           exists (32 :: first), others. split; [reflexivity|].
           split; [intros _; apply line_ok_space; auto|exact Hothers].
        -- apply andb_true_iff in Hok. destruct Hok as [H38 Hok].
           apply negb_true_iff, Z.eqb_neq in H38.
           destruct (IH false Hok) as (first & others & -> & _ & Hothers).
           exists (c :: first), others. split; [reflexivity|].
           split; [intros _; now apply line_ok_start|exact Hothers].
      * destruct (IH false Hok) as (first & others & -> & _ & Hothers).
        exists (c :: first), others. split; [reflexivity|].
        split; [discriminate|exact Hothers].
Qed.

Lemma indent_ok_plain a tail :
  Forall (fun c => c <> 10) a ->
  indent_ok false (a ++ tail) = indent_ok false tail.
Proof.
  induction 1 as [|c a Hc _ IH]; [reflexivity|]. cbn [app indent_ok].
  destruct (Z.eqb_spec c 10); [contradiction|exact IH].
Qed.

Lemma indent_ok_solid c a tail at_start :
  value_head c = true -> Forall (fun c => c <> 10) a ->
  indent_ok at_start ((c :: a) ++ tail) = indent_ok false tail.
Proof.
  intros Hc Ha. apply value_head_facts in Hc.
  destruct Hc as (_ & _ & _ & _ & H32 & H38 & H10 & _).
  cbn [app indent_ok]. destruct (Z.eqb_spec c 10); [contradiction|].
  destruct (Z.eqb_spec c 32); [contradiction|].
  destruct (Z.eqb_spec c 38); [contradiction|]. cbn [negb andb].
  destruct at_start; now apply indent_ok_plain.
Qed.

Lemma indent_ok_spaces k tail : indent_ok true (repeat 32 k ++ tail) = indent_ok true tail.
Proof. induction k as [|k IH]; [reflexivity|exact IH]. Qed.

Lemma indent_ok_newline_indent level tail at_start :
  indent_ok at_start (newline_indent level ++ tail) = indent_ok true tail.
Proof. unfold newline_indent. cbn [app indent_ok]. apply indent_ok_spaces. Qed.

Lemma number_char_not_newline c : number_char c = true -> c <> 10.
Proof. unfold number_char, is_digit. lia. Qed.

Lemma escape_char_no_newline c :
  0 <= c <= 1114111 -> Forall (fun x => x <> 10) (escape_char c).
Proof.
  intros Hc.
  assert (Hhex : forall k, 0 <= k < 16 -> hex_digit k <> 10)
    by (intros k Hk; unfold hex_digit; destruct (k <? 10); lia).
  assert (Hmod : forall n, 0 <= n mod 16 < 16) by (intros; apply Z.mod_pos_bound; lia).
  destruct (escape_char_shape c Hc) as [H32 H34 H92|e He Hne|Hlt|hi lo Hge Hhi Hlo];
    repeat constructor; try lia; try (apply Hhex, Hmod).
  unfold unescape in He.
  repeat match type of He with
         | (if ?x =? ?y then _ else _) = _ => destruct (Z.eqb_spec x y); [lia|]
         end.
  discriminate.
Qed.

Lemma encode_string_solid s :
  str_ok s = true ->
  exists a, encode_string s = 34 :: a /\ Forall (fun c => c <> 10) a.
Proof.
  intros Hok. unfold encode_string. eexists; split; [reflexivity|].
  apply Forall_app. split; [|repeat constructor; lia].
  induction s as [|c s IH]; [constructor|].
  apply str_ok_cons in Hok. destruct Hok as (Hc & _ & Hs).
  cbn [flat_map]. apply Forall_app. split; [now apply escape_char_no_newline|auto].
Qed.

Lemma indent_ok_string s tail at_start :
  str_ok s = true ->
  indent_ok at_start (encode_string s ++ tail) = indent_ok false tail.
Proof.
  intros Hok. destruct (encode_string_solid s Hok) as (a & -> & Ha).
  now apply indent_ok_solid.
Qed.

Lemma str_of_int_chars n : Forall (fun c => number_char c = true) (str_of_int n).
Proof.
  unfold str_of_int. destruct (Z.ltb_spec n 0).
  - constructor; [reflexivity|]. apply digits_number_chars, str_of_nat_digits. lia.
  - apply digits_number_chars, str_of_nat_digits. lia.
Qed.

Lemma indent_ok_number text tail at_start :
  Forall (fun c => number_char c = true) text ->
  (exists c tl, text = c :: tl /\ (is_digit c = true \/ c = 45)) ->
  indent_ok at_start (text ++ tail) = indent_ok false tail.
Proof.
  intros Hchars (c & tl & -> & Hc). inversion Hchars; subst.
  apply indent_ok_solid.
  - unfold value_head. destruct Hc as [Hc| ->]; [now rewrite Hc|reflexivity].
  - eapply Forall_impl; [|eassumption]. apply number_char_not_newline.
Qed.

Lemma indent_ok_join_values items : forall level at_start tail,
  items <> [] ->
  Forall ends_in_line items ->
  indent_ok at_start
    (join (44 :: newline_indent level) (map (encode level) items) ++ tail) =
  indent_ok false tail.
Proof.
  induction items as [|x xs IH]; intros level at_start tail Hne Hall; [congruence|].
  inversion Hall as [|x' xs' Hx Hxs]; subst. destruct xs as [|y ys].
  - cbn [map]. rewrite join_single. apply Hx.
  - cbn [map] in *. rewrite join_cons2, <- !app_assoc. rewrite Hx.
    cbn [app indent_ok]. change (44 =? 10) with false. cbv iota.
    rewrite indent_ok_newline_indent.
    apply (IH level true tail); [discriminate|exact Hxs].
Qed.

Lemma indent_ok_join_items items : forall level at_start tail,
  items <> [] ->
  Forall (fun kv => str_ok (fst kv) = true /\ ends_in_line (snd kv)) items ->
  indent_ok at_start
    (join (44 :: newline_indent level) (map (encode_item level) items) ++ tail) =
  indent_ok false tail.
Proof.
  assert (Hitem : forall level kv at_start tail,
             str_ok (fst kv) = true -> ends_in_line (snd kv) ->
             indent_ok at_start (encode_item level kv ++ tail) = indent_ok false tail).
  { intros level kv at_start tail Hk Hv. unfold encode_item.
    rewrite <- !app_assoc. rewrite indent_ok_string by exact Hk.
    py_norm. cbn [app indent_ok]. change (58 =? 10) with false.
    change (32 =? 10) with false. cbv iota. apply Hv. }
  induction items as [|x xs IH]; intros level at_start tail Hne Hall; [congruence|].
  inversion Hall as [|x' xs' [Hk Hx] Hxs]; subst. destruct xs as [|y ys].
  - cbn [map]. rewrite join_single. now apply Hitem.
  - cbn [map] in *. rewrite join_cons2, <- !app_assoc. rewrite Hitem by assumption.
    cbn [app indent_ok]. change (44 =? 10) with false. cbv iota.
    rewrite indent_ok_newline_indent.
    apply (IH level true tail); [discriminate|exact Hxs].
Qed.

Lemma encode_ends_in_line v : json_ok v = true -> ends_in_line v.
Proof.
  induction v as [|b|n|t|s|items IH|items IH] using json_nested_ind;
    intros Hok level at_start tail.
  - cbn [encode]. py_norm. apply indent_ok_solid; [reflexivity|repeat constructor; lia].
  - cbn [encode]. destruct b; py_norm;
      (apply indent_ok_solid; [reflexivity|repeat constructor; lia]).
  - cbn [encode]. apply indent_ok_number; [apply str_of_int_chars|apply str_of_int_head].
  - cbn [encode json_ok] in *.
    destruct (float_ok_cases t Hok) as [->|[->|[->|Hscan]]];
      try (py_norm; apply indent_ok_solid; [reflexivity|repeat constructor; lia]).
    destruct (scan_number_whole _ _ Hscan) as (Hchars & Hhead).
    now apply indent_ok_number.
  - cbn [encode json_ok] in *. now apply indent_ok_string.
  - cbn [json_ok] in Hok. destruct items as [|x xs].
    { cbn [encode]. py_norm. apply indent_ok_solid; [reflexivity|repeat constructor; lia]. }
    assert (Hall : Forall ends_in_line (x :: xs)).
    { clear - Hok IH. induction IH as [|y l Hy _ IHl]; [constructor|].
      cbn [forallb] in Hok. apply andb_true_iff in Hok. destruct Hok. constructor; auto. }
    cbn [encode]. py_norm. cbn [app]. rewrite <- !app_assoc.
    cbn [indent_ok]. change (91 =? 10) with false. cbv iota.
    assert (Hrest : indent_ok true
              (newline_indent (S level)
                 ++ join (44 :: newline_indent (S level)) (map (encode (S level)) (x :: xs))
                 ++ newline_indent level ++ [93] ++ tail) = indent_ok false tail).
    { rewrite indent_ok_newline_indent.
      rewrite indent_ok_join_values by (discriminate || exact Hall).
      rewrite indent_ok_newline_indent. cbn [app indent_ok].
      change (93 =? 10) with false. change (93 =? 32) with false.
      change (93 =? 38) with false. reflexivity. }
    destruct at_start.
    + change (91 =? 32) with false. change (91 =? 38) with false. cbn [negb andb].
      rewrite <- Hrest. now rewrite !indent_ok_newline_indent.
    + rewrite <- Hrest. now rewrite !indent_ok_newline_indent.
  - cbn [json_ok] in Hok. apply andb_true_iff in Hok. destruct Hok as [_ Hok].
    destruct items as [|kv kvs].
    { cbn [encode]. py_norm. apply indent_ok_solid; [reflexivity|repeat constructor; lia]. }
    assert (Hall : Forall (fun kv => str_ok (fst kv) = true /\ ends_in_line (snd kv))
                          (kv :: kvs)).
    { clear - Hok IH. induction IH as [|y l Hy _ IHl]; [constructor|].
      cbn [forallb] in Hok. apply andb_true_iff in Hok. destruct Hok as [Hy' Hl].
      apply andb_true_iff in Hy'. destruct Hy'. constructor; auto. }
    cbn [encode].
    change (map (fun kv0 => encode_string (fst kv0) ++ py ": "
                              ++ encode (S level) (snd kv0)) (kv :: kvs))
      with (map (encode_item (S level)) (kv :: kvs)).
    py_norm. cbn [app]. rewrite <- !app_assoc.
    cbn [indent_ok]. change (123 =? 10) with false. cbv iota.
    assert (Hrest : indent_ok true
              (newline_indent (S level)
                 ++ join (44 :: newline_indent (S level))
                         (map (encode_item (S level)) (kv :: kvs))
                 ++ newline_indent level ++ [125] ++ tail) = indent_ok false tail).
    { rewrite indent_ok_newline_indent.
      rewrite indent_ok_join_items by (discriminate || exact Hall).
      rewrite indent_ok_newline_indent. cbn [app indent_ok].
      change (125 =? 10) with false. change (125 =? 32) with false.
      change (125 =? 38) with false. reflexivity. }
    destruct at_start.
    + change (123 =? 32) with false. change (123 =? 38) with false. cbn [negb andb].
      rewrite <- Hrest. now rewrite !indent_ok_newline_indent.
    + rewrite <- Hrest. now rewrite !indent_ok_newline_indent.
Qed.

Lemma map_un_nbsp_nbsp_line lines :
  Forall line_ok lines -> map un_nbsp (map nbsp_line lines) = lines.
Proof.
  induction 1 as [|l lines Hl _ IH]; [reflexivity|].
  cbn [map]. now rewrite un_nbsp_nbsp_line, IH.
Qed.

Lemma json_loads_dumps v : json_ok v = true -> json_loads (dumps v) = Return v.
Proof.
  intros Hok. unfold json_loads, dumps.
  pose proof (encode_head v 0%nat Hok) as Hhead.
  pose proof Hhead as (c & tl & Heq & Hc). apply value_head_facts in Hc.
  destruct Hc as (_ & _ & _ & _ & _ & _ & _ & Hbom & _).
  assert (Hstart : startswith (encode 0 v) [65279] = false).
  { rewrite Heq. cbn [startswith]. destruct (Z.eqb_spec c 65279); [contradiction|reflexivity]. }
  rewrite Hstart, skip_ws_value by exact Hhead.
  rewrite <- (app_nil_r (encode 0 v)) at 2.
  rewrite (encode_reads_back v Hok 0%nat); [reflexivity|lia|exact I].
Qed.

(** The paragraphs that [json_to_pdf] makes of a value, read back with the
    [&nbsp;] taken as spaces and parsed as JSON, give the value itself. *)
Lemma parse_paragraphs_json_paragraphs v :
  json_ok v = true -> parse_paragraphs (json_paragraphs v) = Return v.
Proof.
  intros Hok.
  unfold parse_paragraphs, json_paragraphs.
  assert (Hlines : Forall line_ok (split 10 (dumps v))).
  { assert (Hind : indent_ok true (dumps v) = true).
    { unfold dumps. rewrite <- (app_nil_r (encode 0 v)).
      now rewrite (encode_ends_in_line v Hok). }
    destruct (indent_ok_lines _ _ Hind) as (first & others & -> & Hfirst & Hothers).
    constructor; auto. }
  rewrite map_un_nbsp_nbsp_line by exact Hlines.
  rewrite join_split. now apply json_loads_dumps.
Qed.

(** ** One configuration's directory: what a job reads and writes *)

Lemma get_entry_none_iff d t : get_entry d t = None <-> no_entry d t.
Proof.
  unfold no_entry. induction t as [|[n x] t IH]; cbn [get_entry].
  - split; [constructor|reflexivity].
  - destruct (str_eqb_spec n d) as [->|Hne].
    + split; [discriminate|]. intros H. inversion H; subst. cbn in *. congruence.
    + rewrite IH. split; [now constructor|]. intros H. now inversion H.
Qed.

Lemma del_entry_no_entry d t : no_entry d (del_entry d t).
Proof.
  unfold no_entry, del_entry. apply Forall_forall. intros e He.
  apply filter_In in He. destruct He as [_ He].
  apply negb_true_iff, str_eqb_neq in He. exact He.
Qed.

Lemma del_entry_id d t : no_entry d t -> del_entry d t = t.
Proof.
  unfold no_entry, del_entry. induction 1 as [|e t He _ IH]; [reflexivity|].
  cbn [filter]. apply str_eqb_neq in He. rewrite He. cbn [negb]. now f_equal.
Qed.

Lemma del_entry_app d a b : del_entry d (a ++ b) = del_entry d a ++ del_entry d b.
Proof. apply filter_app. Qed.

Lemma del_entry_entd d o : del_entry d (entd d o) = [].
Proof.
  destruct o; [|reflexivity]. cbn [entd del_entry filter fst].
  now rewrite str_eqb_refl.
Qed.

Lemma del_entry_frame d t o : no_entry d t -> del_entry d (t ++ entd d o) = t.
Proof.
  intros Ht. rewrite del_entry_app, del_entry_entd, app_nil_r. now apply del_entry_id.
Qed.

Lemma get_entry_app_skip d a b : no_entry d a -> get_entry d (a ++ b) = get_entry d b.
Proof.
  induction 1 as [|[n x] a He _ IH]; [reflexivity|]. cbn [app get_entry].
  cbn [fst] in He. apply str_eqb_neq in He. now rewrite He.
Qed.

Lemma get_entry_frame d t o :
  no_entry d t -> get_entry d (t ++ entd d o) = option_map Dir o.
Proof.
  intros Ht. rewrite get_entry_app_skip by exact Ht.
  destruct o; [|reflexivity]. cbn [entd get_entry option_map].
  now rewrite str_eqb_refl.
Qed.

Lemma put_entry_app_skip d x a b :
  no_entry d a -> put_entry d x (a ++ b) = a ++ put_entry d x b.
Proof.
  induction 1 as [|[n y] a He _ IH]; [reflexivity|]. cbn [app put_entry].
  cbn [fst] in He. apply str_eqb_neq in He. rewrite He. now f_equal.
Qed.

Lemma set_entry_frame d t o o' :
  no_entry d t ->
  set_entry d (option_map Dir o') (t ++ entd d o) = t ++ entd d o'.
Proof.
  intros Ht. destruct o' as [sub'|]; cbn [option_map set_entry].
  - rewrite put_entry_app_skip by exact Ht. f_equal.
    destruct o; cbn [entd put_entry]; [now rewrite str_eqb_refl|reflexivity].
  - rewrite del_entry_frame by exact Ht. cbn [entd]. now rewrite app_nil_r.
Qed.

Lemma update_head d q f es :
  update (d :: q) f es =
  do o' <- at_entry q f (get_entry d es); Return (set_entry d o' es).
Proof.
  cbn [update]. destruct q as [|j q]; [reflexivity|]. cbn [at_entry].
  destruct (get_entry d es) as [[x|sub]|]; try reflexivity.
  destruct (update (j :: q) f sub); reflexivity.
Qed.

Lemma set_entry_names (P : pystr -> Prop) j o sub :
  P j -> Forall (fun e => P (fst e)) sub ->
  Forall (fun e => P (fst e)) (set_entry j o sub).
Proof.
  intros Hj Hsub. destruct o as [x|]; cbn [set_entry].
  - induction Hsub as [|[n y] sub Hn Hrest IH]; cbn [put_entry].
    + now repeat constructor.
    + destruct (str_eqb n j); constructor; auto.
  - unfold del_entry. apply Forall_forall. intros e He.
    apply filter_In in He. destruct He as [He _].
    rewrite Forall_forall in Hsub. now apply Hsub.
Qed.

Lemma update_names (P : pystr -> Prop) j q f sub sub' :
  P j -> Forall (fun e => P (fst e)) sub ->
  update (j :: q) f sub = Return sub' ->
  Forall (fun e => P (fst e)) sub'.
Proof.
  intros Hj Hsub. rewrite update_head.
  destruct (at_entry q f (get_entry j sub)) as [o'|e]; [|discriminate].
  cbn [bind]. intros Heq. inversion Heq; subst. now apply set_entry_names.
Qed.

Lemma at_entry_allowed q f o x :
  allowed q f -> jobs_only o ->
  at_entry q f (option_map Dir o) = Return x ->
  exists o', x = option_map Dir o' /\ jobs_only o'.
Proof.
  intros [[-> [-> | ->]]|(j & q' & -> & Hj)] Ho; cbn [at_entry].
  - destruct o; cbn [option_map mkdir_at]; [discriminate|].
    intros Heq. inversion Heq; subst. exists (Some []). split; [reflexivity|constructor].
  - destruct o; cbn [option_map rmtree_at]; [|discriminate].
    intros Heq. inversion Heq; subst. now exists None.
  - destruct o as [sub|]; cbn [option_map]; [|discriminate].
    destruct (update (j :: q') f sub) as [sub'|e] eqn:Hupd; [|discriminate].
    cbn [bind]. intros Heq. inversion Heq; subst.
    exists (Some sub'). split; [reflexivity|].
    cbn [jobs_only] in *. now apply (update_names _ _ _ _ _ _ Hj Ho Hupd).
Qed.

Section locality.
Context `{Libraries}.
Variables (d : pystr) (t1 t2 : dir) (names : list pystr).
Hypothesis Ht1 : no_entry d t1.
Hypothesis Ht2 : no_entry d t2.

Lemma local_ret {A} (a : A) : local d t1 t2 names (ret a).
Proof. intros w1 w2 Hrel. split; [reflexivity|exact Hrel]. Qed.

Lemma local_raise {A} e : local d t1 t2 names (@raise A e).
Proof. intros w1 w2 Hrel. split; [reflexivity|exact Hrel]. Qed.

Lemma local_bind {A B} (m : M A) (k : A -> M B) :
  local d t1 t2 names m -> (forall a, local d t1 t2 names (k a)) ->
  local d t1 t2 names (mbind m k).
Proof.
  intros Hm Hk w1 w2 Hrel. unfold mbind.
  destruct (Hm w1 w2 Hrel) as [Hres Hrel'].
  destruct (m w1) as [r1 w1'], (m w2) as [r2 w2']. cbn [fst snd] in *. subst r2.
  destruct r1 as [a|e]; [now apply Hk|now split].
Qed.

Lemma local_for_each {A} (xs : list A) body :
  (forall x, In x xs -> local d t1 t2 names (body x)) ->
  local d t1 t2 names (for_each xs body).
Proof.
  induction xs as [|x xs IH]; intros Hbody; cbn [for_each].
  - apply local_ret.
  - apply local_bind; [apply Hbody; now left|].
    intros _. apply IH. intros y Hy. apply Hbody. now right.
Qed.

Lemma local_print msg : local d t1 t2 names (print msg).
Proof.
  intros w1 w2 (o & Ho & Hw1 & Hw2 & Hcwd). split; [reflexivity|].
  exists o. cbn [print snd tree cwd]. auto.
Qed.

Lemma local_send r : local d t1 t2 names (send r).
Proof.
  intros w1 w2 (o & Ho & Hw1 & Hw2 & Hcwd). split; [reflexivity|].
  exists o. cbn [send snd tree cwd]. auto.
Qed.

Lemma local_set_cwd_file n x : local d t1 t2 names (set_cwd_file n x).
Proof.
  intros w1 w2 (o & Ho & Hw1 & Hw2 & Hcwd). split; [reflexivity|].
  exists o. cbn [set_cwd_file snd tree cwd]. repeat split; auto.
  intros n' Hn'. destruct (str_eqb n' n); auto.
Qed.

Lemma local_get_cwd_file n : In n names -> local d t1 t2 names (get_cwd_file n).
Proof.
  intros Hn w1 w2 Hrel. pose proof Hrel as (o & Ho & Hw1 & Hw2 & Hcwd).
  unfold get_cwd_file. cbn [fst snd]. split; [|exact Hrel]. f_equal. now apply Hcwd.
Qed.

Lemma lookup_frame t o q :
  no_entry d t ->
  lookup (d :: q) (Dir (t ++ entd d o)) =
  match o with Some sub => lookup q (Dir sub) | None => None end.
Proof.
  intros Ht. cbn [lookup]. rewrite get_entry_frame by exact Ht.
  destruct o; reflexivity.
Qed.

Lemma local_tree_lookup q : local d t1 t2 names (tree_lookup (d :: q)).
Proof.
  intros w1 w2 Hrel. pose proof Hrel as (o & Ho & Hw1 & Hw2 & Hcwd).
  unfold tree_lookup. cbn [fst snd]. split; [|exact Hrel].
  now rewrite Hw1, Hw2, !lookup_frame.
Qed.

Lemma local_tree_update q f :
  allowed q f -> local d t1 t2 names (tree_update (d :: q) f).
Proof.
  intros Hq w1 w2 Hrel. pose proof Hrel as (o & Ho & Hw1 & Hw2 & Hcwd).
  unfold tree_update. rewrite Hw1, Hw2, !update_head, !get_entry_frame by assumption.
  destruct (at_entry q f (option_map Dir o)) as [x|e] eqn:Hat; cbn [bind fst snd].
  - destruct (at_entry_allowed _ _ _ _ Hq Ho Hat) as (o' & -> & Ho').
    rewrite !set_entry_frame by assumption. split; [reflexivity|].
    exists o'. cbn [tree cwd]. auto.
  - split; [reflexivity|exact Hrel].
Qed.

Lemma local_path_exists q : local d t1 t2 names (path_exists (d :: q)).
Proof. apply local_bind; [apply local_tree_lookup|intros; apply local_ret]. Qed.

Lemma local_isdir q : local d t1 t2 names (isdir (d :: q)).
Proof. apply local_bind; [apply local_tree_lookup|intros; apply local_ret]. Qed.

Lemma local_listdir q : local d t1 t2 names (listdir (d :: q)).
Proof.
  apply local_bind; [apply local_tree_lookup|].
  intros [[x|sub]|]; (apply local_ret || apply local_raise).
Qed.

Lemma local_read_text q : local d t1 t2 names (read_text (d :: q)).
Proof.
  apply local_bind; [apply local_tree_lookup|].
  intros [[[t|t ps|ms]|sub]|]; (apply local_ret || apply local_raise).
Qed.

Lemma ancestors_head j q a : In a (ancestors (j :: q)) -> exists q', a = j :: q'.
Proof.
  cbn [ancestors]. destruct q as [|k q]; [intros []|].
  intros [<-|Hin]; [now exists []|].
  apply in_map_iff in Hin. destruct Hin as (a' & <- & _). now exists a'.
Qed.

Lemma allowed_job_path j q f : is_job_dirname j -> allowed (j :: q) f.
Proof. intros Hj. right. now exists j, q. Qed.

Lemma local_mkdir p :
  p = [d] \/ job_path d p -> local d t1 t2 names (tree_update p mkdir_at).
Proof.
  intros [->|(j & q & -> & Hj)]; apply local_tree_update.
  - left. auto.
  - now apply allowed_job_path.
Qed.

Lemma local_makedirs p :
  p = [d] \/ job_path d p -> local d t1 t2 names (makedirs p).
Proof.
  intros Hp. unfold makedirs. apply local_bind; [|intros _; now apply local_mkdir].
  apply local_for_each. intros a Ha.
  assert (Ha' : exists q, a = d :: q /\ (a = [d] \/ job_path d a)).
  { destruct Hp as [->|(j & q & -> & Hj)]; [destruct Ha|].
    cbn [ancestors] in Ha. destruct Ha as [<-|Ha]; [exists []; auto|].
    apply in_map_iff in Ha. destruct Ha as (a' & <- & Ha').
    destruct (ancestors_head _ _ _ Ha') as (q' & ->).
    exists (j :: q'). split; [reflexivity|]. right. now exists j, q'. }
  destruct Ha' as (q & -> & Hq).
  apply local_bind; [apply local_path_exists|].
  intros [|]; [apply local_ret|now apply local_mkdir].
Qed.

Lemma local_extract_member j m :
  is_job_dirname j -> local d t1 t2 names (extract_member [d; j] m).
Proof.
  intros Hj. unfold extract_member. cbn [app].
  set (mp := member_path (fst m)).
  assert (Hup : exists q, removelast (d :: j :: mp) = d :: q /\
                          (removelast (d :: j :: mp) = [d]
                           \/ job_path d (removelast (d :: j :: mp)))).
  { destruct mp as [|x mp]; cbn [removelast].
    - exists []. auto.
    - exists (j :: removelast (x :: mp)). split; [reflexivity|]. right.
      now exists j, (removelast (x :: mp)). }
  destruct Hup as (q & Hq & Hup).
  apply local_bind; [rewrite Hq; apply local_path_exists|]. intros e.
  apply local_bind; [destruct e; [apply local_ret|now apply local_makedirs]|].
  intros _. destruct (endswith (fst m) [47]).
  - apply local_bind; [apply local_isdir|].
    intros [|]; [apply local_ret|]. apply local_tree_update.
    now apply allowed_job_path.
  - apply local_tree_update. now apply allowed_job_path.
Qed.

Lemma local_unzip_to_dir zip_path j :
  In zip_path names -> is_job_dirname j ->
  local d t1 t2 names (unzip_to_dir zip_path [d; j]).
Proof.
  intros Hzip Hj. unfold unzip_to_dir.
  apply local_bind; [apply local_path_exists|]. intros e.
  apply local_bind.
  { destruct e; [apply local_ret|]. apply local_makedirs. right. now exists j, []. }
  intros _. apply local_bind; [now apply local_get_cwd_file|].
  intros [[t|t ps|members]|]; try apply local_raise.
  apply local_bind.
  { apply local_for_each. intros m _. now apply local_extract_member. }
  intros _. apply local_bind; [apply local_set_cwd_file|intros; apply local_ret].
Qed.

Lemma local_build_pdf j q title paragraphs :
  is_job_dirname j -> local d t1 t2 names (build_pdf (d :: j :: q) title paragraphs).
Proof.
  intros Hj. unfold build_pdf.
  destruct (forallb paragraph_ok (title :: paragraphs)); [|apply local_raise].
  apply local_tree_update. now apply allowed_job_path.
Qed.

Lemma local_json_to_pdf j q q' :
  is_job_dirname j -> local d t1 t2 names (json_to_pdf (d :: j :: q) (d :: j :: q')).
Proof.
  intros Hj. unfold json_to_pdf. apply local_bind; [apply local_read_text|].
  intros t. destruct (match t with
              | Some text => json_loads text
              | None => Raise JSONDecodeError
              end);
    [now apply local_build_pdf|apply local_raise].
Qed.

Lemma local_xml_to_pdf j q q' :
  is_job_dirname j -> local d t1 t2 names (xml_to_pdf (d :: j :: q) (d :: j :: q')).
Proof.
  intros Hj.
  assert (Hbody : local d t1 t2 names (xml_to_pdf_body (d :: j :: q) (d :: j :: q'))).
  { unfold xml_to_pdf_body. apply local_bind; [apply local_read_text|].
    intros t. destruct (match t with Some text => ET_parse text | None => None end);
      [now apply local_build_pdf|apply local_raise]. }
  intros w1 w2 Hrel. unfold xml_to_pdf.
  destruct (Hbody w1 w2 Hrel) as [Hres Hrel'].
  destruct (xml_to_pdf_body (d :: j :: q) (d :: j :: q') w1) as [r1 w1'].
  destruct (xml_to_pdf_body (d :: j :: q) (d :: j :: q') w2) as [r2 w2'].
  cbn [fst snd] in *. subst r2.
  destruct r1 as [[]|e]; [now split|].
  destruct e; now apply local_print.
Qed.

Lemma local_render_all j :
  is_job_dirname j -> local d t1 t2 names (render_all [d; j]).
Proof.
  intros Hj. unfold render_all. apply local_bind; [apply local_listdir|].
  intros files. apply local_for_each. intros filename _.
  unfold render_entry. cbn [app].
  destruct (endswith filename (py ".json")); [now apply local_json_to_pdf|].
  destruct (endswith filename (py ".xml")); [now apply local_xml_to_pdf|].
  apply local_ret.
Qed.
End locality.

(** ** One configuration: its jobs and its archive *)

Lemma related_weaken G d t1 t2 names w1 w2 :
  related G d t1 t2 names w1 w2 -> related G d t1 t2 [] w1 w2.
Proof.
  intros (o & Ho & Hw1 & Hw2 & _). exists o. repeat split; auto. intros n [].
Qed.

Lemma last_app_nonempty {A} (a b : list A) x : b <> [] -> last (a ++ b) x = last b x.
Proof.
  intros Hb. induction a as [|y a IH]; [reflexivity|].
  cbn [app]. rewrite <- IH. cbn [last].
  destruct (a ++ b) eqn:Hab; [|reflexivity].
  apply app_eq_nil in Hab. destruct Hab. contradiction.
Qed.

Lemma last_digits ds x :
  ds <> [] -> Forall (fun c => is_digit c = true) ds -> is_digit (last ds x) = true.
Proof.
  intros Hne Hds. induction Hds as [|c ds Hc Hds IH]; [congruence|].
  destruct ds as [|c' ds]; [exact Hc|]. apply IH. discriminate.
Qed.

Lemma job_dirname_last id : is_digit (last (job_dirname id) 0) = true.
Proof.
  unfold job_dirname. rewrite last_app_nonempty by apply str_of_int_nonempty.
  unfold str_of_int. destruct (Z.ltb_spec id 0).
  - change (45 :: str_of_nat (- id)) with ([45] ++ str_of_nat (- id)).
    rewrite last_app_nonempty by apply str_of_nat_nonempty.
    apply last_digits; [apply str_of_nat_nonempty|apply str_of_nat_digits; lia].
  - apply last_digits; [apply str_of_nat_nonempty|now apply str_of_nat_digits].
Qed.

Lemma job_dirname_not_zip_name name prefix :
  is_job_dirname name -> name <> zip_name prefix.
Proof.
  intros (id & ->) Heq. pose proof (job_dirname_last id) as Hlast.
  rewrite Heq in Hlast. unfold zip_name in Hlast.
  rewrite last_app_nonempty in Hlast by discriminate. discriminate Hlast.
Qed.

Lemma fetch_and_render_unfold `{Libraries} srv name project output_dir id w :
  fetch_and_render srv name project output_dir id w =
  match download_artifact srv project id w with
  | (Return zip_path, w') =>
      (print (Downloaded name zip_path) ;;
       unzip_to_dir zip_path (output_dir ++ [job_dirname id]) ;;
       render_all (output_dir ++ [job_dirname id])) w'
  | (Raise e, w') => (Raise e, w')
  end.
Proof. reflexivity. Qed.

Section one_config.
Context `{Libraries}.
Variables (d : pystr) (t1 t2 : dir).
Hypothesis Ht1 : no_entry d t1.
Hypothesis Ht2 : no_entry d t2.

Lemma download_related srv project id w1 w2 :
  related jobs_only d t1 t2 [] w1 w2 ->
  match download_artifact srv project id w1, download_artifact srv project id w2 with
  | (Return z1, w1'), (Return z2, w2') =>
      z1 = artifact_filename id /\ z2 = artifact_filename id /\
      related jobs_only d t1 t2 [artifact_filename id] w1' w2'
  | (Raise e1, w1'), (Raise e2, w2') =>
      e1 = e2 /\ related jobs_only d t1 t2 [] w1' w2'
  | _, _ => False
  end.
Proof.
  intros (o & Ho & Hw1 & Hw2 & _).
  unfold download_artifact, mbind, send, raise, set_cwd_file, ret.
  destruct (artifacts srv project id) as [|r].
  - split; [reflexivity|]. exists o. cbn [tree cwd]. repeat split; auto. intros n [].
  - destruct (raise_for_status r) as [[]|e].
    + split; [reflexivity|]. split; [reflexivity|].
      exists o. cbn [tree cwd]. repeat split; auto.
      intros n [<-|[]]. now rewrite str_eqb_refl.
    + split; [reflexivity|]. exists o. cbn [tree cwd]. repeat split; auto. intros n [].
Qed.

Lemma fetch_and_render_related srv name project id w1 w2 :
  related jobs_only d t1 t2 [] w1 w2 ->
  fst (fetch_and_render srv name project [d] id w1) =
  fst (fetch_and_render srv name project [d] id w2) /\
  related jobs_only d t1 t2 []
    (snd (fetch_and_render srv name project [d] id w1))
    (snd (fetch_and_render srv name project [d] id w2)).
Proof.
  intros Hrel. rewrite !fetch_and_render_unfold.
  pose proof (download_related srv project id w1 w2 Hrel) as Hdl.
  destruct (download_artifact srv project id w1) as [[z1|e1] w1'];
    destruct (download_artifact srv project id w2) as [[z2|e2] w2'];
    try contradiction.
  - destruct Hdl as (-> & -> & Hrel'). cbn [app].
    assert (Hjob : is_job_dirname (job_dirname id)) by now exists id.
    assert (Hloc : local d t1 t2 [artifact_filename id]
              (print (Downloaded name (artifact_filename id)) ;;
               unzip_to_dir (artifact_filename id) [d; job_dirname id] ;;
               render_all [d; job_dirname id])).
    { apply local_bind; [apply local_print|]. intros _.
      apply local_bind; [apply local_unzip_to_dir; auto; now left|].
      intros _. now apply local_render_all. }
    destruct (Hloc w1' w2' Hrel') as [Hres Hpost].
    split; [exact Hres|]. exact (related_weaken _ _ _ _ _ _ _ Hpost).
  - destruct Hdl as [-> Hrel']. now split.
Qed.

Lemma process_job_related fuel srv name project pipeline w1 w2 :
  related jobs_only d t1 t2 [] w1 w2 ->
  match process_job fuel srv name project pipeline [d] w1,
        process_job fuel srv name project pipeline [d] w2 with
  | Some (ok1, w1'), Some (ok2, w2') =>
      ok1 = ok2 /\ related jobs_only d t1 t2 [] w1' w2'
  | None, None => True
  | _, _ => False
  end.
Proof.
  intros Hrel. unfold process_job, process_job_body.
  destruct (get_job_id fuel (jobs_page srv project pipeline) name) as [[res pages]|];
    [|exact I].
  unfold mbind. rewrite !for_each_send.
  set (w1s := mk_world (cwd w1) (tree w1) (stdout w1) _).
  set (w2s := mk_world (cwd w2) (tree w2) (stdout w2) _).
  assert (Hrels : related jobs_only d t1 t2 [] w1s w2s).
  { destruct Hrel as (o & Ho & Hw1 & Hw2 & Hcwd). exists o. now repeat split. }
  destruct res as [id|e].
  - destruct (fetch_and_render_related srv name project id w1s w2s Hrels)
      as [Hres Hpost].
    destruct (fetch_and_render srv name project [d] id w1s) as [r1 w1'].
    destruct (fetch_and_render srv name project [d] id w2s) as [r2 w2'].
    cbn [fst snd] in *. subst r2. destruct r1 as [[]|e]; [now split|].
    split; [reflexivity|]. now apply (local_print d t1 t2 []).
  - unfold raise. split; [reflexivity|]. now apply (local_print d t1 t2 []).
Qed.

Lemma run_jobs_related fuel srv c names : forall w1 w2,
  related jobs_only d t1 t2 [] w1 w2 ->
  match run_jobs fuel srv c [d] names w1, run_jobs fuel srv c [d] names w2 with
  | Some (oks1, w1'), Some (oks2, w2') =>
      oks1 = oks2 /\ related jobs_only d t1 t2 [] w1' w2'
  | None, None => True
  | _, _ => False
  end.
Proof.
  induction names as [|name names IH]; intros w1 w2 Hrel; cbn [run_jobs].
  - now split.
  - pose proof (process_job_related fuel srv name (project_id c) (pipeline_id c)
                  w1 w2 Hrel) as Hjob.
    destruct (process_job fuel srv name (project_id c) (pipeline_id c) [d] w1)
      as [[ok1 w1']|];
      destruct (process_job fuel srv name (project_id c) (pipeline_id c) [d] w2)
      as [[ok2 w2']|]; try contradiction; [|exact I].
    destruct Hjob as [-> Hrel']. specialize (IH w1' w2' Hrel').
    destruct (run_jobs fuel srv c [d] names w1') as [[oks1 w1'']|];
      destruct (run_jobs fuel srv c [d] names w2') as [[oks2 w2'']|];
      try contradiction; [|exact I].
    destruct IH as [-> Hrel'']. now split.
Qed.

Lemma pdf_files_frame t o :
  no_entry d t ->
  pdf_files [d] (t ++ entd d o) =
  match o with
  | Some sub => filter (fun f => is_pdf_name (snd (fst f))) (walk [d] (Dir sub))
  | None => []
  end.
Proof.
  intros Ht. unfold pdf_files. rewrite (lookup_frame d t o [] Ht).
  destruct o; reflexivity.
Qed.

(** After the jobs, the archive is written without an exception. *)
Lemma zip_pdfs_related prefix names w1 w2 :
  related jobs_only d t1 t2 names w1 w2 ->
  exists o w1' w2',
    zip_pdfs [d] prefix w1 = (Return tt, w1') /\
    zip_pdfs [d] prefix w2 = (Return tt, w2') /\
    tree w1' = t1 ++ entd d o /\ tree w2' = t2 ++ entd d o.
Proof.
  intros (o & Ho & Hw1 & Hw2 & _). unfold zip_pdfs.
  rewrite Hw1, Hw2, !pdf_files_frame by assumption.
  destruct o as [sub|].
  - destruct (filter (fun f => is_pdf_name (snd (fst f))) (walk [d] (Dir sub)))
      as [|f found] eqn:Hfound.
    + exists (Some sub). do 2 eexists. cbn [print tree]. now repeat split.
    + set (z := ZipArchive _).
      assert (Hfree : get_entry (zip_name prefix) sub = None).
      { apply get_entry_none_iff. cbn [jobs_only] in Ho.
        eapply Forall_impl; [|exact Ho]. intros e He.
        now apply job_dirname_not_zip_name. }
      assert (Hupd : forall t, no_entry d t ->
                update ([d] ++ [zip_name prefix]) (write_at z) (t ++ entd d (Some sub)) =
                Return (t ++ entd d (Some (put_entry (zip_name prefix) (File z) sub)))).
      { intros t Ht. cbn [app]. rewrite update_head, get_entry_frame by exact Ht.
        cbn [option_map at_entry update]. rewrite Hfree. cbn [write_at bind set_entry].
        f_equal.
        exact (set_entry_frame d t (Some sub)
                 (Some (put_entry (zip_name prefix) (File z) sub)) Ht). }
      exists (Some (put_entry (zip_name prefix) (File z) sub)).
      unfold mbind, tree_update. cbn [tree].
      rewrite Hw1, Hw2, !Hupd by assumption.
      do 2 eexists. cbn [print tree]. now repeat split.
  - exists None. do 2 eexists. cbn [print tree]. now repeat split.
Qed.
End one_config.

Lemma clean_output_dir_spec d w :
  (forall data, get_entry d (tree w) <> Some (File data)) ->
  clean_output_dir [d] w =
  (Return tt, mk_world (cwd w) (del_entry d (tree w)) (stdout w) (requests w)).
Proof.
  intros Hnofile. unfold clean_output_dir, path_exists, tree_lookup, mbind, ret.
  cbn [lookup]. destruct (get_entry d (tree w)) as [[data|sub]|] eqn:Hd.
  - exfalso. now apply (Hnofile data).
  - unfold tree_update. cbn [update]. rewrite Hd. reflexivity.
  - rewrite del_entry_id by now apply get_entry_none_iff. now destruct w.
Qed.

Lemma clean_output_dir_file d w data :
  get_entry d (tree w) = Some (File data) ->
  clean_output_dir [d] w = (Raise NotADirectoryError, w).
Proof.
  intros Hd. unfold clean_output_dir, path_exists, tree_lookup, mbind, ret.
  cbn [lookup]. rewrite Hd. unfold tree_update. cbn [update]. now rewrite Hd.
Qed.

(** One turn of the loop of [main], on two worlds: the same outcome, and
    the directory of the configuration is replaced by the same content,
    put last, whatever the worlds held before. *)
Lemma run_config_related `{Libraries} fuel srv c w1 w2 :
  (forall data, get_entry (config_dirname c) (tree w1) <> Some (File data)) ->
  (forall data, get_entry (config_dirname c) (tree w2) <> Some (File data)) ->
  match run_config fuel srv c w1, run_config fuel srv c w2 with
  | Some (r1, w1'), Some (r2, w2') =>
      r1 = Return tt /\ r2 = Return tt /\
      exists o,
        tree w1' = del_entry (config_dirname c) (tree w1) ++ entd (config_dirname c) o /\
        tree w2' = del_entry (config_dirname c) (tree w2) ++ entd (config_dirname c) o
  | None, None => True
  | _, _ => False
  end.
Proof.
  intros Hw1 Hw2. unfold run_config.
  rewrite !clean_output_dir_spec by assumption.
  set (d := config_dirname c).
  set (w1c := mk_world (cwd w1) (del_entry d (tree w1)) (stdout w1) (requests w1)).
  set (w2c := mk_world (cwd w2) (del_entry d (tree w2)) (stdout w2) (requests w2)).
  assert (Hrel : related jobs_only d (del_entry d (tree w1)) (del_entry d (tree w2)) []
                         w1c w2c).
  { exists None. cbn [entd tree]. rewrite !app_nil_r. repeat split. intros n []. }
  pose proof (run_jobs_related d _ _ (del_entry_no_entry d (tree w1))
                (del_entry_no_entry d (tree w2)) fuel srv c (job_names c) w1c w2c Hrel)
    as Hjobs.
  destruct (run_jobs fuel srv c [d] (job_names c) w1c) as [[oks1 w1']|];
    destruct (run_jobs fuel srv c [d] (job_names c) w2c) as [[oks2 w2']|];
    try contradiction; [|exact I].
  destruct Hjobs as [_ Hrel'].
  destruct (zip_pdfs_related d _ _ (del_entry_no_entry d (tree w1))
              (del_entry_no_entry d (tree w2)) (pdf_prefix c) [] w1' w2' Hrel')
    as (o & w1'' & w2'' & -> & -> & Ht1 & Ht2).
  split; [reflexivity|]. split; [reflexivity|]. now exists o.
Qed.

(** ** A sequence of directory replacements is idempotent *)

Lemma get_entry_app x a b :
  get_entry x (a ++ b) =
  match get_entry x a with
  | Some y => Some y
  | None => get_entry x b
  end.
Proof.
  induction a as [|[n y] a IH]; [reflexivity|]. cbn [app get_entry].
  destruct (str_eqb n x); [reflexivity|exact IH].
Qed.

Lemma get_entry_entd_other d d' o : d' <> d -> get_entry d' (entd d o) = None.
Proof.
  intros Hne. destruct o; [|reflexivity]. cbn [entd get_entry].
  destruct (str_eqb_spec d d'); [congruence|reflexivity].
Qed.

Lemma get_entry_replace_other d d' o t :
  d' <> d -> get_entry d' (del_entry d t ++ entd d o) = get_entry d' t.
Proof.
  intros Hne. rewrite get_entry_app, get_entry_del_other by congruence.
  rewrite get_entry_entd_other by exact Hne. now destruct (get_entry d' t).
Qed.

Lemma get_entry_replace_same d o t :
  get_entry d (del_entry d t ++ entd d o) = option_map Dir o.
Proof. apply get_entry_frame, del_entry_no_entry. Qed.

Lemma is_file_entry_replace d d' o t :
  is_file_entry d' (del_entry d t ++ entd d o) =
  if str_eqb d' d then false else is_file_entry d' t.
Proof.
  unfold is_file_entry. destruct (str_eqb_spec d' d) as [->|Hne].
  - rewrite get_entry_replace_same. now destruct o.
  - now rewrite get_entry_replace_other.
Qed.

Lemma remove_all_nil t : remove_all [] t = t.
Proof.
  unfold remove_all. induction t as [|e t IH]; [reflexivity|].
  cbn [filter existsb negb]. now f_equal.
Qed.

Lemma remove_all_app ds a b : remove_all ds (a ++ b) = remove_all ds a ++ remove_all ds b.
Proof. apply filter_app. Qed.

Lemma remove_all_cons d ds t : remove_all (d :: ds) t = remove_all ds (del_entry d t).
Proof.
  unfold remove_all, del_entry. induction t as [|e t IH]; [reflexivity|].
  cbn [filter existsb]. rewrite (str_eqb_sym (fst e) d).
  destruct (str_eqb d (fst e)); cbn [orb negb filter]; [exact IH|].
  destruct (existsb (str_eqb (fst e)) ds); cbn [negb]; [exact IH|now f_equal].
Qed.

Lemma remove_all_idem ds t : remove_all ds (remove_all ds t) = remove_all ds t.
Proof.
  unfold remove_all. induction t as [|e t IH]; [reflexivity|].
  cbn [filter]. destruct (negb (existsb (str_eqb (fst e)) ds)) eqn:He; [|exact IH].
  cbn [filter]. rewrite He. now f_equal.
Qed.

Lemma remove_all_names ds t :
  Forall (fun e => In (fst e) ds) t -> remove_all ds t = [].
Proof.
  unfold remove_all. induction 1 as [|e t He _ IH]; [reflexivity|].
  cbn [filter]. rewrite IH.
  assert (Hex : existsb (str_eqb (fst e)) ds = true).
  { apply existsb_exists. exists (fst e). split; [exact He|apply str_eqb_refl]. }
  now rewrite Hex.
Qed.

Lemma get_entry_remove_all_in d ds t : In d ds -> get_entry d (remove_all ds t) = None.
Proof.
  intros Hd. apply get_entry_none_iff. unfold no_entry, remove_all.
  apply Forall_forall. intros e He. apply filter_In in He. destruct He as [_ He].
  apply negb_true_iff in He. intros Heq. rewrite Heq in He.
  assert (Hex : existsb (str_eqb d) ds = true).
  { apply existsb_exists. exists d. split; [exact Hd|apply str_eqb_refl]. }
  congruence.
Qed.

Lemma get_entry_remove_all_out d ds t :
  ~ In d ds -> get_entry d (remove_all ds t) = get_entry d t.
Proof.
  intros Hd. unfold remove_all. induction t as [|[n x] t IH]; [reflexivity|].
  cbn [filter fst get_entry].
  destruct (existsb (str_eqb n) ds) eqn:Hex; cbn [negb].
  - rewrite IH. destruct (str_eqb_spec n d) as [->|]; [|reflexivity].
    exfalso. apply Hd. apply existsb_exists in Hex.
    destruct Hex as (y & Hy & Heq). apply str_eqb_eq in Heq. now subst.
  - cbn [get_entry]. now rewrite IH.
Qed.

Lemma no_files_replace d o ds t :
  no_files ds t -> no_files ds (del_entry d t ++ entd d o).
Proof.
  intros Hno d' Hd'. rewrite is_file_entry_replace.
  destruct (str_eqb d' d); [reflexivity|now apply Hno].
Qed.

Lemma entd_dirs d o :
  Forall (fun e => fst e = d /\ exists sub, snd e = Dir sub) (entd d o).
Proof. destruct o as [sub|]; repeat constructor. now exists sub. Qed.

Lemma no_files_dirs ds t :
  Forall (fun e => exists sub, snd e = Dir sub) t -> no_files ds t.
Proof.
  intros Hdirs d _. unfold is_file_entry.
  induction Hdirs as [|[n x] t (sub & Hx) _ IH]; [reflexivity|].
  cbn [get_entry]. cbn [snd] in Hx. subst x. destruct (str_eqb n d); [reflexivity|exact IH].
Qed.

(** Without a regular file in the way, the run removes the directories it
    is about and puts what it produces last. *)
Lemma assign_all_no_files steps : forall t,
  no_files (map fst steps) t ->
  assign_all steps t = (false, remove_all (map fst steps) t ++ produced steps) /\
  Forall (fun e => In (fst e) (map fst steps) /\ exists sub, snd e = Dir sub)
         (produced steps).
Proof.
  induction steps as [|[d o] rest IH]; intros t Hno.
  - cbn [assign_all map]. unfold produced. cbn [assign_all snd].
    rewrite remove_all_nil, app_nil_r. split; [reflexivity|constructor].
  - cbn [assign_all map fst] in *.
    assert (Hrest : no_files (map fst rest) t) by (intros d' Hd'; apply Hno; now right).
    rewrite (Hno d) by now left.
    destruct (IH (del_entry d t ++ entd d o)) as [Hrun _];
      [now apply no_files_replace|].
    assert (Hstart : no_files (map fst rest) (entd d o)).
    { apply no_files_dirs. eapply Forall_impl; [|apply entd_dirs]. intros e [_ He]. exact He. }
    destruct (IH (entd d o) Hstart) as [Hrun0 Hprod].
    assert (Hproduced : produced ((d, o) :: rest) =
                        remove_all (map fst rest) (entd d o) ++ produced rest).
    { unfold produced at 1. cbn [assign_all]. change (is_file_entry d []) with false.
      cbv iota. cbn [del_entry filter app]. now rewrite Hrun0. }
    split.
    + rewrite Hrun, Hproduced, remove_all_app, remove_all_cons, <- app_assoc. reflexivity.
    + rewrite Hproduced. apply Forall_app. split.
      * unfold remove_all. apply Forall_forall. intros e He.
        apply filter_In in He. destruct He as [He _].
        pose proof (entd_dirs d o) as Hd. rewrite Forall_forall in Hd.
        destruct (Hd e He) as [-> Hsub]. split; [now left|exact Hsub].
      * eapply Forall_impl; [|exact Hprod]. intros e [He Hsub]. split; [now right|exact Hsub].
Qed.

Lemma produced_get_entry steps d t :
  is_file_entry d (remove_all (map fst steps) t ++ produced steps) =
  if existsb (str_eqb d) (map fst steps) then false else is_file_entry d t.
Proof.
  destruct (assign_all_no_files steps []) as [_ Hprod];
    [intros d' _; reflexivity|].
  unfold is_file_entry. rewrite get_entry_app.
  destruct (existsb (str_eqb d) (map fst steps)) eqn:Hex.
  - apply existsb_exists in Hex. destruct Hex as (d' & Hd' & Heq).
    apply str_eqb_eq in Heq. subst d'.
    rewrite get_entry_remove_all_in by exact Hd'.
    induction Hprod as [|[n x] p [_ (sub & Hx)] _ IH]; [reflexivity|].
    cbn [get_entry]. cbn [snd] in Hx. subst x. destruct (str_eqb n d); [reflexivity|exact IH].
  - assert (Hout : ~ In d (map fst steps)).
    { intros Hin. assert (existsb (str_eqb d) (map fst steps) = true); [|congruence].
      apply existsb_exists. exists d. split; [exact Hin|apply str_eqb_refl]. }
    rewrite get_entry_remove_all_out by exact Hout.
    assert (Hnone : get_entry d (produced steps) = None).
    { apply get_entry_none_iff. eapply Forall_impl; [|exact Hprod].
      intros e [He _] Heq. apply Hout. now rewrite <- Heq. }
    rewrite Hnone. now destruct (get_entry d t).
Qed.

Lemma assign_all_app a b t :
  assign_all (a ++ b) t =
  if fst (assign_all a t) then (true, snd (assign_all a t))
  else assign_all b (snd (assign_all a t)).
Proof.
  revert t. induction a as [|[d o] a IH]; intros t; [reflexivity|].
  cbn [app assign_all]. destruct (is_file_entry d t); [reflexivity|apply IH].
Qed.

(** The steps before the first name that a regular file holds. *)
Lemma first_file_split (steps : list (pystr * option dir)) t :
  no_files (map fst steps) t \/
  exists pre d o post,
    steps = pre ++ (d, o) :: post /\ no_files (map fst pre) t /\
    is_file_entry d t = true.
Proof.
  induction steps as [|[d o] rest IH].
  - left. intros d [].
  - destruct (is_file_entry d t) eqn:Hd.
    + right. exists [], d, o, rest. split; [reflexivity|]. split; [intros d' []|exact Hd].
    + destruct IH as [Hno|(pre & d' & o' & post & -> & Hno & Hd')].
      * left. intros d' [<-|Hin]; [exact Hd|now apply Hno].
      * right. exists ((d, o) :: pre), d', o', post. split; [reflexivity|].
        split; [|exact Hd']. intros x [<-|Hin]; [exact Hd|now apply Hno].
Qed.

Lemma assign_all_stable steps t :
  no_files (map fst steps) t ->
  let t' := remove_all (map fst steps) t ++ produced steps in
  assign_all steps t' = (false, t').
Proof.
  intros Hno t'.
  assert (Hno' : no_files (map fst steps) t').
  { intros d Hd. unfold t'. rewrite produced_get_entry.
    assert (Hex : existsb (str_eqb d) (map fst steps) = true).
    { apply existsb_exists. exists d. split; [exact Hd|apply str_eqb_refl]. }
    now rewrite Hex. }
  destruct (assign_all_no_files steps t' Hno') as [-> Hprod]. f_equal.
  unfold t'. rewrite remove_all_app, remove_all_idem.
  rewrite (remove_all_names _ (produced steps)), app_nil_r; [reflexivity|].
  eapply Forall_impl; [|exact Hprod]. now intros e [He _].
Qed.

(** Running the same steps again changes nothing. *)
Lemma assign_all_idem steps t :
  assign_all steps (snd (assign_all steps t)) = assign_all steps t.
Proof.
  destruct (first_file_split steps t) as [Hno|(pre & d & o & post & -> & Hno & Hd)].
  - destruct (assign_all_no_files steps t Hno) as [Hrun _]. rewrite Hrun. cbn [snd].
    now apply assign_all_stable.
  - destruct (assign_all_no_files pre t Hno) as [Hpre _].
    assert (Hout : existsb (str_eqb d) (map fst pre) = false).
    { destruct (existsb (str_eqb d) (map fst pre)) eqn:Hex; [|reflexivity].
      apply existsb_exists in Hex. destruct Hex as (d' & Hd' & Heq).
      apply str_eqb_eq in Heq. subst d'. rewrite (Hno d Hd') in Hd. discriminate. }
    assert (Hcrash : is_file_entry d (remove_all (map fst pre) t ++ produced pre) = true)
      by now rewrite produced_get_entry, Hout.
    assert (Hfirst : assign_all (pre ++ (d, o) :: post) t =
                     (true, remove_all (map fst pre) t ++ produced pre)).
    { rewrite assign_all_app, Hpre. cbn [fst snd assign_all]. now rewrite Hcrash. }
    rewrite Hfirst. cbn [snd].
    rewrite assign_all_app, (assign_all_stable pre t Hno). cbn [fst snd assign_all].
    now rewrite Hcrash.
Qed.

(** ** The driver *)

Lemma run_config_step `{Libraries} fuel srv c w :
  run_config fuel srv c empty_world <> None ->
  exists r w',
    run_config fuel srv c w = Some (r, w') /\
    assign_all [config_step fuel srv c] (tree w) = (is_raise r, tree w').
Proof.
  intros Hdef. unfold config_step. cbn [assign_all].
  set (d := config_dirname c). unfold is_file_entry.
  destruct (get_entry d (tree w)) as [[data|sub]|] eqn:Hd.
  - exists (Raise NotADirectoryError), w. split; [|reflexivity].
    unfold run_config. fold d. now rewrite (clean_output_dir_file d w data Hd).
  - assert (Hw : forall data, get_entry (config_dirname c) (tree w) <> Some (File data))
      by (fold d; rewrite Hd; discriminate).
    assert (H0 : forall data,
               get_entry (config_dirname c) (tree empty_world) <> Some (File data))
      by discriminate.
    pose proof (run_config_related fuel srv c w empty_world Hw H0) as Hrel.
    destruct (run_config fuel srv c empty_world) as [[r0 w0]|]; [|congruence].
    destruct (run_config fuel srv c w) as [[r w']|]; [|contradiction].
    destruct Hrel as (-> & -> & o & Ht & Ht0). fold d in Ht, Ht0.
    exists (Return tt), w'. split; [reflexivity|].
    cbn [tree empty_world del_entry filter app] in Ht0. rewrite Ht0, Ht.
    assert (Hget : get_entry d (entd d o) = option_map Dir o).
    { destruct o; [|reflexivity]. cbn [entd get_entry option_map]. now rewrite str_eqb_refl. }
    rewrite Hget. now destruct o.
  - assert (Hw : forall data, get_entry (config_dirname c) (tree w) <> Some (File data))
      by (fold d; rewrite Hd; discriminate).
    assert (H0 : forall data,
               get_entry (config_dirname c) (tree empty_world) <> Some (File data))
      by discriminate.
    pose proof (run_config_related fuel srv c w empty_world Hw H0) as Hrel.
    destruct (run_config fuel srv c empty_world) as [[r0 w0]|]; [|congruence].
    destruct (run_config fuel srv c w) as [[r w']|]; [|contradiction].
    destruct Hrel as (-> & -> & o & Ht & Ht0). fold d in Ht, Ht0.
    exists (Return tt), w'. split; [reflexivity|].
    cbn [tree empty_world del_entry filter app] in Ht0. rewrite Ht0, Ht.
    assert (Hget : get_entry d (entd d o) = option_map Dir o).
    { destruct o; [|reflexivity]. cbn [entd get_entry option_map]. now rewrite str_eqb_refl. }
    rewrite Hget. now destruct o.
Qed.

(** The loop of [main] acts on the tree as a sequence of directory
    replacements. *)
Lemma run_configs_assign `{Libraries} fuel srv configs :
  (forall c, In c configs -> run_config fuel srv c empty_world <> None) ->
  forall w, exists r w',
    run_configs fuel srv configs w = Some (r, w') /\
    assign_all (map (config_step fuel srv) configs) (tree w) = (is_raise r, tree w').
Proof.
  induction configs as [|c configs IH]; intros Hdef w.
  - exists (Return tt), w. split; reflexivity.
  - destruct (run_config_step fuel srv c w) as (r & w' & Hrun & Hstep);
      [apply Hdef; now left|].
    cbn [run_configs map]. rewrite Hrun.
    change (config_step fuel srv c :: map (config_step fuel srv) configs)
      with ([config_step fuel srv c] ++ map (config_step fuel srv) configs).
    rewrite assign_all_app, Hstep. cbn [fst snd].
    destruct r as [[]|e]; cbn [is_raise].
    + apply IH. intros c' Hc'. apply Hdef. now right.
    + exists (Raise e), w'. split; reflexivity.
Qed.

Lemma run_jobs_defined `{Libraries} fuel srv c output_dir names :
  (forall name, get_job_id fuel (jobs_page srv (project_id c) (pipeline_id c)) name
                <> None) ->
  forall w, run_jobs fuel srv c output_dir names w <> None.
Proof.
  intros Hget. induction names as [|name names IH]; intros w; cbn [run_jobs];
    [discriminate|].
  unfold process_job, process_job_body.
  destruct (get_job_id fuel (jobs_page srv (project_id c) (pipeline_id c)) name)
    as [[res pages]|] eqn:Hres; [|now apply Hget in Hres].
  match goal with
  | |- context [match ?m w with _ => _ end] => destruct (m w) as [[[]|e] w']
  end.
  - specialize (IH w'). destruct (run_jobs fuel srv c output_dir names w') as [[oks w'']|];
      [discriminate|contradiction].
  - specialize (IH (snd (print (JobFailed name e) w'))).
    destruct (run_jobs fuel srv c output_dir names _) as [[oks w'']|];
      [discriminate|contradiction].
Qed.

Lemma run_config_defined `{Libraries} fuel srv c w :
  (forall name, get_job_id fuel (jobs_page srv (project_id c) (pipeline_id c)) name
                <> None) ->
  run_config fuel srv c w <> None.
Proof.
  intros Hget. unfold run_config.
  destruct (clean_output_dir [config_dirname c] w) as [[[]|e] w1]; [|discriminate].
  pose proof (run_jobs_defined fuel srv c [config_dirname c] (job_names c) Hget w1) as Hj.
  destruct (run_jobs fuel srv c [config_dirname c] (job_names c) w1) as [[oks w2]|];
    [discriminate|contradiction].
Qed.

Lemma finite_listing_defined jobs last fuel name :
  finite_listing jobs last -> (Z.to_nat (Z.max 1 last) <= fuel)%nat ->
  get_job_id fuel jobs name <> None.
Proof.
  intros Hfin Hfuel.
  destruct (get_job_id_from_finite jobs last name Hfin (Z.to_nat (Z.max 1 last) - 1) 1)
    as (res & pages & Hrun & _); [lia|lia|].
  unfold get_job_id. rewrite Hrun by lia. discriminate.
Qed.

(** ** Jobs that fail *)

Lemma process_job_raise `{Libraries} fuel srv name project pipeline output_dir w e wx :
  process_job_body fuel srv name project pipeline output_dir w = Some (Raise e, wx) ->
  process_job fuel srv name project pipeline output_dir w =
  Some (false, snd (print (JobFailed name e) wx)).
Proof. intros Hbody. unfold process_job. now rewrite Hbody. Qed.

Lemma process_job_false `{Libraries} fuel srv name project pipeline output_dir w w' :
  process_job fuel srv name project pipeline output_dir w = Some (false, w') ->
  exists e wx,
    process_job_body fuel srv name project pipeline output_dir w = Some (Raise e, wx).
Proof.
  unfold process_job.
  destruct (process_job_body fuel srv name project pipeline output_dir w)
    as [[[[]|e] wx]|]; [discriminate| |discriminate].
  intros _. now exists e, wx.
Qed.

Lemma process_job_defined `{Libraries} fuel srv name project pipeline output_dir w :
  get_job_id fuel (jobs_page srv project pipeline) name <> None ->
  exists ok w', process_job fuel srv name project pipeline output_dir w = Some (ok, w').
Proof.
  intros Hget. unfold process_job, process_job_body.
  destruct (get_job_id fuel (jobs_page srv project pipeline) name) as [[res pages]|];
    [|congruence].
  match goal with
  | |- context [match ?m w with _ => _ end] => destruct (m w) as [[[]|e] w']
  end; do 2 eexists; reflexivity.
Qed.

(** A job that fails before its archive is unpacked leaves the tree as it
    was. *)
Lemma process_job_fails_early `{Libraries} fuel srv c name output_dir w :
  fails_before_unzip fuel srv c name ->
  exists w',
    process_job fuel srv name (project_id c) (pipeline_id c) output_dir w =
    Some (false, w') /\ tree w' = tree w.
Proof.
  unfold fails_before_unzip, process_job, process_job_body.
  destruct (get_job_id fuel (jobs_page srv (project_id c) (pipeline_id c)) name)
    as [[[id|e] pages]|]; [| |contradiction].
  - intros Hdl. unfold mbind at 1. rewrite for_each_send.
    rewrite fetch_and_render_unfold. unfold download_artifact, mbind, send, raise.
    destruct (artifacts srv (project_id c) id) as [|r].
    + eexists. split; reflexivity.
    + destruct (raise_for_status r) as [[]|e]; [discriminate Hdl|].
      eexists. split; reflexivity.
  - intros _. unfold mbind, raise. rewrite for_each_send.
    eexists. split; reflexivity.
Qed.

Lemma run_jobs_length `{Libraries} fuel srv c output_dir names :
  forall w oks w',
    run_jobs fuel srv c output_dir names w = Some (oks, w') ->
    length oks = length names.
Proof.
  induction names as [|name names IH]; intros w oks w'; cbn [run_jobs].
  - intros Heq. now inversion Heq.
  - destruct (process_job fuel srv name (project_id c) (pipeline_id c) output_dir w)
      as [[ok w1]|]; [|discriminate].
    destruct (run_jobs fuel srv c output_dir names w1) as [[oks' w2]|] eqn:Hrest;
      [|discriminate].
    intros Heq. inversion Heq; subst. cbn [length]. f_equal. exact (IH _ _ _ Hrest).
Qed.

(** [zip_pdfs] where the archive's name is free or held by a file. *)
Lemma zip_pdfs_writes output_dir prefix w es :
  lookup output_dir (Dir (tree w)) = Some (Dir es) ->
  (forall sub, get_entry (zip_name prefix) es <> Some (Dir sub)) ->
  pdf_files output_dir (tree w) <> [] ->
  exists w',
    zip_pdfs output_dir prefix w = (Return tt, w') /\
    lookup (output_dir ++ [zip_name prefix]) (Dir (tree w')) =
    Some (File (ZipArchive (map (fun f => (prefix ++ snd (fst f), snd f))
                                (pdf_files output_dir (tree w))))).
Proof.
  intros Hdir Hfree Hdocs.
  set (members := map (fun f => (prefix ++ snd (fst f), snd f))
                      (pdf_files output_dir (tree w))).
  assert (Hwrite : write_at (ZipArchive members) (get_entry (zip_name prefix) es) =
                   Return (Some (File (ZipArchive members)))).
  { destruct (get_entry (zip_name prefix) es) as [[d0|sub]|] eqn:He;
      try reflexivity. exfalso. now apply (Hfree sub). }
  destruct (update_in_dir _ _ _ _ _ _ Hdir Hwrite) as (t' & Hupd & Hl').
  exists (mk_world (cwd w) t' (stdout w ++ [Zipped (output_dir ++ [zip_name prefix])])
                   (requests w)).
  split.
  - unfold zip_pdfs. subst members.
    destruct (pdf_files output_dir (tree w)) as [|f0 docs]; [congruence|].
    unfold mbind, tree_update. rewrite Hupd. reflexivity.
  - cbn [tree]. rewrite (lookup_snoc _ _ _ _ Hl'). apply get_entry_set_same.
Qed.

(** One turn of the loop of [main], step by step. *)
Lemma run_config_steps `{Libraries} fuel srv c w :
  (forall name, get_job_id fuel (jobs_page srv (project_id c) (pipeline_id c)) name
                <> None) ->
  (forall data, get_entry (config_dirname c) (tree w) <> Some (File data)) ->
  exists w1 oks w2 w3,
    clean_output_dir [config_dirname c] w = (Return tt, w1) /\
    run_jobs fuel srv c [config_dirname c] (job_names c) w1 = Some (oks, w2) /\
    length oks = length (job_names c) /\
    zip_pdfs [config_dirname c] (pdf_prefix c) w2 = (Return tt, w3) /\
    (pdf_files [config_dirname c] (tree w2) <> [] ->
     lookup [config_dirname c; zip_name (pdf_prefix c)] (Dir (tree w3)) =
     Some (File (ZipArchive
                   (map (fun f => (pdf_prefix c ++ snd (fst f), snd f))
                        (pdf_files [config_dirname c] (tree w2)))))) /\
    run_config fuel srv c w = Some (Return tt, w3).
Proof.
  intros Hget Hw. set (d := config_dirname c).
  pose proof (clean_output_dir_spec d w Hw) as Hclean.
  set (w1 := mk_world (cwd w) (del_entry d (tree w)) (stdout w) (requests w)) in *.
  set (t := del_entry d (tree w)).
  assert (Ht : no_entry d t) by apply del_entry_no_entry.
  assert (Hrel : related jobs_only d t t [] w1 w1).
  { exists None. cbn [entd tree]. rewrite !app_nil_r. repeat split. }
  pose proof (run_jobs_related d t t Ht Ht fuel srv c (job_names c) w1 w1 Hrel) as Hjobs.
  pose proof (run_jobs_defined fuel srv c [d] (job_names c) Hget w1) as Hdef.
  destruct (run_jobs fuel srv c [d] (job_names c) w1) as [[oks w2]|] eqn:Hrun;
    [|congruence].
  destruct Hjobs as [_ (o & Ho & Hw2 & _ & _)].
  assert (Hzip : exists w3,
             zip_pdfs [d] (pdf_prefix c) w2 = (Return tt, w3) /\
             (pdf_files [d] (tree w2) <> [] ->
              lookup [d; zip_name (pdf_prefix c)] (Dir (tree w3)) =
              Some (File (ZipArchive
                            (map (fun f => (pdf_prefix c ++ snd (fst f), snd f))
                                 (pdf_files [d] (tree w2))))))).
  { destruct (pdf_files [d] (tree w2)) as [|f0 docs] eqn:Hdocs.
    - eexists. split; [|congruence]. unfold zip_pdfs. rewrite Hdocs. reflexivity.
    - rewrite <- Hdocs.
      assert (Hne : pdf_files [d] (tree w2) <> []) by (rewrite Hdocs; discriminate).
      destruct o as [sub|].
      + assert (Hdir : lookup [d] (Dir (tree w2)) = Some (Dir sub)).
        { rewrite Hw2. now rewrite (lookup_frame d t (Some sub) [] Ht). }
        assert (Hfree : forall sub', get_entry (zip_name (pdf_prefix c)) sub
                                     <> Some (Dir sub')).
        { intros sub'. replace (get_entry (zip_name (pdf_prefix c)) sub) with (@None node);
            [discriminate|].
          symmetry. apply get_entry_none_iff. cbn [jobs_only] in Ho.
          eapply Forall_impl; [|exact Ho]. intros e He.
          now apply job_dirname_not_zip_name. }
        destruct (zip_pdfs_writes [d] (pdf_prefix c) w2 sub Hdir Hfree Hne)
          as (w3 & Hz & Hl).
        exists w3. split; [exact Hz|]. intros _. exact Hl.
      + exfalso. apply Hne. rewrite Hw2. apply (pdf_files_frame d t None Ht). }
  destruct Hzip as (w3 & Hz & Hbundle).
  exists w1, oks, w2, w3. split; [exact Hclean|]. split; [exact Hrun|].
  split; [exact (run_jobs_length _ _ _ _ _ _ _ _ Hrun)|].
  split; [exact Hz|]. split; [exact Hbundle|].
  unfold run_config. fold d. rewrite Hclean, Hrun. now rewrite Hz.
Qed.




(** ** Running the driver twice *)

Lemma assign_all_false steps t :
  fst (assign_all steps t) = false -> no_files (map fst steps) t.
Proof.
  intros Hrun.
  destruct (first_file_split steps t) as [Hno|(pre & d & o & post & -> & Hno & Hd)];
    [exact Hno|exfalso].
  destruct (assign_all_no_files pre t Hno) as [Hpre _].
  assert (Hout : existsb (str_eqb d) (map fst pre) = false).
  { destruct (existsb (str_eqb d) (map fst pre)) eqn:Hex; [|reflexivity].
    apply existsb_exists in Hex. destruct Hex as (d' & Hd' & Heq).
    apply str_eqb_eq in Heq. subst d'. rewrite (Hno d Hd') in Hd. discriminate. }
  rewrite assign_all_app, Hpre in Hrun. cbn [fst snd assign_all] in Hrun.
  rewrite produced_get_entry, Hout, Hd in Hrun. discriminate Hrun.
Qed.

(** The directory of a step after a run without exception: what the run
    produces, whatever the tree held. *)
Lemma assign_all_entry steps t t' d :
  assign_all steps t = (false, t') -> In d (map fst steps) ->
  get_entry d t' = get_entry d (produced steps).
Proof.
  intros Hrun Hd.
  assert (Hno : no_files (map fst steps) t)
    by (apply assign_all_false; now rewrite Hrun).
  destruct (assign_all_no_files steps t Hno) as [Heq _].
  rewrite Heq in Hrun. inversion Hrun; subst t'.
  now rewrite get_entry_app, get_entry_remove_all_in.
Qed.



(** ** The loop over the extracted entries *)

Lemma subdirs_put_file x d es :
  (forall sub, get_entry x es <> Some (Dir sub)) ->
  subdirs (put_entry x (File d) es) = subdirs es.
Proof.
  induction es as [|[n y] es IH]; intros Hx; [reflexivity|].
  cbn [put_entry get_entry] in *. destruct (str_eqb n x) eqn:Hn.
  - destruct y as [d0|sub]; [reflexivity|]. exfalso. now apply (Hx sub).
  - unfold subdirs in *. cbn [filter snd]. destruct y; [now apply IH|].
    f_equal. now apply IH.
Qed.

Lemma keeps_dirs_refl es : keeps_dirs es es.
Proof. split; [reflexivity|auto]. Qed.

Lemma keeps_dirs_trans a b c : keeps_dirs a b -> keeps_dirs b c -> keeps_dirs a c.
Proof. intros [Hab Hab'] [Hbc Hbc']. split; [congruence|auto]. Qed.

Lemma keeps_dirs_put_file x d es :
  (forall sub, get_entry x es <> Some (Dir sub)) ->
  keeps_dirs es (put_entry x (File d) es).
Proof.
  intros Hx. split; [now apply subdirs_put_file|].
  intros name sub Hname. destruct (str_eqb_spec x name) as [->|Hne].
  - exfalso. now apply (Hx sub).
  - now rewrite get_entry_put_other.
Qed.

Lemma has_file_subdirs es sub q name d :
  has_file (Dir es) (sub :: q) name d <-> has_file (Dir (subdirs es)) (sub :: q) name d.
Proof.
  split; intros Hf; inversion Hf as [|es0 sub0 x p0 name0 d0 Hin Hx]; subst.
  - apply (has_file_below _ sub x); [|exact Hx]. apply filter_In. split; [exact Hin|].
    cbn [snd]. destruct x; [inversion Hx|reflexivity].
  - apply (has_file_below _ sub x); [|exact Hx]. now apply filter_In in Hin.
Qed.

Lemma dir_kept_same_tree p es w w' : tree w' = tree w -> dir_kept p es w -> dir_kept p es w'.
Proof. intros Ht (es' & Hl & Hk). exists es'. now rewrite Ht. Qed.

Lemma write_file_kept p es x d w :
  dir_kept p es w ->
  dir_kept p es (snd (tree_update (p ++ [x]) (write_at d) w)).
Proof.
  intros (es' & Hl & Hk). unfold tree_update.
  destruct (get_entry x es') as [[d0|sub]|] eqn:Hx.
  - destruct (update_in_dir (write_at d) x (Some (File d)) p (tree w) es' Hl)
      as (t' & Hupd & Hl'); [now rewrite Hx|].
    rewrite Hupd. cbn [snd]. exists (put_entry x (File d) es'). split; [exact Hl'|].
    apply (keeps_dirs_trans _ _ _ Hk). apply keeps_dirs_put_file.
    intros sub. rewrite Hx. discriminate.
  - rewrite (update_raises_in_dir (write_at d) x IsADirectoryError p (tree w) es' Hl)
      by now rewrite Hx.
    cbn [snd]. now exists es'.
  - destruct (update_in_dir (write_at d) x (Some (File d)) p (tree w) es' Hl)
      as (t' & Hupd & Hl'); [now rewrite Hx|].
    rewrite Hupd. cbn [snd]. exists (put_entry x (File d) es'). split; [exact Hl'|].
    apply (keeps_dirs_trans _ _ _ Hk). apply keeps_dirs_put_file.
    intros sub. rewrite Hx. discriminate.
Qed.

Lemma read_text_world q w : snd (read_text q w) = w.
Proof.
  unfold read_text, tree_lookup, mbind, raise, ret.
  destruct (lookup q (Dir (tree w))) as [[[]|]|]; reflexivity.
Qed.

Lemma build_pdf_kept `{Libraries} p es x title paragraphs w :
  dir_kept p es w ->
  dir_kept p es (snd (build_pdf (p ++ [x]) title paragraphs w)).
Proof.
  intros Hk. unfold build_pdf.
  destruct (forallb paragraph_ok (title :: paragraphs)); [|exact Hk].
  now apply write_file_kept.
Qed.

Lemma json_to_pdf_kept `{Libraries} p es name x w :
  dir_kept p es w ->
  dir_kept p es (snd (json_to_pdf (p ++ [name]) (p ++ [x]) w)).
Proof.
  intros Hk. unfold json_to_pdf, mbind.
  pose proof (read_text_world (p ++ [name]) w) as Hw.
  destruct (read_text (p ++ [name]) w) as [[t|e] w1]; cbn [snd] in Hw; subst w1;
    [|exact Hk].
  destruct (match t with
              | Some text => json_loads text
              | None => Raise JSONDecodeError
              end);
    [now apply build_pdf_kept|exact Hk].
Qed.

Lemma xml_to_pdf_body_kept `{Libraries} p es name x w :
  dir_kept p es w ->
  dir_kept p es (snd (xml_to_pdf_body (p ++ [name]) (p ++ [x]) w)).
Proof.
  intros Hk. unfold xml_to_pdf_body, mbind.
  pose proof (read_text_world (p ++ [name]) w) as Hw.
  destruct (read_text (p ++ [name]) w) as [[t|e] w1]; cbn [snd] in Hw; subst w1;
    [|exact Hk].
  destruct (match t with Some text => ET_parse text | None => None end);
    [now apply build_pdf_kept|exact Hk].
Qed.

(** [xml_to_pdf] lets no exception out. *)
Lemma xml_to_pdf_returns `{Libraries} xml_path pdf_path w :
  fst (xml_to_pdf xml_path pdf_path w) = Return tt.
Proof.
  unfold xml_to_pdf.
  destruct (xml_to_pdf_body xml_path pdf_path w) as [[[]|e] w']; [reflexivity|].
  destruct e; reflexivity.
Qed.

Lemma xml_to_pdf_kept `{Libraries} p es name x w :
  dir_kept p es w ->
  dir_kept p es (snd (xml_to_pdf (p ++ [name]) (p ++ [x]) w)).
Proof.
  intros Hk. pose proof (xml_to_pdf_body_kept p es name x w Hk) as Hbody.
  unfold xml_to_pdf.
  destruct (xml_to_pdf_body (p ++ [name]) (p ++ [x]) w) as [[[]|e] w'];
    cbn [snd] in *; [exact Hbody|].
  destruct e; exact (dir_kept_same_tree p es w' _ eq_refl Hbody).
Qed.

Lemma render_entry_kept `{Libraries} p es name w :
  dir_kept p es w -> dir_kept p es (snd (render_entry p name w)).
Proof.
  intros Hk. unfold render_entry.
  destruct (endswith name (py ".json")); [now apply json_to_pdf_kept|].
  destruct (endswith name (py ".xml")); [now apply xml_to_pdf_kept|exact Hk].
Qed.

Lemma render_loop_kept `{Libraries} p es names : forall w,
  dir_kept p es w -> dir_kept p es (snd (for_each names (render_entry p) w)).
Proof.
  induction names as [|name names IH]; intros w Hk; [exact Hk|].
  cbn [for_each]. unfold mbind.
  pose proof (render_entry_kept p es name w Hk) as Hk1.
  destruct (render_entry p name w) as [[[]|e] w1]; cbn [snd] in *;
    [now apply IH|exact Hk1].
Qed.

(** A directory of a name that ends in [.json] is opened as a file. *)
Lemma render_entry_json_dir `{Libraries} p es name sub w :
  lookup p (Dir (tree w)) = Some (Dir es) ->
  get_entry name es = Some (Dir sub) ->
  endswith name (py ".json") = true ->
  render_entry p name w = (Raise IsADirectoryError, w).
Proof.
  intros Hl Hname Hjson. unfold render_entry. rewrite Hjson.
  unfold json_to_pdf, read_text, tree_lookup, mbind, raise.
  now rewrite (lookup_snoc _ _ _ _ Hl), Hname.
Qed.

(** A directory of a name that ends in [.xml] is opened as a file too, and
    [xml_to_pdf] prints the exception. *)
Lemma render_entry_xml_dir `{Libraries} p es name sub w :
  lookup p (Dir (tree w)) = Some (Dir es) ->
  get_entry name es = Some (Dir sub) ->
  endswith name (py ".json") = false ->
  endswith name (py ".xml") = true ->
  render_entry p name w = print (XmlFailed IsADirectoryError) w.
Proof.
  intros Hl Hname Hjson Hxml. unfold render_entry. rewrite Hjson, Hxml.
  unfold xml_to_pdf, xml_to_pdf_body, read_text, tree_lookup, mbind, raise.
  now rewrite (lookup_snoc _ _ _ _ Hl), Hname.
Qed.

Lemma render_entry_not_json `{Libraries} p name w :
  endswith name (py ".json") = false ->
  fst (render_entry p name w) = Return tt.
Proof.
  intros Hjson. unfold render_entry. rewrite Hjson.
  destruct (endswith name (py ".xml")); [apply xml_to_pdf_returns|reflexivity].
Qed.

Lemma render_loop_not_json `{Libraries} p names : forall w,
  (forall name, In name names -> endswith name (py ".json") = false) ->
  fst (for_each names (render_entry p) w) = Return tt.
Proof.
  induction names as [|name names IH]; intros w Hnames; [reflexivity|].
  cbn [for_each]. unfold mbind.
  pose proof (render_entry_not_json p name w (Hnames name (or_introl eq_refl))) as Hr.
  destruct (render_entry p name w) as [r w1]. cbn [fst] in Hr. subst r.
  apply IH. intros n Hn. apply Hnames. now right.
Qed.

Lemma render_loop_json_dir `{Libraries} p es name sub names : forall w,
  dir_kept p es w ->
  In name names ->
  get_entry name es = Some (Dir sub) ->
  endswith name (py ".json") = true ->
  exists e, fst (for_each names (render_entry p) w) = Raise e.
Proof.
  induction names as [|n names IH]; intros w Hk Hin Hname Hjson; [destruct Hin|].
  cbn [for_each]. unfold mbind.
  pose proof (render_entry_kept p es n w Hk) as Hk1.
  destruct (render_entry p n w) as [[[]|e] w1] eqn:Hn; cbn [snd] in Hk1.
  - destruct Hin as [->|Hin].
    + destruct Hk as (es' & Hl & _ & Hdirs).
      rewrite (render_entry_json_dir p es' name sub w Hl (Hdirs _ _ Hname) Hjson) in Hn.
      discriminate Hn.
    + now apply IH.
  - now exists e.
Qed.

Lemma render_all_loop `{Libraries} p es w :
  lookup p (Dir (tree w)) = Some (Dir es) ->
  render_all p w = for_each (map fst es) (render_entry p) w.
Proof.
  intros Hl. unfold render_all, listdir, tree_lookup, mbind, ret. now rewrite Hl.
Qed.

Lemma fetch_and_render_split `{Libraries} srv name project output_dir id w :
  fetch_and_render srv name project output_dir id w =
  match fetch_and_unzip srv name project output_dir id w with
  | (Return _, wu) => render_all (output_dir ++ [job_dirname id]) wu
  | (Raise e, w') => (Raise e, w')
  end.
Proof.
  unfold fetch_and_render, fetch_and_unzip, mbind.
  destruct (download_artifact srv project id w) as [[zip_path|e] w1]; [|reflexivity].
  destruct (print (Downloaded name zip_path) w1) as [[[]|e] w2]; [|reflexivity].
  destruct (unzip_to_dir zip_path (output_dir ++ [job_dirname id]) w2)
    as [[q|e] w3]; reflexivity.
Qed.

(** Once the archive is unpacked, the result of the job is the result of
    the loop. *)
Lemma process_job_unpacked `{Libraries} fuel srv name project pipeline output_dir w id wu :
  unpacked fuel srv name project pipeline output_dir w id wu ->
  process_job fuel srv name project pipeline output_dir w =
  match render_all (output_dir ++ [job_dirname id]) wu with
  | (Return _, w') => Some (true, w')
  | (Raise e, w') => Some (false, snd (print (JobFailed name e) w'))
  end.
Proof.
  intros (pages & q & Hget & Hrun).
  unfold process_job, process_job_body. rewrite Hget.
  unfold mbind in *.
  destruct (for_each pages (fun p => send (ListJobs project pipeline p)) w)
    as [[[]|e] ws]; [|discriminate Hrun].
  rewrite fetch_and_render_split, Hrun. reflexivity.
Qed.

Lemma get_entry_in_names name es x :
  get_entry name es = Some x -> In name (map fst es).
Proof.
  induction es as [|[n y] es IH]; cbn [get_entry map fst]; [discriminate|].
  destruct (str_eqb_spec n name) as [->|Hne]; [now left|]. intros Hx. right. now apply IH.
Qed.

Lemma endswith_xml_not_json name :
  endswith name (py ".xml") = true -> endswith name (py ".json") = false.
Proof.
  unfold endswith.
  change (rev (py ".xml")) with [108; 109; 120; 46].
  change (rev (py ".json")) with [110; 111; 115; 106; 46].
  destruct (rev name) as [|c r]; [discriminate|].
  cbn [startswith]. destruct (Z.eqb_spec c 108) as [->|Hne]; [|discriminate].
  reflexivity.
Qed.

(** C10.  The loop of [process_job] goes over the names that [os.listdir]
    gives for the extracted directory and renders at that level only: the
    subdirectories are after the loop what they were before, so no file
    inside one of them is rendered, while [zip_pdfs] finds the documents
    at every depth.  A directory whose name ends in [.json] is opened as a
    file, and the job is marked failed; only an entry of such a name can
    fail the job in the loop.  A directory whose name ends in [.xml] is
    opened as a file as well, but [xml_to_pdf] catches the exception and
    prints it, and the loop goes on. *)
Theorem render_loop_top_level_only `{Libraries}
    fuel srv job_name project pipeline output_dir w id wu es :
  unpacked fuel srv job_name project pipeline output_dir w id wu ->
  lookup (output_dir ++ [job_dirname id]) (Dir (tree wu)) = Some (Dir es) ->
  exists ok w' es',
    process_job fuel srv job_name project pipeline output_dir w = Some (ok, w') /\
    lookup (output_dir ++ [job_dirname id]) (Dir (tree w')) = Some (Dir es') /\
    subdirs es' = subdirs es /\
    (forall sub q file d,
       has_file (Dir es') (sub :: q) file d <-> has_file (Dir es) (sub :: q) file d) /\
    (forall dirpath file d,
       In (dirpath, file, d) (pdf_files (output_dir ++ [job_dirname id]) (tree w')) <->
       is_pdf_name file = true /\
       exists q, dirpath = (output_dir ++ [job_dirname id]) ++ q /\
                 has_file (Dir es') q file d) /\
    ((exists entry sub,
        get_entry entry es = Some (Dir sub) /\ endswith entry (py ".json") = true) ->
     ok = false) /\
    ((forall entry, In entry (map fst es) -> endswith entry (py ".json") = false) ->
     ok = true) /\
    (forall entry sub w0 es0,
       lookup (output_dir ++ [job_dirname id]) (Dir (tree w0)) = Some (Dir es0) ->
       get_entry entry es0 = Some (Dir sub) ->
       endswith entry (py ".xml") = true ->
       render_entry (output_dir ++ [job_dirname id]) entry w0 =
       print (XmlFailed IsADirectoryError) w0).
Proof.
  intros Hun Hl. set (p := output_dir ++ [job_dirname id]) in *.
  rewrite (process_job_unpacked _ _ _ _ _ _ _ _ _ Hun). fold p.
  rewrite (render_all_loop p es wu Hl).
  assert (Hk0 : dir_kept p es wu) by (exists es; split; [exact Hl|apply keeps_dirs_refl]).
  pose proof (render_loop_kept p es (map fst es) wu Hk0) as Hk.
  assert (Hxml : forall entry sub w0 es0,
             lookup p (Dir (tree w0)) = Some (Dir es0) ->
             get_entry entry es0 = Some (Dir sub) ->
             endswith entry (py ".xml") = true ->
             render_entry p entry w0 = print (XmlFailed IsADirectoryError) w0).
  { intros entry sub w0 es0 Hl0 Hentry Hend.
    exact (render_entry_xml_dir p es0 entry sub w0 Hl0 Hentry
             (endswith_xml_not_json entry Hend) Hend). }
  assert (Hfiles : forall es', subdirs es' = subdirs es ->
             forall sub q file d,
               has_file (Dir es') (sub :: q) file d <->
               has_file (Dir es) (sub :: q) file d).
  { intros es' Hsub sub q file d.
    rewrite (has_file_subdirs es'), (has_file_subdirs es), Hsub. reflexivity. }
  destruct (for_each (map fst es) (render_entry p) wu) as [[[]|e] w1] eqn:Hloop;
    cbn [snd] in Hk; destruct Hk as (es' & Hl' & Hsub & Hdirs).
  - exists true, w1, es'. split; [reflexivity|]. split; [exact Hl'|].
    split; [exact Hsub|]. split; [now apply Hfiles|].
    split; [intros dirpath file d; apply (in_pdf_files _ _ _ _ _ _ Hl')|].
    split; [|split; [reflexivity|exact Hxml]].
    intros (entry & sub & Hentry & Hjson). exfalso.
    destruct (render_loop_json_dir p es entry sub (map fst es) wu Hk0
                (get_entry_in_names _ _ _ Hentry) Hentry Hjson) as [e He].
    rewrite Hloop in He. discriminate He.
  - exists false, (snd (print (JobFailed job_name e) w1)), es'.
    split; [reflexivity|]. cbn [print snd tree]. split; [exact Hl'|].
    split; [exact Hsub|]. split; [now apply Hfiles|].
    split; [intros dirpath file d; apply (in_pdf_files _ _ _ _ _ _ Hl')|].
    split; [reflexivity|]. split; [|exact Hxml].
    intros Hnames. pose proof (render_loop_not_json p (map fst es) wu Hnames) as Hr.
    rewrite Hloop in Hr. discriminate Hr.
Qed.

Lemma render_loop_top_level_only_witness :
  exists ok w' es',
    @process_job toy_libraries 1 example_server (py "api") 1 2 [py "out"] empty_world
      = Some (ok, w') /\
    lookup ([py "out"] ++ [job_dirname 10]) (Dir (tree w')) = Some (Dir es') /\
    subdirs es' = subdirs api_unpacked_dir /\
    (forall sub q file d,
       has_file (Dir es') (sub :: q) file d <->
       has_file (Dir api_unpacked_dir) (sub :: q) file d) /\
    (forall dirpath file d,
       In (dirpath, file, d) (pdf_files ([py "out"] ++ [job_dirname 10]) (tree w')) <->
       is_pdf_name file = true /\
       exists q, dirpath = ([py "out"] ++ [job_dirname 10]) ++ q /\
                 has_file (Dir es') q file d) /\
    ((exists entry sub,
        get_entry entry api_unpacked_dir = Some (Dir sub) /\
        endswith entry (py ".json") = true) ->
     ok = false) /\
    ((forall entry, In entry (map fst api_unpacked_dir) ->
                    endswith entry (py ".json") = false) ->
     ok = true) /\
    (forall entry sub w0 es0,
       lookup ([py "out"] ++ [job_dirname 10]) (Dir (tree w0)) = Some (Dir es0) ->
       get_entry entry es0 = Some (Dir sub) ->
       endswith entry (py ".xml") = true ->
       @render_entry toy_libraries ([py "out"] ++ [job_dirname 10]) entry w0 =
       print (XmlFailed IsADirectoryError) w0).
Proof.
  apply (@render_loop_top_level_only toy_libraries 1%nat example_server (py "api")
           1 2 [py "out"] empty_world 10 api_unpacked_world api_unpacked_dir).
  - exists [1], [py "out"; job_dirname 10]. split; vm_compute; reflexivity.
  - vm_compute. reflexivity.
Defined.

(** The job [docs], whose archive holds a directory [api.xml]: the loop
    meets the directory, [xml_to_pdf] prints the exception, and the job
    ends with [True]. *)
Lemma xml_directory_does_not_fail_job :
  exists w',
    @process_job toy_libraries 1 example_server (py "docs") 1 2 [py "out"] empty_world
      = Some (true, w') /\
    lookup [py "out"; job_dirname 9; py "api.xml"] (Dir (tree w')) =
      Some (Dir [(py "index.json", File (Text (py "[1]")))]) /\
    stdout w' =
      [Downloaded (py "docs") (artifact_filename 9); XmlFailed IsADirectoryError].
Proof.
  destruct (@process_job toy_libraries 1 example_server (py "docs") 1 2 [py "out"]
              empty_world) as [[ok w']|] eqn:Hjob;
    [|vm_compute in Hjob; discriminate Hjob].
  assert (Hok : ok = true).
  { apply (f_equal (option_map fst)) in Hjob. vm_compute in Hjob. congruence. }
  assert (Htree : Some (lookup [py "out"; job_dirname 9; py "api.xml"] (Dir (tree w'))) =
                  Some (Some (Dir [(py "index.json", File (Text (py "[1]")))]))).
  { apply (f_equal (option_map
             (fun r => lookup [py "out"; job_dirname 9; py "api.xml"]
                              (Dir (tree (snd r)))))) in Hjob.
    cbn [option_map snd] in Hjob. rewrite <- Hjob. vm_compute. reflexivity. }
  assert (Hout : Some (stdout w') =
                 Some [Downloaded (py "docs") (artifact_filename 9);
                       XmlFailed IsADirectoryError]).
  { apply (f_equal (option_map (fun r => stdout (snd r)))) in Hjob.
    cbn [option_map snd] in Hjob. rewrite <- Hjob. vm_compute. reflexivity. }
  exists w'. subst ok. split; [reflexivity|].
  split; [now inversion Htree|now inversion Hout].
Qed.

(** ** The document of a JSON file *)

Lemma basename_snoc p x : basename (p ++ [x]) = x.
Proof. unfold basename. apply last_last. Qed.

Lemma read_text_file q text w :
  lookup q (Dir (tree w)) = Some (File (Text text)) ->
  read_text q w = (Return (Some text), w).
Proof. intros Hl. unfold read_text, mbind, tree_lookup, ret. now rewrite Hl. Qed.

(** Writing the file [x] of the directory at [q]. *)
Lemma write_file_in_dir q es x d w :
  lookup q (Dir (tree w)) = Some (Dir es) ->
  match get_entry x es with
  | Some (Dir _) =>
      tree_update (q ++ [x]) (write_at d) w = (Raise IsADirectoryError, w)
  | _ =>
      exists w',
        tree_update (q ++ [x]) (write_at d) w = (Return tt, w') /\
        lookup q (Dir (tree w')) = Some (Dir (put_entry x (File d) es)) /\
        cwd w' = cwd w /\ stdout w' = stdout w /\ requests w' = requests w
  end.
Proof.
  intros Hl. unfold tree_update.
  assert (Hwritten : forall o, write_at d o = Return (Some (File d)) ->
            get_entry x es = o ->
            exists w',
              match update (q ++ [x]) (write_at d) (tree w) with
              | Return es0 => (Return tt, mk_world (cwd w) es0 (stdout w) (requests w))
              | Raise e => (Raise e, w)
              end = (Return tt, w') /\
              lookup q (Dir (tree w')) = Some (Dir (put_entry x (File d) es)) /\
              cwd w' = cwd w /\ stdout w' = stdout w /\ requests w' = requests w).
  { intros o Ho Hx.
    destruct (update_in_dir (write_at d) x (Some (File d)) q (tree w) es Hl)
      as (t' & Hupd & Hl'); [now rewrite Hx|].
    rewrite Hupd. eexists. split; [reflexivity|]. cbn [tree cwd stdout requests].
    split; [exact Hl'|auto]. }
  destruct (get_entry x es) as [[d0|sub]|] eqn:Hx.
  - now apply (Hwritten (Some (File d0))).
  - rewrite (update_raises_in_dir (write_at d) x IsADirectoryError q (tree w) es Hl)
      by now rewrite Hx.
    reflexivity.
  - now apply (Hwritten None).
Qed.

Lemma lookup_written q es x d n :
  lookup q n = Some (Dir (put_entry x (File d) es)) ->
  lookup (q ++ [x]) n = Some (File d).
Proof. intros Hl. rewrite (lookup_snoc q x _ _ Hl). apply get_entry_put_same. Qed.




(** ** More on [get_job_id] *)

Lemma find_job_some name jobs id :
  find_job name jobs = Some id ->
  exists before j after,
    jobs = before ++ j :: after /\ job_name_of j = name /\ job_id_of j = id /\
    ~ In name (map job_name_of before).
Proof.
  induction jobs as [|j jobs IH]; cbn [find_job]; [discriminate|].
  destruct (str_eqb_spec (job_name_of j) name) as [Heq|Hne].
  - intros Hid. inversion Hid; subst. exists [], j, jobs. now repeat split.
  - intros Hfind. destruct (IH Hfind) as (before & j' & after & -> & Hn & Hi & Hmiss).
    exists (j :: before), j', after. repeat split; auto.
    cbn [map]. intros [Heq|Hin]; [now apply Hne|now apply Hmiss].
Qed.

Lemma get_job_id_from_sound jobs name : forall fuel p id pages,
  get_job_id_from fuel jobs name p = Some (Return id, pages) ->
  exists front q r before j after,
    pages = front ++ [q] /\
    jobs q = Answer r /\ raise_for_status r = Return tt /\
    body r = before ++ j :: after /\ job_name_of j = name /\ job_id_of j = id /\
    ~ In name (map job_name_of before) /\
    forall q', In q' front ->
      exists r', jobs q' = Answer r' /\ raise_for_status r' = Return tt /\
                 ~ In name (map job_name_of (body r')).
Proof.
  induction fuel as [|fuel IH]; intros p id pages; cbn [get_job_id_from];
    [discriminate|].
  destruct (jobs p) as [|r] eqn:Hp; [discriminate|].
  destruct (raise_for_status r) as [[]|e] eqn:Hst; [|discriminate].
  destruct (find_job name (body r)) as [id'|] eqn:Hfind.
  - intros Heq. inversion Heq; subst.
    destruct (find_job_some _ _ _ Hfind) as (before & j & after & Hb & Hn & Hi & Hmiss).
    exists [], p, r, before, j, after. repeat split; auto. intros q' [].
  - destruct (falsy (x_next_page r)); [discriminate|].
    destruct (py_int (header_text (x_next_page r))) as [next|]; [|discriminate].
    destruct (get_job_id_from fuel jobs name next) as [[res pages']|] eqn:Hrest;
      [|discriminate].
    intros Heq. inversion Heq; subst.
    destruct (IH _ _ _ Hrest)
      as (front & q & r' & before & j & after & -> & Hq & Hs & Hb & Hn & Hi & Hm & Hfront).
    exists (p :: front), q, r', before, j, after. repeat split; auto.
    intros q' [<-|Hin]; [|now apply Hfront].
    exists r. repeat split; auto. now apply find_job_none.
Qed.

(** An id that [get_job_id] returns is the id of the first job of the given
    name on the page requested last; every page requested before was
    answered with success and holds no job of that name. *)
Theorem get_job_id_sound jobs name fuel id pages :
  get_job_id fuel jobs name = Some (Return id, pages) ->
  exists front q r before j after,
    pages = front ++ [q] /\
    jobs q = Answer r /\ raise_for_status r = Return tt /\
    body r = before ++ j :: after /\ job_name_of j = name /\ job_id_of j = id /\
    ~ In name (map job_name_of before) /\
    forall q', In q' front ->
      exists r', jobs q' = Answer r' /\ raise_for_status r' = Return tt /\
                 ~ In name (map job_name_of (body r')).
Proof. apply get_job_id_from_sound. Qed.

Lemma get_job_id_sound_witness :
  exists front q r before j after,
    [1; 2] = front ++ [q] /\
    listing_server [[mk_job (py "lint") 7]; [mk_job (py "test") 8]] q = Answer r /\
    raise_for_status r = Return tt /\
    body r = before ++ j :: after /\ job_name_of j = py "test" /\ job_id_of j = 8 /\
    ~ In (py "test") (map job_name_of before) /\
    forall q', In q' front ->
      exists r', listing_server [[mk_job (py "lint") 7]; [mk_job (py "test") 8]] q'
                   = Answer r' /\
                 raise_for_status r' = Return tt /\
                 ~ In (py "test") (map job_name_of (body r')).
Proof.
  apply (get_job_id_sound
           (listing_server [[mk_job (py "lint") 7]; [mk_job (py "test") 8]])
           (py "test") 2%nat 8 [1; 2]).
  vm_compute. reflexivity.
Defined.

Lemma not_found_is_no_invalid_literal name s :
  ValueError (invalid_literal_msg s) <> ValueError (not_found_msg name).
Proof.
  unfold invalid_literal_msg, not_found_msg. intros Heq.
  apply (f_equal (fun e => match e with ValueError (c :: _) => c | _ => 0 end)) in Heq.
  vm_compute in Heq. discriminate Heq.
Qed.

Lemma get_job_id_from_not_found jobs name : forall fuel p pages,
  get_job_id_from fuel jobs name p
    = Some (Raise (ValueError (not_found_msg name)), pages) ->
  (forall q, In q pages ->
     exists r, jobs q = Answer r /\ raise_for_status r = Return tt /\
               ~ In name (map job_name_of (body r))) /\
  exists front q r,
    pages = front ++ [q] /\ jobs q = Answer r /\ falsy (x_next_page r) = true.
Proof.
  induction fuel as [|fuel IH]; intros p pages; cbn [get_job_id_from];
    [discriminate|].
  destruct (jobs p) as [|r] eqn:Hp; [discriminate|].
  destruct (raise_for_status r) as [[]|e] eqn:Hst.
  2:{ intros Heq. inversion Heq as [[He Hpages]]. subst.
      unfold raise_for_status in Hst.
      destruct ((400 <=? status_code r) && (status_code r <? 600)); discriminate Hst. }
  destruct (find_job name (body r)) as [id'|] eqn:Hfind; [discriminate|].
  destruct (falsy (x_next_page r)) eqn:Hfalsy.
  - intros Heq. inversion Heq; subst. split.
    + intros q [<-|[]]. exists r. repeat split; auto. now apply find_job_none.
    + now exists [], p, r.
  - destruct (py_int (header_text (x_next_page r))) as [next|].
    + destruct (get_job_id_from fuel jobs name next) as [[res pages']|] eqn:Hrest;
        [|discriminate].
      intros Heq. inversion Heq; subst.
      destruct (IH _ _ Hrest) as [Hall (front & q & r' & -> & Hq & Hf')]. split.
      * intros q' [<-|Hin]; [|now apply Hall].
        exists r. repeat split; auto. now apply find_job_none.
      * now exists (p :: front), q, r'.
    + intros Heq. exfalso.
      apply (not_found_is_no_invalid_literal name (header_text (x_next_page r))).
      congruence.
Qed.

(** The not-found error means what it says: every page requested was
    answered with success and holds no job of the given name, and the page
    requested last carries no cursor. *)
Theorem get_job_id_not_found_only_after_last_page jobs name fuel pages :
  get_job_id fuel jobs name = Some (Raise (ValueError (not_found_msg name)), pages) ->
  (forall q, In q pages ->
     exists r, jobs q = Answer r /\ raise_for_status r = Return tt /\
               ~ In name (map job_name_of (body r))) /\
  exists front q r,
    pages = front ++ [q] /\ jobs q = Answer r /\ falsy (x_next_page r) = true.
Proof. apply get_job_id_from_not_found. Qed.

Lemma get_job_id_not_found_only_after_last_page_witness :
  (forall q, In q [1; 2] ->
     exists r, listing_server [[mk_job (py "lint") 7]; [mk_job (py "test") 8]] q
                 = Answer r /\
               raise_for_status r = Return tt /\
               ~ In (py "deploy") (map job_name_of (body r))) /\
  exists front q r,
    [1; 2] = front ++ [q] /\
    listing_server [[mk_job (py "lint") 7]; [mk_job (py "test") 8]] q = Answer r /\
    falsy (x_next_page r) = true.
Proof.
  apply (get_job_id_not_found_only_after_last_page
           (listing_server [[mk_job (py "lint") 7]; [mk_job (py "test") 8]])
           (py "deploy") 2%nat [1; 2]).
  vm_compute. reflexivity.
Defined.

(** Nothing bounds the number of pages: when every page that can be reached
    lacks the job and names a next page, the loop of [get_job_id] never
    ends. *)
Theorem get_job_id_follows_cursor_forever jobs name (reached : Z -> Prop) :
  reached 1 ->
  (forall p, reached p ->
     exists r next,
       jobs p = Answer r /\ raise_for_status r = Return tt /\
       find_job name (body r) = None /\ falsy (x_next_page r) = false /\
       py_int (header_text (x_next_page r)) = Some next /\ reached next) ->
  forall fuel, get_job_id fuel jobs name = None.
Proof.
  intros H1 Hstep fuel. unfold get_job_id. revert H1. generalize 1.
  induction fuel as [|fuel IH]; intros p Hp; cbn [get_job_id_from]; [reflexivity|].
  destruct (Hstep p Hp) as (r & next & -> & -> & -> & -> & -> & Hnext).
  now rewrite (IH next Hnext).
Qed.

Lemma get_job_id_follows_cursor_forever_witness :
  get_job_id 1000 looping_server (py "lint") = None.
Proof.
  apply (get_job_id_follows_cursor_forever looping_server (py "lint") (fun _ => True) I).
  intros p _. exists (mk_response 200 (Some (py "1")) []), 1.
  repeat split; reflexivity.
Defined.

(** ** The names of directories and files *)

Lemma app_underscore_inj a b x y :
  Forall (fun c => number_char c = true) a ->
  Forall (fun c => number_char c = true) b ->
  a ++ 95 :: x = b ++ 95 :: y -> a = b /\ x = y.
Proof.
  intros Ha. revert b. induction Ha as [|c a Hc Ha IH]; intros b Hb Heq.
  - destruct Hb as [|d b Hd Hb]; cbn [app] in Heq.
    + inversion Heq. now split.
    + inversion Heq; subst. discriminate Hd.
  - destruct Hb as [|d b Hd Hb]; cbn [app] in Heq.
    + inversion Heq; subst. discriminate Hc.
    + inversion Heq; subst. destruct (IH b Hb H1) as [-> ->]. now split.
Qed.

Lemma str_of_int_inj a b : str_of_int a = str_of_int b -> a = b.
Proof.
  intros Heq. pose proof (py_int_str_of_int a) as Ha.
  rewrite Heq, py_int_str_of_int in Ha. congruence.
Qed.

(** Two configurations share their output directory only when they name the
    same project and the same pipeline (both ids being integers). *)
Theorem config_dirname_injective c1 c2 :
  config_dirname c1 = config_dirname c2 ->
  project_id c1 = project_id c2 /\ pipeline_id c1 = pipeline_id c2.
Proof.
  unfold config_dirname. intros Heq. apply app_inv_head in Heq.
  change (py "_pipeline_") with (95 :: py "pipeline_") in Heq.
  cbn [app] in Heq.
  destruct (app_underscore_inj _ _ _ _ (str_of_int_chars _) (str_of_int_chars _) Heq)
    as [Hproject Hrest].
  apply app_inv_head in Hrest.
  split; now apply str_of_int_inj.
Qed.

Lemma config_dirname_injective_witness :
  project_id (mk_config 1 23 (py "a_") [py "lint"]) = project_id (mk_config 1 23 [] [])
  /\ pipeline_id (mk_config 1 23 (py "a_") [py "lint"])
     = pipeline_id (mk_config 1 23 [] []).
Proof.
  apply (config_dirname_injective (mk_config 1 23 (py "a_") [py "lint"])
                                  (mk_config 1 23 [] [])).
  reflexivity.
Defined.

(** Jobs of different ids never share the directory their archive is
    unpacked to, nor the file their archive is downloaded to. *)
Theorem job_names_injective a b :
  job_dirname a = job_dirname b \/ artifact_filename a = artifact_filename b ->
  a = b.
Proof.
  unfold job_dirname, artifact_filename. intros [Heq|Heq]; apply app_inv_head in Heq.
  - now apply str_of_int_inj.
  - change (py "_artifacts.zip") with (95 :: py "artifacts.zip") in Heq.
    destruct (app_underscore_inj _ _ _ _ (str_of_int_chars _) (str_of_int_chars _) Heq)
      as [Hid _].
    now apply str_of_int_inj.
Qed.

Lemma job_names_injective_witness : 10 = 5 + 5.
Proof.
  apply (job_names_injective 10 (5 + 5)). left. reflexivity.
Defined.

(** ** The name of a rendered document *)

Lemma after_dot_app l r : ~ In 46 l -> after_dot (l ++ 46 :: r) = Some r.
Proof.
  induction l as [|c l IH]; intros Hl; cbn [app after_dot].
  - reflexivity.
  - destruct (Z.eqb_spec c 46) as [->|Hne]; [exfalso; apply Hl; now left|].
    apply IH. intros Hin. apply Hl. now right.
Qed.

Lemma forallb_rev_eq {A} (f : A -> bool) l : forallb f (rev l) = forallb f l.
Proof.
  induction l as [|x l IH]; [reflexivity|].
  cbn [rev forallb]. rewrite forallb_app, IH. cbn [forallb].
  rewrite andb_true_r. apply andb_comm.
Qed.

Lemma splitext_root_ext stem ext :
  ~ In 46 ext ->
  splitext_root (stem ++ 46 :: ext) =
  if forallb (Z.eqb 46) stem then stem ++ 46 :: ext else stem.
Proof.
  intros Hext. unfold splitext_root.
  replace (rev (stem ++ 46 :: ext)) with (rev ext ++ 46 :: rev stem).
  - rewrite after_dot_app by (now rewrite <- in_rev).
    rewrite forallb_rev_eq, rev_involutive. reflexivity.
  - rewrite rev_app_distr. cbn [rev]. now rewrite <- app_assoc.
Qed.

Lemma splitext_root_json stem :
  forallb (Z.eqb 46) stem = false -> splitext_root (stem ++ py ".json") = stem.
Proof.
  intros Hstem. change (py ".json") with (46 :: py "json").
  rewrite splitext_root_ext, Hstem; [reflexivity|].
  vm_compute. intros [H|[H|[H|[H|[]]]]]; discriminate H.
Qed.

Lemma splitext_root_xml stem :
  forallb (Z.eqb 46) stem = false -> splitext_root (stem ++ py ".xml") = stem.
Proof.
  intros Hstem. change (py ".xml") with (46 :: py "xml").
  rewrite splitext_root_ext, Hstem; [reflexivity|].
  vm_compute. intros [H|[H|[H|[]]]]; discriminate H.
Qed.

(** ** The characters of the paragraphs *)

Lemma hex_digit_printable n : is_printable (hex_digit (n mod 16)) = true.
Proof.
  pose proof (Z.mod_pos_bound n 16 ltac:(lia)) as Hn.
  unfold hex_digit, is_printable. destruct (Z.ltb_spec (n mod 16) 10); lia.
Qed.

Lemma hex4_printable n : Forall (fun c => is_printable c = true) (hex4 n).
Proof. unfold hex4. repeat constructor; apply hex_digit_printable. Qed.

Lemma escape_char_printable c : Forall (fun x => is_printable x = true) (escape_char c).
Proof.
  unfold escape_char.
  destruct (c =? 92); [repeat constructor|].
  destruct (c =? 34); [repeat constructor|].
  destruct ((32 <=? c) && (c <=? 126)) eqn:Hc; [repeat constructor; exact Hc|].
  destruct (c =? 8); [repeat constructor|].
  destruct (c =? 12); [repeat constructor|].
  destruct (c =? 10); [repeat constructor|].
  destruct (c =? 13); [repeat constructor|].
  destruct (c =? 9); [repeat constructor|].
  destruct (c <? 65536).
  - repeat (constructor; [reflexivity|]). apply hex4_printable.
  - apply Forall_app. split; repeat (constructor; [reflexivity|]); apply hex4_printable.
Qed.

Lemma encode_string_printable s :
  Forall (fun c => is_printable c = true) (encode_string s).
Proof.
  unfold encode_string. constructor; [reflexivity|].
  apply Forall_app. split; [|repeat constructor].
  induction s as [|c s IH]; [constructor|].
  cbn [flat_map]. apply Forall_app. split; [apply escape_char_printable|exact IH].
Qed.

Lemma number_char_printable c : number_char c = true -> is_printable c = true.
Proof.
  unfold number_char, is_digit, is_printable. intros Hc.
  repeat (apply orb_true_iff in Hc; destruct Hc as [Hc|Hc]); lia.
Qed.

Lemma float_printable text :
  float_ok text = true -> Forall (fun c => is_printable c = true) text.
Proof.
  intros Hok. destruct (float_ok_cases text Hok) as [->|[->|[->|Hscan]]];
    try (repeat constructor).
  destruct (scan_number_whole _ _ Hscan) as [Hchars _].
  eapply Forall_impl; [|exact Hchars]. apply number_char_printable.
Qed.

Lemma newline_indent_chars level :
  Forall (fun c => is_printable c = true \/ c = 10) (newline_indent level).
Proof.
  unfold newline_indent. constructor; [now right|].
  apply Forall_forall. intros c Hc. apply repeat_spec in Hc. subst. now left.
Qed.

Lemma printable_or_newline s :
  Forall (fun c => is_printable c = true) s ->
  Forall (fun c => is_printable c = true \/ c = 10) s.
Proof. apply Forall_impl. intros c Hc. now left. Qed.

Lemma join_chars (P : Z -> Prop) sep parts :
  Forall P sep -> Forall (Forall P) parts -> Forall P (join sep parts).
Proof.
  intros Hsep Hparts. induction Hparts as [|x rest Hx Hrest IH]; [constructor|].
  cbn [join]. destruct rest as [|y rest]; [exact Hx|].
  apply Forall_app. split; [exact Hx|]. apply Forall_app. now split.
Qed.

Lemma encode_chars v : forall level,
  json_ok v = true ->
  Forall (fun c => is_printable c = true \/ c = 10) (encode level v).
Proof.
  induction v as [| b | n | t | s | items IH | items IH] using json_nested_ind;
    intros level Hok; cbn [encode].
  - apply printable_or_newline. repeat constructor.
  - apply printable_or_newline. destruct b; repeat constructor.
  - apply printable_or_newline. eapply Forall_impl; [|apply str_of_int_chars].
    apply number_char_printable.
  - apply printable_or_newline. now apply float_printable.
  - apply printable_or_newline. apply encode_string_printable.
  - destruct items as [|v0 items']; [apply printable_or_newline; repeat constructor|].
    set (all := v0 :: items') in *. cbn [json_ok] in Hok.
    constructor; [now left|]. apply Forall_app. split; [apply newline_indent_chars|].
    apply Forall_app. split.
    + apply join_chars.
      * constructor; [now left|]. apply newline_indent_chars.
      * apply Forall_forall. intros text Htext. apply in_map_iff in Htext.
        destruct Htext as (v & <- & Hv).
        rewrite Forall_forall in IH. apply (IH v Hv).
        rewrite forallb_forall in Hok. now apply Hok.
    + apply Forall_app. split; [apply newline_indent_chars|].
      constructor; [now left|constructor].
  - destruct items as [|kv0 items']; [apply printable_or_newline; repeat constructor|].
    set (all := kv0 :: items') in *. cbn [json_ok] in Hok.
    apply andb_true_iff in Hok. destruct Hok as [_ Hok].
    constructor; [now left|]. apply Forall_app. split; [apply newline_indent_chars|].
    apply Forall_app. split.
    + apply join_chars.
      * constructor; [now left|]. apply newline_indent_chars.
      * apply Forall_forall. intros text Htext. apply in_map_iff in Htext.
        destruct Htext as (kv & <- & Hkv).
        apply Forall_app. split;
          [apply printable_or_newline, encode_string_printable|].
        apply Forall_app. split; [apply printable_or_newline; repeat constructor|].
        rewrite Forall_forall in IH. apply (IH kv Hkv).
        rewrite forallb_forall in Hok. specialize (Hok kv Hkv).
        now apply andb_true_iff in Hok.
    + apply Forall_app. split; [apply newline_indent_chars|].
      constructor; [now left|constructor].
Qed.

Lemma split_chars (P : Z -> Prop) sep s :
  Forall (fun c => P c \/ c = sep) s -> Forall (Forall P) (split sep s).
Proof.
  induction 1 as [|c s Hc Hs IH]; cbn [split]; [repeat constructor|].
  destruct (Z.eqb_spec c sep) as [->|Hne]; [now constructor|].
  destruct (split sep s) as [|part parts].
  - constructor; [|constructor]. constructor; [|constructor]. destruct Hc; congruence.
  - inversion IH; subst. constructor; [|assumption].
    constructor; [destruct Hc; congruence|assumption].
Qed.

Lemma skipn_chars {A} (P : A -> Prop) n : forall l, Forall P l -> Forall P (skipn n l).
Proof.
  induction n as [|n IH]; intros l Hl; [exact Hl|].
  destruct Hl as [|x l Hx Hl]; [constructor|]. cbn [skipn]. now apply IH.
Qed.

Lemma nbsp_line_printable line :
  Forall (fun c => is_printable c = true) line ->
  Forall (fun c => is_printable c = true) (nbsp_line line).
Proof.
  intros Hline. unfold nbsp_line.
  destruct (0 <? leading_spaces line)%nat; [|exact Hline].
  apply Forall_app. split; [|now apply skipn_chars].
  induction (leading_spaces line) as [|n IH]; [constructor|].
  cbn [repeat concat]. apply Forall_app. split; [repeat constructor|exact IH].
Qed.

Lemma json_paragraphs_printable v :
  json_ok v = true ->
  Forall (Forall (fun c => is_printable c = true)) (json_paragraphs v).
Proof.
  intros Hok. unfold json_paragraphs, dumps.
  pose proof (split_chars _ 10 _ (encode_chars v 0 Hok)) as Hlines.
  apply Forall_forall. intros para Hpara. apply in_map_iff in Hpara.
  destruct Hpara as (line & <- & Hline). apply nbsp_line_printable.
  rewrite Forall_forall in Hlines. now apply Hlines.
Qed.

(** What [open(p, 'wb')] has written is at [p]. *)
Lemma update_write_lookup d : forall p t t',
  update p (write_at d) t = Return t' -> lookup p (Dir t') = Some (File d).
Proof.
  induction p as [|a p IH]; intros t t' Hupd; [discriminate Hupd|].
  destruct p as [|b p].
  - cbn [update] in Hupd. unfold write_at in Hupd.
    destruct (get_entry a t) as [[d0|sub]|]; cbn [bind] in Hupd;
      try discriminate Hupd; inversion Hupd; subst t';
      cbn [lookup set_entry]; now rewrite get_entry_put_same.
  - rewrite update_cons2 in Hupd.
    destruct (get_entry a t) as [[d0|sub]|]; try discriminate Hupd.
    destruct (update (b :: p) (write_at d) sub) as [sub'|e] eqn:Hsub;
      cbn [bind] in Hupd; [|discriminate Hupd].
    inversion Hupd; subst t'. rewrite lookup_cons, get_entry_put_same.
    exact (IH sub sub' Hsub).
Qed.



(** ** The paragraphs of an XML document *)

Lemma html_escape_char_cases c :
  (c = 38 /\ html_escape_char c = [38; 97; 109; 112; 59]) \/
  (c = 60 /\ html_escape_char c = [38; 108; 116; 59]) \/
  (c = 62 /\ html_escape_char c = [38; 103; 116; 59]) \/
  (c = 34 /\ html_escape_char c = [38; 113; 117; 111; 116; 59]) \/
  (c = 39 /\ html_escape_char c = [38; 35; 120; 50; 55; 59]) \/
  (c <> 38 /\ c <> 60 /\ c <> 62 /\ c <> 34 /\ c <> 39 /\ html_escape_char c = [c]).
Proof.
  unfold html_escape_char.
  destruct (Z.eqb_spec c 38); [now left|].
  destruct (Z.eqb_spec c 60); [right; now left|].
  destruct (Z.eqb_spec c 62); [right; right; now left|].
  destruct (Z.eqb_spec c 34); [right; right; right; now left|].
  destruct (Z.eqb_spec c 39); [right; right; right; right; now left|].
  repeat right. now repeat split.
Qed.

Lemma html_escape_inj : forall a b, html_escape a = html_escape b -> a = b.
Proof.
  unfold html_escape.
  induction a as [|c a IH]; intros [|d b] Heq; cbn [flat_map] in Heq.
  - reflexivity.
  - exfalso.
    destruct (html_escape_char_cases d) as [[_ Hd]|[[_ Hd]|[[_ Hd]|[[_ Hd]|[[_ Hd]|Hd]]]]];
      [| | | | |destruct Hd as (_ & _ & _ & _ & _ & Hd)];
      rewrite Hd in Heq; discriminate Heq.
  - exfalso.
    destruct (html_escape_char_cases c) as [[_ Hc]|[[_ Hc]|[[_ Hc]|[[_ Hc]|[[_ Hc]|Hc]]]]];
      [| | | | |destruct Hc as (_ & _ & _ & _ & _ & Hc)];
      rewrite Hc in Heq; discriminate Heq.
  - assert (Hhead : c = d /\ flat_map html_escape_char a = flat_map html_escape_char b).
    { destruct (html_escape_char_cases c)
        as [[Hc Hec]|[[Hc Hec]|[[Hc Hec]|[[Hc Hec]|[[Hc Hec]|Hc]]]]];
        [| | | | |destruct Hc as (Hc1 & Hc2 & Hc3 & Hc4 & Hc5 & Hec)];
        destruct (html_escape_char_cases d)
          as [[Hd Hed]|[[Hd Hed]|[[Hd Hed]|[[Hd Hed]|[[Hd Hed]|Hd]]]]];
        try destruct Hd as (Hd1 & Hd2 & Hd3 & Hd4 & Hd5 & Hed);
        rewrite Hec, Hed in Heq; cbn [app] in Heq;
        inversion Heq; subst; try (now split); try congruence; try lia. }
    destruct Hhead as [-> Htail]. f_equal. now apply IH.
Qed.

Lemma html_escape_chars line :
  ~ In 10 line ->
  Forall (fun c => c <> 60 /\ c <> 62 /\ c <> 34 /\ c <> 39 /\ c <> 10)
         (html_escape line).
Proof.
  unfold html_escape. induction line as [|c line IH]; intros Hline; [constructor|].
  cbn [flat_map]. apply Forall_app. split.
  - destruct (html_escape_char_cases c)
      as [[_ Hc]|[[_ Hc]|[[_ Hc]|[[_ Hc]|[[_ Hc]|Hc]]]]];
      [| | | | |destruct Hc as (Hc1 & Hc2 & Hc3 & Hc4 & Hc5 & Hc)];
      rewrite Hc; repeat constructor; try lia; try assumption.
    intros ->. apply Hline. now left.
  - apply IH. intros Hin. apply Hline. now right.
Qed.

Lemma split_no_sep sep s : Forall (fun part => ~ In sep part) (split sep s).
Proof.
  induction s as [|c s IH]; cbn [split]; [repeat constructor; intros []|].
  destruct (Z.eqb_spec c sep) as [->|Hne].
  - constructor; [intros []|exact IH].
  - destruct (split sep s) as [|part parts].
    + repeat constructor. intros [Heq|[]]. now apply Hne.
    + inversion IH; subst. constructor; [|assumption].
      intros [Heq|Hin]; [now apply Hne|contradiction].
Qed.

Lemma map_inj {A B} (f : A -> B) :
  (forall x y, f x = f y -> x = y) -> forall l l', map f l = map f l' -> l = l'.
Proof.
  intros Hf. induction l as [|x l IH]; intros [|y l'] Heq; try discriminate Heq.
  - reflexivity.
  - cbn [map] in Heq. inversion Heq. f_equal; [now apply Hf|now apply IH].
Qed.


(** ** [clean_output_dir] and the loop of [main] *)

(** [clean_output_dir] removes a directory with all it holds and does
    nothing when there is none: afterwards the path does not exist, the
    other entries of the parent directory are as before, and a second call
    changes nothing. *)
Theorem clean_output_dir_removes parent name es w :
  lookup parent (Dir (tree w)) = Some (Dir es) ->
  (forall data, get_entry name es <> Some (File data)) ->
  exists w',
    clean_output_dir (parent ++ [name]) w = (Return tt, w') /\
    lookup parent (Dir (tree w')) = Some (Dir (del_entry name es)) /\
    lookup (parent ++ [name]) (Dir (tree w')) = None /\
    (forall other, other <> name ->
       get_entry other (del_entry name es) = get_entry other es) /\
    clean_output_dir (parent ++ [name]) w' = (Return tt, w').
Proof.
  intros Hl Hname.
  assert (Hgone : forall w', lookup parent (Dir (tree w')) = Some (Dir (del_entry name es)) ->
            lookup (parent ++ [name]) (Dir (tree w')) = None /\
            clean_output_dir (parent ++ [name]) w' = (Return tt, w')).
  { intros w' Hl'.
    assert (Hnone : lookup (parent ++ [name]) (Dir (tree w')) = None)
      by (rewrite (lookup_snoc _ _ _ _ Hl'); apply get_entry_del_same).
    split; [exact Hnone|].
    unfold clean_output_dir, path_exists, tree_lookup, mbind, ret. now rewrite Hnone. }
  assert (Hother : forall other, other <> name ->
            get_entry other (del_entry name es) = get_entry other es)
    by (intros other Hne; apply get_entry_del_other; congruence).
  unfold clean_output_dir, path_exists, tree_lookup, mbind, ret.
  rewrite (lookup_snoc _ _ _ _ Hl).
  destruct (get_entry name es) as [[data|sub]|] eqn:Hentry.
  - exfalso. now apply (Hname data).
  - destruct (update_in_dir rmtree_at name None parent (tree w) es Hl)
      as (t' & Hupd & Hl'); [now rewrite Hentry|].
    unfold tree_update. rewrite Hupd. cbn [set_entry] in Hl'.
    eexists. split; [reflexivity|]. cbn [tree].
    destruct (Hgone (mk_world (cwd w) t' (stdout w) (requests w)) Hl') as [Hnone Hagain].
    repeat split; assumption.
  - assert (Hsame : del_entry name es = es)
      by (apply del_entry_id; now apply get_entry_none_iff).
    exists w. rewrite Hsame in *. destruct (Hgone w Hl) as [Hnone Hagain].
    repeat split; assumption.
Qed.

Lemma clean_output_dir_removes_witness :
  exists w',
    clean_output_dir ([py "out"] ++ [py "job_1"]) two_documents_world = (Return tt, w') /\
    lookup [py "out"] (Dir (tree w')) = Some (Dir (del_entry (py "job_1") two_documents)) /\
    lookup ([py "out"] ++ [py "job_1"]) (Dir (tree w')) = None /\
    (forall other, other <> py "job_1" ->
       get_entry other (del_entry (py "job_1") two_documents)
       = get_entry other two_documents) /\
    clean_output_dir ([py "out"] ++ [py "job_1"]) w' = (Return tt, w').
Proof.
  apply (clean_output_dir_removes [py "out"] (py "job_1") two_documents
           two_documents_world).
  - reflexivity.
  - intros data. vm_compute. discriminate.
Defined.

Lemma produced_names steps name :
  ~ In name (map fst steps) -> get_entry name (produced steps) = None.
Proof.
  intros Hname. destruct (assign_all_no_files steps []) as [_ Hprod];
    [intros d _; reflexivity|].
  apply get_entry_none_iff. unfold no_entry.
  eapply Forall_impl; [|exact Hprod]. intros e [He _] Heq. apply Hname. now rewrite <- Heq.
Qed.



(** When a regular file holds the name of a configuration's directory,
    [shutil.rmtree] raises, nobody catches it, and the driver stops there
    with the exit status 1: no request of this or a later configuration is
    sent, and the world is left as it was. *)
Theorem main_stops_at_regular_file `{Libraries}
    fuel srv token url c configs w data :
  falsy token = false -> falsy url = false ->
  get_entry (config_dirname c) (tree w) = Some (File data) ->
  main fuel srv (mk_invocation token url (Loaded (c :: configs))) w = Some (1, w).
Proof.
  intros Htoken Hurl Hfile. unfold main.
  cbn [GITLAB_TOKEN GITLAB_BASE_URL config_path run_configs]. rewrite Htoken, Hurl.
  unfold run_config. now rewrite (clean_output_dir_file _ w data Hfile).
Qed.

Lemma main_stops_at_regular_file_witness :
  @main toy_libraries 1 example_server
      (mk_invocation (Some (py "t")) (Some (py "u"))
                     (Loaded (example_config :: [mk_config 3 4 [] [py "docs"]])))
      (mk_world (fun _ => None) [(config_dirname example_config, File (Text []))] [] [])
  = Some (1, mk_world (fun _ => None)
                      [(config_dirname example_config, File (Text []))] [] []).
Proof.
  apply (@main_stops_at_regular_file toy_libraries 1%nat example_server
           (Some (py "t")) (Some (py "u")) example_config
           [mk_config 3 4 [] [py "docs"]]
           (mk_world (fun _ => None) [(config_dirname example_config, File (Text []))]
                     [] [])
           (Text [])).
  - reflexivity.
  - reflexivity.
  - vm_compute. reflexivity.
Defined.

(** ** The downloaded archive *)

Lemma cwd_kept_ret {A} (x : A) : cwd_kept (ret x).
Proof. intros w. reflexivity. Qed.

Lemma cwd_kept_raise {A} e : cwd_kept (@raise A e).
Proof. intros w. reflexivity. Qed.

Lemma cwd_kept_bind {A B} (m : M A) (k : A -> M B) :
  cwd_kept m -> (forall x, cwd_kept (k x)) -> cwd_kept (mbind m k).
Proof.
  intros Hm Hk w. unfold mbind. specialize (Hm w).
  destruct (m w) as [[x|e] w1]; cbn [snd] in *; [|exact Hm].
  now rewrite Hk.
Qed.

Lemma cwd_kept_for_each {A} (xs : list A) (body : A -> M unit) :
  (forall x, cwd_kept (body x)) -> cwd_kept (for_each xs body).
Proof.
  intros Hbody. induction xs as [|x xs IH]; cbn [for_each]; [apply cwd_kept_ret|].
  apply cwd_kept_bind; [apply Hbody|]. intros _. exact IH.
Qed.

Lemma cwd_kept_tree_lookup p : cwd_kept (tree_lookup p).
Proof. intros w. reflexivity. Qed.

Lemma cwd_kept_tree_update p f : cwd_kept (tree_update p f).
Proof. intros w. unfold tree_update. destruct (update p f (tree w)); reflexivity. Qed.

Lemma cwd_kept_path_exists p : cwd_kept (path_exists p).
Proof.
  apply cwd_kept_bind; [apply cwd_kept_tree_lookup|]. intros o. apply cwd_kept_ret.
Qed.

Lemma cwd_kept_isdir p : cwd_kept (isdir p).
Proof.
  apply cwd_kept_bind; [apply cwd_kept_tree_lookup|]. intros o. apply cwd_kept_ret.
Qed.

Lemma cwd_kept_makedirs p : cwd_kept (makedirs p).
Proof.
  apply cwd_kept_bind; [|intros _; apply cwd_kept_tree_update].
  apply cwd_kept_for_each. intros q.
  apply cwd_kept_bind; [apply cwd_kept_path_exists|].
  intros [|]; [apply cwd_kept_ret|apply cwd_kept_tree_update].
Qed.

Lemma cwd_kept_extract_member extract_dir m : cwd_kept (extract_member extract_dir m).
Proof.
  unfold extract_member.
  apply cwd_kept_bind; [apply cwd_kept_path_exists|]. intros e.
  apply cwd_kept_bind; [destruct e; [apply cwd_kept_ret|apply cwd_kept_makedirs]|].
  intros _. destruct (endswith (fst m) [47]); [|apply cwd_kept_tree_update].
  apply cwd_kept_bind; [apply cwd_kept_isdir|].
  intros [|]; [apply cwd_kept_ret|apply cwd_kept_tree_update].
Qed.

(** [unzip_to_dir] removes the archive file once everything is extracted,
    and only then. *)
Lemma unzip_to_dir_archive_file zip_path extract_dir data w :
  cwd w zip_path = Some data ->
  match unzip_to_dir zip_path extract_dir w with
  | (Return q, w') =>
      q = extract_dir /\ cwd w' zip_path = None /\
      (exists members, data = ZipArchive members) /\
      forall n, n <> zip_path -> cwd w' n = cwd w n
  | (Raise _, w') => cwd w' = cwd w
  end.
Proof.
  intros Hfile. unfold unzip_to_dir.
  unfold mbind at 1. pose proof (cwd_kept_path_exists extract_dir w) as H0.
  destruct (path_exists extract_dir w) as [[e|err] w0]; cbn [snd] in H0; [|exact H0].
  unfold mbind at 1.
  assert (H1 : cwd_kept (if e then ret tt else makedirs extract_dir))
    by (destruct e; [apply cwd_kept_ret|apply cwd_kept_makedirs]).
  specialize (H1 w0).
  destruct ((if e then ret tt else makedirs extract_dir) w0) as [[[]|err] w1];
    cbn [snd] in H1; [|congruence].
  assert (Hpre : cwd w1 = cwd w) by congruence.
  unfold mbind at 1. unfold get_cwd_file. rewrite Hpre, Hfile.
  destruct data as [t|title paragraphs|members]; try exact Hpre.
  unfold mbind.
  pose proof (cwd_kept_for_each members (extract_member extract_dir)
                (cwd_kept_extract_member extract_dir) w1) as Hloop.
  destruct (for_each members (extract_member extract_dir) w1) as [[[]|err] w2];
    cbn [snd] in Hloop; [|congruence].
  cbn [set_cwd_file ret cwd]. split; [reflexivity|]. rewrite str_eqb_refl.
  split; [reflexivity|]. split; [now exists members|].
  intros n Hn. destruct (str_eqb_spec n zip_path) as [Heq|_]; [contradiction|].
  congruence.
Qed.

(** After a download that succeeded, the downloaded file is gone from the
    working directory when the archive was unpacked without an exception,
    and is still there, with the response body as its content, when the
    body is no archive or a member could not be extracted. *)
Theorem downloaded_archive_removed_only_on_success
    srv job_name project output_dir id r w :
  artifacts srv project id = Answer r ->
  raise_for_status r = Return tt ->
  match fetch_and_unzip srv job_name project output_dir id w with
  | (Return extract_dir, w') =>
      extract_dir = output_dir ++ [job_dirname id] /\
      (exists members, body r = ZipArchive members) /\
      cwd w' (artifact_filename id) = None /\
      forall n, n <> artifact_filename id -> cwd w' n = cwd w n
  | (Raise _, w') =>
      cwd w' (artifact_filename id) = Some (body r) /\
      forall n, n <> artifact_filename id -> cwd w' n = cwd w n
  end.
Proof.
  intros Hreply Hstatus.
  unfold fetch_and_unzip, download_artifact. rewrite Hreply, Hstatus.
  unfold mbind, send, set_cwd_file, ret, print.
  set (w1 := mk_world _ _ _ _).
  assert (Hfile : cwd w1 (artifact_filename id) = Some (body r))
    by (cbn [cwd w1]; now rewrite str_eqb_refl).
  assert (Hothers : forall n, n <> artifact_filename id -> cwd w1 n = cwd w n).
  { intros n Hn. cbn [cwd w1].
    destruct (str_eqb_spec n (artifact_filename id)); [contradiction|reflexivity]. }
  pose proof (unzip_to_dir_archive_file (artifact_filename id)
                (output_dir ++ [job_dirname id]) (body r) w1 Hfile) as Hunzip.
  destruct (unzip_to_dir (artifact_filename id) (output_dir ++ [job_dirname id]) w1)
    as [[q|e] w2].
  - destruct Hunzip as (-> & Hnone & Hzip & Hrest). repeat split; auto.
    intros n Hn. rewrite (Hrest n Hn). now apply Hothers.
  - rewrite Hunzip. split; [exact Hfile|exact Hothers].
Qed.

Lemma downloaded_archive_removed_only_on_success_witness :
  match fetch_and_unzip example_server (py "lint") 1 [py "out"] 7 empty_world with
  | (Return extract_dir, w') =>
      extract_dir = [py "out"] ++ [job_dirname 7] /\
      (exists members, body (mk_response 200 None lint_archive) = ZipArchive members) /\
      cwd w' (artifact_filename 7) = None /\
      forall n, n <> artifact_filename 7 -> cwd w' n = cwd empty_world n
  | (Raise _, w') =>
      cwd w' (artifact_filename 7) = Some (body (mk_response 200 None lint_archive)) /\
      forall n, n <> artifact_filename 7 -> cwd w' n = cwd empty_world n
  end.
Proof.
  apply (downloaded_archive_removed_only_on_success example_server (py "lint") 1
           [py "out"] 7 (mk_response 200 None lint_archive) empty_world).
  - reflexivity.
  - reflexivity.
Defined.

(** ** What the loop over the entries leaves alone *)

Lemma startswith_app p s : startswith (p ++ s) p = true.
Proof.
  induction p as [|c p IH]; [reflexivity|]. cbn [app startswith].
  now rewrite Z.eqb_refl, IH.
Qed.

Lemma endswith_app s p : endswith (s ++ p) p = true.
Proof. unfold endswith. rewrite rev_app_distr. apply startswith_app. Qed.

Lemma write_pdf_sources_kept p es x d w :
  endswith x (py ".pdf") = true ->
  sources_kept p es w ->
  sources_kept p es (snd (tree_update (p ++ [x]) (write_at d) w)).
Proof.
  intros Hx (es' & Hl & Hsame). unfold tree_update.
  destruct (write_at d (get_entry x es')) as [o'|e] eqn:Hwrite.
  - destruct (update_in_dir (write_at d) x o' p (tree w) es' Hl Hwrite)
      as (t' & Hupd & Hl').
    rewrite Hupd. cbn [snd]. exists (set_entry x o' es'). split; [exact Hl'|].
    intros name Hname. rewrite get_entry_set_other; [now apply Hsame|].
    intros ->. congruence.
  - rewrite (update_raises_in_dir (write_at d) x e p (tree w) es' Hl Hwrite).
    cbn [snd]. now exists es'.
Qed.

Lemma build_pdf_sources_kept `{Libraries} p es x title paragraphs w :
  endswith x (py ".pdf") = true ->
  sources_kept p es w ->
  sources_kept p es (snd (build_pdf (p ++ [x]) title paragraphs w)).
Proof.
  intros Hx Hk. unfold build_pdf.
  destruct (forallb paragraph_ok (title :: paragraphs)); [|exact Hk].
  now apply write_pdf_sources_kept.
Qed.

Lemma render_entry_sources_kept `{Libraries} p es name w :
  sources_kept p es w -> sources_kept p es (snd (render_entry p name w)).
Proof.
  intros Hk. unfold render_entry.
  assert (Hpdf : endswith (splitext_root name ++ py ".pdf") (py ".pdf") = true)
    by apply endswith_app.
  destruct (endswith name (py ".json")).
  - unfold json_to_pdf, mbind.
    pose proof (read_text_world (p ++ [name]) w) as Hw.
    destruct (read_text (p ++ [name]) w) as [[t|e] w1]; cbn [snd] in Hw; subst w1;
      [|exact Hk].
    destruct (match t with
              | Some text => json_loads text
              | None => Raise JSONDecodeError
              end);
      [now apply build_pdf_sources_kept|exact Hk].
  - destruct (endswith name (py ".xml")); [|exact Hk].
    assert (Hbody : sources_kept p es
              (snd (xml_to_pdf_body (p ++ [name])
                      (p ++ [splitext_root name ++ py ".pdf"]) w))).
    { unfold xml_to_pdf_body, mbind.
      pose proof (read_text_world (p ++ [name]) w) as Hw.
      destruct (read_text (p ++ [name]) w) as [[t|e] w1]; cbn [snd] in Hw; subst w1;
        [|exact Hk].
      destruct (match t with Some text => ET_parse text | None => None end);
        [now apply build_pdf_sources_kept|exact Hk]. }
    unfold xml_to_pdf.
    destruct (xml_to_pdf_body (p ++ [name]) (p ++ [splitext_root name ++ py ".pdf"]) w)
      as [[[]|e] w']; cbn [snd] in *; [exact Hbody|].
    destruct e; exact Hbody.
Qed.

Lemma render_loop_sources_kept `{Libraries} p es names : forall w,
  sources_kept p es w -> sources_kept p es (snd (for_each names (render_entry p) w)).
Proof.
  induction names as [|name names IH]; intros w Hk; [exact Hk|].
  cbn [for_each]. unfold mbind.
  pose proof (render_entry_sources_kept p es name w Hk) as Hk1.
  destruct (render_entry p name w) as [[[]|e] w1]; cbn [snd] in *;
    [now apply IH|exact Hk1].
Qed.

(** The loop of [process_job] writes documents and nothing else: whether it
    ends normally or with an exception, every entry of the extracted
    directory whose name does not end in [.pdf] is afterwards what it was,
    and no such entry is added.  An extracted [x.pdf], though, is replaced
    when an [x.json] or [x.xml] is rendered. *)
Theorem render_all_keeps_sources `{Libraries} extract_dir es w :
  lookup extract_dir (Dir (tree w)) = Some (Dir es) ->
  exists es',
    lookup extract_dir (Dir (tree (snd (render_all extract_dir w)))) = Some (Dir es') /\
    forall name, endswith name (py ".pdf") = false ->
                 get_entry name es' = get_entry name es.
Proof.
  intros Hl. rewrite (render_all_loop extract_dir es w Hl).
  apply (render_loop_sources_kept extract_dir es (map fst es) w).
  exists es. split; [exact Hl|]. intros name _. reflexivity.
Qed.

Lemma render_all_keeps_sources_witness :
  exists es',
    lookup [py "out"; job_dirname 10]
           (Dir (tree (snd (@render_all toy_libraries [py "out"; job_dirname 10]
                              api_unpacked_world)))) = Some (Dir es') /\
    forall name, endswith name (py ".pdf") = false ->
                 get_entry name es' = get_entry name api_unpacked_dir.
Proof.
  apply (@render_all_keeps_sources toy_libraries [py "out"; job_dirname 10]
           api_unpacked_dir api_unpacked_world).
  vm_compute. reflexivity.
Defined.

(** ** [zip_pdfs], run again *)

Lemma zip_name_is_no_pdf prefix : is_pdf_name (zip_name prefix) = false.
Proof.
  unfold is_pdf_name, zip_name, endswith, lower. rewrite map_app, rev_app_distr.
  reflexivity.
Qed.

Lemma put_entry_same x v es : get_entry x es = Some v -> put_entry x v es = es.
Proof.
  induction es as [|[n y] es IH]; cbn [get_entry put_entry]; [discriminate|].
  destruct (str_eqb n x); intros Hx; [congruence|]. f_equal. now apply IH.
Qed.

Lemma update_same f x v : forall p t es,
  lookup p (Dir t) = Some (Dir es) ->
  get_entry x es = Some v ->
  f (Some v) = Return (Some v) ->
  update (p ++ [x]) f t = Return t.
Proof.
  induction p as [|a p IH]; intros t es Hl Hx Hf.
  - cbn [lookup] in Hl. inversion Hl; subst. cbn [app update].
    rewrite Hx, Hf. cbn [bind set_entry]. f_equal. now apply put_entry_same.
  - change ((a :: p) ++ [x]) with (a :: p ++ [x]). rewrite update_snoc_cons.
    cbn [lookup] in Hl.
    destruct (get_entry a t) as [[d|sub]|] eqn:Ha; try discriminate Hl.
    + destruct p; discriminate Hl.
    + rewrite (IH sub es Hl Hx Hf). cbn [bind]. f_equal. now apply put_entry_same.
Qed.

Lemma walk_put_file root z a es :
  is_pdf_name z = false ->
  (forall sub, get_entry z es <> Some (Dir sub)) ->
  filter (fun f => is_pdf_name (snd (fst f))) (walk root (Dir (put_entry z (File a) es))) =
  filter (fun f => is_pdf_name (snd (fst f))) (walk root (Dir es)).
Proof.
  intros Hz Hfree. cbn [walk]. rewrite !filter_app. f_equal.
  - induction es as [|[n y] es IH]; cbn [put_entry flat_map snd fst].
    + cbn [app filter snd fst]. now rewrite Hz.
    + cbn [get_entry] in Hfree. destruct (str_eqb_spec n z) as [->|Hne].
      * cbn [flat_map snd fst]. destruct y as [d|sub]; [|exfalso; now apply (Hfree sub)].
        cbn [app filter snd fst]. now rewrite Hz.
      * cbn [flat_map snd fst]. rewrite !filter_app. f_equal. now apply IH.
  - f_equal. induction es as [|[n y] es IH]; cbn [put_entry flat_map snd fst].
    + reflexivity.
    + cbn [get_entry] in Hfree. destruct (str_eqb_spec n z) as [->|Hne].
      * cbn [flat_map snd fst]. destruct y as [d|sub]; [|exfalso; now apply (Hfree sub)].
        reflexivity.
      * cbn [flat_map snd fst]. f_equal. now apply IH.
Qed.

(** [zip_pdfs] never takes its own archive for a document: after a run the
    documents found are those found before, and a second run writes the
    same archive again, so that the tree is what the first run left.  The
    prefix is a file-name prefix, without a slash. *)
Theorem zip_pdfs_twice output_dir prefix w es :
  ~ In 47 prefix ->
  lookup output_dir (Dir (tree w)) = Some (Dir es) ->
  (forall sub, get_entry (zip_name prefix) es <> Some (Dir sub)) ->
  exists w1 w2,
    zip_pdfs output_dir prefix w = (Return tt, w1) /\
    pdf_files output_dir (tree w1) = pdf_files output_dir (tree w) /\
    zip_pdfs output_dir prefix w1 = (Return tt, w2) /\
    tree w2 = tree w1.
Proof.
  intros _ Hl Hfree.
  destruct (pdf_files output_dir (tree w)) as [|f0 docs] eqn:Hdocs.
  - exists (snd (print NoPdfFound w)), (snd (print NoPdfFound (snd (print NoPdfFound w)))).
    unfold zip_pdfs. cbn [print snd tree]. rewrite Hdocs. now repeat split.
  - set (members := map (fun f => (prefix ++ snd (fst f), snd f)) (f0 :: docs)).
    assert (Hwrite : write_at (ZipArchive members) (get_entry (zip_name prefix) es) =
                     Return (Some (File (ZipArchive members)))).
    { destruct (get_entry (zip_name prefix) es) as [[d0|sub]|] eqn:He;
        try reflexivity. exfalso. now apply (Hfree sub). }
    destruct (update_in_dir _ _ _ _ _ _ Hl Hwrite) as (t1 & Hupd & Hl1).
    cbn [set_entry] in Hl1.
    assert (Hdocs1 : pdf_files output_dir t1 = f0 :: docs).
    { rewrite <- Hdocs. unfold pdf_files. rewrite Hl, Hl1.
      apply walk_put_file; [apply zip_name_is_no_pdf|exact Hfree]. }
    assert (Hupd1 : update (output_dir ++ [zip_name prefix])
                           (write_at (ZipArchive members)) t1 = Return t1).
    { apply (update_same _ _ (File (ZipArchive members)) _ _ _ Hl1);
        [apply get_entry_put_same|reflexivity]. }
    set (out := Zipped (output_dir ++ [zip_name prefix])).
    exists (mk_world (cwd w) t1 (stdout w ++ [out]) (requests w)),
           (mk_world (cwd w) t1 ((stdout w ++ [out]) ++ [out]) (requests w)).
    unfold zip_pdfs. cbn [tree]. rewrite Hdocs, Hdocs1.
    unfold mbind, tree_update. cbn [tree]. fold members. rewrite Hupd, Hupd1.
    now repeat split.
Qed.

Lemma zip_pdfs_twice_witness :
  exists w1 w2,
    zip_pdfs [py "out"] (py "p_") two_documents_world = (Return tt, w1) /\
    pdf_files [py "out"] (tree w1) = pdf_files [py "out"] (tree two_documents_world) /\
    zip_pdfs [py "out"] (py "p_") w1 = (Return tt, w2) /\
    tree w2 = tree w1.
Proof.
  apply (zip_pdfs_twice [py "out"] (py "p_") two_documents_world two_documents).
  - vm_compute. intros [Heq|[Heq|[]]]; discriminate Heq.
  - reflexivity.
  - intros sub. vm_compute. discriminate.
Defined.

(** ** Configurations of one pipeline *)



(** ** What a job leaves alone in the tree *)

Lemma lookup_app p : forall s n,
  lookup (p ++ s) n =
  match lookup p n with
  | Some x => lookup s x
  | None => None
  end.
Proof.
  induction p as [|a p IH]; intros s n; [reflexivity|].
  cbn [app lookup]. destruct n as [d|es].
  - destruct s; reflexivity.
  - destruct (get_entry a es); [apply IH|reflexivity].
Qed.

Lemma update_diverges f : forall r a b p' q' t t',
  a <> b ->
  update (r ++ a :: p') f t = Return t' ->
  lookup (r ++ b :: q') (Dir t') = lookup (r ++ b :: q') (Dir t).
Proof.
  induction r as [|c r IH]; intros a b p' q' t t' Hab Hupd.
  - cbn [app] in *. rewrite update_head in Hupd.
    destruct (at_entry p' f (get_entry a t)) as [o'|e]; [|discriminate Hupd].
    cbn [bind] in Hupd. inversion Hupd; subst. cbn [lookup].
    now rewrite get_entry_set_other.
  - change ((c :: r) ++ a :: p') with (c :: r ++ a :: p') in Hupd.
    assert (Hstep : update (c :: r ++ a :: p') f t =
                    match get_entry c t with
                    | Some (Dir sub) =>
                        do sub' <- update (r ++ a :: p') f sub;
                        Return (put_entry c (Dir sub') t)
                    | Some (File _) => Raise NotADirectoryError
                    | None => Raise FileNotFoundError
                    end).
    { cbn [update]. destruct (r ++ a :: p') eqn:Hrest; [|reflexivity].
      destruct r; discriminate Hrest. }
    rewrite Hstep in Hupd. cbn [app lookup].
    destruct (get_entry c t) as [[d|sub]|] eqn:Hc; try discriminate Hupd.
    destruct (update (r ++ a :: p') f sub) as [sub'|e] eqn:Hsub; [|discriminate Hupd].
    cbn [bind] in Hupd. inversion Hupd; subst.
    rewrite get_entry_put_same. now apply (IH a b p' q' sub sub').
Qed.

Lemma outside_kept_ret p {A} (x : A) : outside_kept p (ret x).
Proof. intros w q _. reflexivity. Qed.

Lemma outside_kept_bind p {A B} (m : M A) (k : A -> M B) :
  outside_kept p m -> (forall x, outside_kept p (k x)) -> outside_kept p (mbind m k).
Proof.
  intros Hm Hk w q Hq. unfold mbind. specialize (Hm w q Hq).
  destruct (m w) as [[x|e] w1]; cbn [snd] in *; [|exact Hm].
  now rewrite (Hk x w1 q Hq).
Qed.

Lemma outside_kept_for_each p {A} (xs : list A) (body : A -> M unit) :
  (forall x, outside_kept p (body x)) -> outside_kept p (for_each xs body).
Proof.
  intros Hbody. induction xs as [|x xs IH]; cbn [for_each]; [apply outside_kept_ret|].
  apply outside_kept_bind; [apply Hbody|]. intros _. exact IH.
Qed.

Lemma outside_kept_same_tree p {A} (m : M A) :
  (forall w, tree (snd (m w)) = tree w) -> outside_kept p m.
Proof. intros Hm w q _. now rewrite Hm. Qed.

(** Writing at [p] or below it. *)
Lemma outside_kept_update_below p s f : outside_kept p (tree_update (p ++ s) f).
Proof.
  intros w q (r & a & b & p' & q' & -> & -> & Hab). unfold tree_update.
  destruct (update ((r ++ a :: p') ++ s) f (tree w)) as [t'|e] eqn:Hupd; [|reflexivity].
  cbn [snd tree]. rewrite <- app_assoc in Hupd. cbn [app] in Hupd.
  exact (update_diverges f r a b (p' ++ s) q' _ _ Hab Hupd).
Qed.

Lemma mkdir_at_path : forall q0 t t',
  update q0 mkdir_at t = Return t' ->
  lookup q0 (Dir t) = None /\ lookup q0 (Dir t') = Some (Dir []).
Proof.
  induction q0 as [|a q0 IH]; intros t t' Hupd; [discriminate Hupd|].
  destruct q0 as [|b q0].
  - cbn [update] in Hupd. cbn [lookup].
    destruct (get_entry a t) as [x|] eqn:Ha; [discriminate Hupd|].
    cbn [mkdir_at bind set_entry] in Hupd. inversion Hupd; subst.
    now rewrite get_entry_put_same.
  - rewrite update_cons2 in Hupd. rewrite !(lookup_cons a).
    destruct (get_entry a t) as [[d|sub]|] eqn:Ha; try discriminate Hupd.
    destruct (update (b :: q0) mkdir_at sub) as [sub'|e] eqn:Hsub; [|discriminate Hupd].
    cbn [bind] in Hupd. inversion Hupd; subst. rewrite get_entry_put_same.
    exact (IH sub sub' Hsub).
Qed.

(** Creating a directory on the way to [p]. *)
Lemma outside_kept_mkdir_above q0 s : outside_kept (q0 ++ s) (tree_update q0 mkdir_at).
Proof.
  intros w q (r & a & b & p' & q' & Hp & -> & Hab). unfold tree_update.
  destruct (update q0 mkdir_at (tree w)) as [t'|e] eqn:Hupd; [|reflexivity].
  cbn [snd tree]. apply app_eq_app in Hp.
  destruct Hp as [l [[-> Hs]|[-> Hs]]].
  - destruct l as [|a' l].
    + rewrite app_nil_r in *. destruct (mkdir_at_path _ _ _ Hupd) as [Hbefore Hafter].
      now rewrite !lookup_app, Hbefore, Hafter.
    + cbn [app] in Hs. injection Hs as Ha Hp'. subst a'.
      exact (update_diverges mkdir_at r a b l q' _ _ Hab Hupd).
  - destruct (mkdir_at_path _ _ _ Hupd) as [Hbefore Hafter].
    rewrite <- !app_assoc, !lookup_app, Hbefore, Hafter.
    destruct l; reflexivity.
Qed.

Lemma outside_kept_for_each_in p {A} (xs : list A) (body : A -> M unit) :
  (forall x, In x xs -> outside_kept p (body x)) -> outside_kept p (for_each xs body).
Proof.
  induction xs as [|x xs IH]; intros Hbody; cbn [for_each]; [apply outside_kept_ret|].
  apply outside_kept_bind; [apply Hbody; now left|]. intros _.
  apply IH. intros y Hy. apply Hbody. now right.
Qed.

Lemma ancestors_spec : forall t q0,
  In q0 (ancestors t) -> exists s, t = q0 ++ s.
Proof.
  induction t as [|a t IH]; intros q0 Hin; [destruct Hin|].
  cbn [ancestors] in Hin. destruct t as [|b t]; [destruct Hin|].
  destruct Hin as [<-|Hin]; [now exists (b :: t)|].
  apply in_map_iff in Hin. destruct Hin as (q1 & <- & Hq1).
  destruct (IH q1 Hq1) as [s Hs]. exists s. cbn [app]. now rewrite <- Hs.
Qed.

(** A path on the line through [p]: one that [p] goes through, or one that
    goes through [p]. *)
Lemma on_the_line_start (p t q0 s : path) :
  (exists s1, t = p ++ s1) \/ (exists s1, p = t ++ s1) ->
  t = q0 ++ s ->
  (exists s1, q0 = p ++ s1) \/ (exists s1, p = q0 ++ s1).
Proof.
  intros [[s1 Ht]|[s1 Hp]] Hq.
  - rewrite Ht in Hq. apply app_eq_app in Hq.
    destruct Hq as [l [[-> _]|[-> _]]]; [right|left]; now exists l.
  - right. exists (s ++ s1). now rewrite Hp, Hq, app_assoc.
Qed.

Lemma outside_kept_mkdir p q0 :
  (exists s1, q0 = p ++ s1) \/ (exists s1, p = q0 ++ s1) ->
  outside_kept p (tree_update q0 mkdir_at).
Proof.
  intros [[s1 ->]|[s1 ->]];
    [apply outside_kept_update_below|apply outside_kept_mkdir_above].
Qed.

Lemma outside_kept_path_exists p q0 : outside_kept p (path_exists q0).
Proof. apply outside_kept_same_tree. reflexivity. Qed.

Lemma outside_kept_makedirs p t :
  (exists s1, t = p ++ s1) \/ (exists s1, p = t ++ s1) ->
  outside_kept p (makedirs t).
Proof.
  intros Ht. unfold makedirs.
  apply outside_kept_bind; [|intros _; now apply outside_kept_mkdir].
  apply outside_kept_for_each_in. intros q0 Hq0.
  destruct (ancestors_spec t q0 Hq0) as [s Hs].
  apply outside_kept_bind; [apply outside_kept_path_exists|].
  intros [|]; [apply outside_kept_ret|].
  apply outside_kept_mkdir. exact (on_the_line_start p t q0 s Ht Hs).
Qed.

Lemma removelast_start {A} (t : list A) : exists s, t = removelast t ++ s.
Proof.
  destruct t as [|a t]; [now exists []|].
  exists [last (a :: t) a]. apply app_removelast_last. discriminate.
Qed.

Lemma outside_kept_extract_member p m : outside_kept p (extract_member p m).
Proof.
  unfold extract_member.
  assert (Hup : (exists s1, removelast (p ++ member_path (fst m)) = p ++ s1) \/
                (exists s1, p = removelast (p ++ member_path (fst m)) ++ s1)).
  { destruct (removelast_start (p ++ member_path (fst m))) as [s Hs].
    apply (on_the_line_start p (p ++ member_path (fst m))
             (removelast (p ++ member_path (fst m))) s);
      [left; now exists (member_path (fst m))|exact Hs]. }
  apply outside_kept_bind; [apply outside_kept_path_exists|]. intros e.
  apply outside_kept_bind;
    [destruct e; [apply outside_kept_ret|now apply outside_kept_makedirs]|].
  intros _. destruct (endswith (fst m) [47]); [|apply outside_kept_update_below].
  apply outside_kept_bind; [apply outside_kept_same_tree; reflexivity|].
  intros [|]; [apply outside_kept_ret|apply outside_kept_update_below].
Qed.

Lemma outside_kept_unzip_to_dir p zip_path : outside_kept p (unzip_to_dir zip_path p).
Proof.
  unfold unzip_to_dir.
  apply outside_kept_bind; [apply outside_kept_path_exists|]. intros e.
  apply outside_kept_bind.
  { destruct e; [apply outside_kept_ret|].
    apply outside_kept_makedirs. left. exists []. now rewrite app_nil_r. }
  intros _. apply outside_kept_bind; [apply outside_kept_same_tree; reflexivity|].
  intros [[t|title paragraphs|members]|]; try (apply outside_kept_same_tree; reflexivity).
  apply outside_kept_bind;
    [apply outside_kept_for_each; intros m; apply outside_kept_extract_member|].
  intros _. apply outside_kept_bind; [apply outside_kept_same_tree; reflexivity|].
  intros _. apply outside_kept_ret.
Qed.

Lemma outside_kept_build_pdf `{Libraries} p x title paragraphs :
  outside_kept p (build_pdf (p ++ [x]) title paragraphs).
Proof.
  unfold build_pdf. destruct (forallb paragraph_ok (title :: paragraphs));
    [apply outside_kept_update_below|apply outside_kept_same_tree; reflexivity].
Qed.

Lemma outside_kept_read_text p q0 : outside_kept p (read_text q0).
Proof. apply outside_kept_same_tree. intros w. now rewrite read_text_world. Qed.

Lemma outside_kept_render_entry `{Libraries} p name : outside_kept p (render_entry p name).
Proof.
  unfold render_entry. destruct (endswith name (py ".json")).
  - unfold json_to_pdf. apply outside_kept_bind; [apply outside_kept_read_text|].
    intros t. destruct (match t with
              | Some text => json_loads text
              | None => Raise JSONDecodeError
              end);
      [apply outside_kept_build_pdf|apply outside_kept_same_tree; reflexivity].
  - destruct (endswith name (py ".xml")); [|apply outside_kept_ret].
    assert (Hbody : outside_kept p
              (xml_to_pdf_body (p ++ [name]) (p ++ [splitext_root name ++ py ".pdf"]))).
    { unfold xml_to_pdf_body. apply outside_kept_bind; [apply outside_kept_read_text|].
      intros t. destruct (match t with Some text => ET_parse text | None => None end);
        [apply outside_kept_build_pdf|apply outside_kept_same_tree; reflexivity]. }
    intros w q Hq. specialize (Hbody w q Hq). unfold xml_to_pdf.
    destruct (xml_to_pdf_body (p ++ [name]) (p ++ [splitext_root name ++ py ".pdf"]) w)
      as [[[]|e] w1]; cbn [snd] in *; [exact Hbody|].
    destruct e; exact Hbody.
Qed.

Lemma outside_kept_render_all `{Libraries} p : outside_kept p (render_all p).
Proof.
  unfold render_all. apply outside_kept_bind.
  - apply outside_kept_same_tree. intros w. unfold listdir, tree_lookup, mbind.
    destruct (lookup p (Dir (tree w))) as [[d|es]|]; reflexivity.
  - intros names. apply outside_kept_for_each. intros name.
    apply outside_kept_render_entry.
Qed.

Lemma outside_kept_fetch_and_render `{Libraries} srv name project output_dir id :
  outside_kept (output_dir ++ [job_dirname id])
               (fetch_and_render srv name project output_dir id).
Proof.
  unfold fetch_and_render. apply outside_kept_bind.
  - apply outside_kept_same_tree. intros w. unfold download_artifact, mbind, send.
    destruct (artifacts srv project id) as [|r]; [reflexivity|].
    destruct (raise_for_status r); reflexivity.
  - intros zip_path. apply outside_kept_bind;
      [apply outside_kept_same_tree; reflexivity|].
    intros _. apply outside_kept_bind; [apply outside_kept_unzip_to_dir|].
    intros _. apply outside_kept_render_all.
Qed.

Lemma job_dirname_inj a b : job_dirname a = job_dirname b -> a = b.
Proof.
  unfold job_dirname. intros Heq. apply app_inv_head in Heq. now apply str_of_int_inj.
Qed.



(** ** Two entries of one stem *)

Lemma json_to_pdf_writes `{Libraries} json_path q es pdf text v w :
  lookup json_path (Dir (tree w)) = Some (File (Text text)) ->
  lookup q (Dir (tree w)) = Some (Dir es) ->
  (forall sub, get_entry pdf es <> Some (Dir sub)) ->
  json_loads text = Return v ->
  forallb paragraph_ok (basename json_path :: json_paragraphs v) = true ->
  exists w',
    json_to_pdf json_path (q ++ [pdf]) w = (Return tt, w') /\
    lookup q (Dir (tree w'))
    = Some (Dir (put_entry pdf
                   (File (PdfDoc (basename json_path) (json_paragraphs v))) es)).
Proof.
  intros Hfile Hdir Hpdf Hloads Hok.
  unfold json_to_pdf, mbind. rewrite (read_text_file _ _ _ Hfile), Hloads.
  unfold build_pdf. rewrite Hok.
  pose proof (write_file_in_dir q es pdf
                (PdfDoc (basename json_path) (json_paragraphs v)) w Hdir) as Hwrite.
  destruct (get_entry pdf es) as [[d0|sub]|] eqn:Hx;
    [|exfalso; now apply (Hpdf sub)|];
    destruct Hwrite as (w' & Hrun & Hl & _); now exists w'.
Qed.

Lemma xml_to_pdf_writes `{Libraries} xml_path q es pdf text root w :
  lookup xml_path (Dir (tree w)) = Some (File (Text text)) ->
  lookup q (Dir (tree w)) = Some (Dir es) ->
  (forall sub, get_entry pdf es <> Some (Dir sub)) ->
  ET_parse text = Some root ->
  forallb paragraph_ok (html_escape (basename xml_path)
                        :: xml_paragraphs (ET_tostring root)) = true ->
  exists w',
    xml_to_pdf xml_path (q ++ [pdf]) w = (Return tt, w') /\
    lookup q (Dir (tree w'))
    = Some (Dir (put_entry pdf
                   (File (PdfDoc (html_escape (basename xml_path))
                                 (xml_paragraphs (ET_tostring root)))) es)).
Proof.
  intros Hfile Hdir Hpdf Hparse Hok.
  unfold xml_to_pdf, xml_to_pdf_body, mbind.
  rewrite (read_text_file _ _ _ Hfile), Hparse.
  unfold build_pdf. rewrite Hok.
  pose proof (write_file_in_dir q es pdf
                (PdfDoc (html_escape (basename xml_path))
                        (xml_paragraphs (ET_tostring root))) w Hdir) as Hwrite.
  destruct (get_entry pdf es) as [[d0|sub]|] eqn:Hx;
    [|exfalso; now apply (Hpdf sub)|];
    destruct Hwrite as (w' & Hrun & Hl & _); rewrite Hrun; now exists w'.
Qed.

Lemma render_entry_json_writes `{Libraries} p es stem text v w :
  forallb (Z.eqb 46) stem = false ->
  lookup p (Dir (tree w)) = Some (Dir es) ->
  get_entry (stem ++ py ".json") es = Some (File (Text text)) ->
  (forall sub, get_entry (stem ++ py ".pdf") es <> Some (Dir sub)) ->
  json_loads text = Return v ->
  forallb paragraph_ok ((stem ++ py ".json") :: json_paragraphs v) = true ->
  exists w',
    render_entry p (stem ++ py ".json") w = (Return tt, w') /\
    lookup p (Dir (tree w'))
    = Some (Dir (put_entry (stem ++ py ".pdf")
                   (File (PdfDoc (stem ++ py ".json") (json_paragraphs v))) es)).
Proof.
  intros Hstem Hdir Hfile Hpdf Hloads Hok.
  unfold render_entry. rewrite endswith_app, (splitext_root_json _ Hstem).
  pose proof (json_to_pdf_writes (p ++ [stem ++ py ".json"]) p es
                (stem ++ py ".pdf") text v w) as Hwrites.
  rewrite basename_snoc in Hwrites. apply Hwrites; try assumption.
  now rewrite (lookup_snoc p _ _ _ Hdir).
Qed.

Lemma render_entry_xml_writes `{Libraries} p es stem text root w :
  forallb (Z.eqb 46) stem = false ->
  lookup p (Dir (tree w)) = Some (Dir es) ->
  get_entry (stem ++ py ".xml") es = Some (File (Text text)) ->
  (forall sub, get_entry (stem ++ py ".pdf") es <> Some (Dir sub)) ->
  ET_parse text = Some root ->
  forallb paragraph_ok (html_escape (stem ++ py ".xml")
                        :: xml_paragraphs (ET_tostring root)) = true ->
  exists w',
    render_entry p (stem ++ py ".xml") w = (Return tt, w') /\
    lookup p (Dir (tree w'))
    = Some (Dir (put_entry (stem ++ py ".pdf")
                   (File (PdfDoc (html_escape (stem ++ py ".xml"))
                                 (xml_paragraphs (ET_tostring root)))) es)).
Proof.
  intros Hstem Hdir Hfile Hpdf Hparse Hok.
  unfold render_entry.
  rewrite (endswith_xml_not_json _ (endswith_app stem (py ".xml"))).
  rewrite endswith_app, (splitext_root_xml _ Hstem).
  pose proof (xml_to_pdf_writes (p ++ [stem ++ py ".xml"]) p es
                (stem ++ py ".pdf") text root w) as Hwrites.
  rewrite basename_snoc in Hwrites. apply Hwrites; try assumption.
  now rewrite (lookup_snoc p _ _ _ Hdir).
Qed.

Lemma same_stem_names (stem a b : pystr) : a <> b -> stem ++ a <> stem ++ b.
Proof. intros Hne Heq. apply Hne. now apply app_inv_head in Heq. Qed.

(** [x.json] and [x.xml] are both rendered to [x.pdf] (the stem [x] is a
    name that is not made of dots only), so that one directory has one
    document for the two: where both files are rendered, the document is
    that of the entry the loop meets later, in either order.  The JSON
    value is nested at most a hundred deep, below the recursion limit of
    the interpreter, which is not modelled. *)
Theorem same_stem_later_entry_wins `{Libraries}
    p es stem json_text v xml_text root w :
  forallb (Z.eqb 46) stem = false ->
  lookup p (Dir (tree w)) = Some (Dir es) ->
  get_entry (stem ++ py ".json") es = Some (File (Text json_text)) ->
  get_entry (stem ++ py ".xml") es = Some (File (Text xml_text)) ->
  (forall sub, get_entry (stem ++ py ".pdf") es <> Some (Dir sub)) ->
  json_loads json_text = Return v ->
  (depth v <= 100)%nat ->
  ET_parse xml_text = Some root ->
  forallb paragraph_ok ((stem ++ py ".json") :: json_paragraphs v) = true ->
  forallb paragraph_ok (html_escape (stem ++ py ".xml")
                        :: xml_paragraphs (ET_tostring root)) = true ->
  exists w1 w2,
    for_each [stem ++ py ".json"; stem ++ py ".xml"] (render_entry p) w
    = (Return tt, w1) /\
    lookup (p ++ [stem ++ py ".pdf"]) (Dir (tree w1))
    = Some (File (PdfDoc (html_escape (stem ++ py ".xml"))
                         (xml_paragraphs (ET_tostring root)))) /\
    for_each [stem ++ py ".xml"; stem ++ py ".json"] (render_entry p) w
    = (Return tt, w2) /\
    lookup (p ++ [stem ++ py ".pdf"]) (Dir (tree w2))
    = Some (File (PdfDoc (stem ++ py ".json") (json_paragraphs v))).
Proof.
  intros Hstem Hdir Hjson Hxml Hpdf Hloads _ Hparse Hokj Hokx.
  assert (Hpj : stem ++ py ".pdf" <> stem ++ py ".json")
    by (apply same_stem_names; discriminate).
  assert (Hpx : stem ++ py ".pdf" <> stem ++ py ".xml")
    by (apply same_stem_names; discriminate).
  destruct (render_entry_json_writes p es stem json_text v w
              Hstem Hdir Hjson Hpdf Hloads Hokj) as (wj & Hrunj & Hdirj).
  destruct (render_entry_xml_writes p _ stem xml_text root wj Hstem Hdirj)
    as (w1 & Hrun1 & Hdir1); try assumption.
  { now rewrite get_entry_put_other. }
  { intros sub. rewrite get_entry_put_same. discriminate. }
  destruct (render_entry_xml_writes p es stem xml_text root w
              Hstem Hdir Hxml Hpdf Hparse Hokx) as (wx & Hrunx & Hdirx).
  destruct (render_entry_json_writes p _ stem json_text v wx Hstem Hdirx)
    as (w2 & Hrun2 & Hdir2); try assumption.
  { now rewrite get_entry_put_other. }
  { intros sub. rewrite get_entry_put_same. discriminate. }
  exists w1, w2. cbn [for_each]. unfold mbind, ret.
  rewrite Hrunj, Hrun1, Hrunx, Hrun2.
  repeat split; eapply lookup_written; eassumption.
Qed.

Lemma same_stem_later_entry_wins_witness :
  exists w1 w2,
    for_each [py "a" ++ py ".json"; py "a" ++ py ".xml"]
             (@render_entry toy_libraries [py "job_8"]) same_stem_world
    = (Return tt, w1) /\
    lookup ([py "job_8"] ++ [py "a" ++ py ".pdf"]) (Dir (tree w1))
    = Some (File (PdfDoc (html_escape (py "a" ++ py ".xml"))
                         (xml_paragraphs (py "<a/>")))) /\
    for_each [py "a" ++ py ".xml"; py "a" ++ py ".json"]
             (@render_entry toy_libraries [py "job_8"]) same_stem_world
    = (Return tt, w2) /\
    lookup ([py "job_8"] ++ [py "a" ++ py ".pdf"]) (Dir (tree w2))
    = Some (File (PdfDoc (py "a" ++ py ".json") (json_paragraphs (JList [JInt 1])))).
Proof.
  apply (@same_stem_later_entry_wins toy_libraries [py "job_8"] same_stem_dir
           (py "a") (py "[1]") (JList [JInt 1]) (py "<a/>") (py "<a/>")
           same_stem_world).
  - reflexivity.
  - reflexivity.
  - reflexivity.
  - reflexivity.
  - intros sub. vm_compute. discriminate.
  - vm_compute. reflexivity.
  - simpl. lia.
  - reflexivity.
  - vm_compute. reflexivity.
  - vm_compute. reflexivity.
Defined.
